(** * MetaPilot: permission validation, scheduling and execution pipeline

    A shallow embedding of [PermissionManager] (permission lifecycle and
    spend ledger) and [AgentExecutor] (schedule parsing, fallback decision,
    execution pipeline), with the properties of the written specification
    stated and settled against it.

    Conventions of the embedding:
    - a JavaScript [number] is a [jsnum]: NaN, the two infinities, or a
      finite value carried as an exact rational.  Rounding of IEEE doubles
      is not modelled; NaN and infinity propagation is;
    - a [Date] is its millisecond time value, a [Z];
    - strings are [string] (sequences of 8-bit characters); case folding
      acts on the ASCII letters;
    - a [Map<string, T>] is a [gmap string T];
    - [throw]/[try]/[catch] is a sum type carried through the calls;
    - every collaborator outside the two classes (wallet manager, smart
      account service, reasoning provider, clock, random identifiers) is an
      input of the run, gathered in a record. *)

From Stdlib Require Import ZArith QArith Qabs Lqa String Ascii List Bool Lia.
From stdpp Require Import base option gmap strings.
Import ListNotations.

Local Open Scope string_scope.

(* ===================================================================== *)
(** ** JavaScript values used by the two classes *)
(* ===================================================================== *)

Module JS.

(** [number]: NaN, +/-Infinity, or a finite value. *)
Inductive jsnum : Type :=
| NaN
| Inf (negative : bool)
| Fin (q : Q).

Definition isNaN (x : jsnum) : bool :=
  match x with NaN => true | _ => false end.


(** [x + y] *)
Definition add (x y : jsnum) : jsnum :=
  match x, y with
  | NaN, _ | _, NaN => NaN
  | Inf a, Inf b => if Bool.eqb a b then Inf a else NaN
  | Inf a, Fin _ => Inf a
  | Fin _, Inf b => Inf b
  | Fin p, Fin q => Fin (p + q)
  end.

(** [- x] *)
Definition neg (x : jsnum) : jsnum :=
  match x with
  | NaN => NaN
  | Inf a => Inf (negb a)
  | Fin q => Fin (- q)
  end.

(** [x - y] *)
Definition sub (x y : jsnum) : jsnum := add x (neg y).

(** [x < y]: false as soon as one side is NaN. *)
Definition lt (x y : jsnum) : bool :=
  match x, y with
  | NaN, _ | _, NaN => false
  | Inf a, Inf b => a && negb b
  | Inf a, Fin _ => a
  | Fin _, Inf b => negb b
  | Fin p, Fin q => negb (Qle_bool q p)
  end.

(** [x > y] *)
Definition gt (x y : jsnum) : bool := lt y x.

(** [x <= y]: false as soon as one side is NaN. *)
Definition le (x y : jsnum) : bool :=
  match x, y with
  | NaN, _ | _, NaN => false
  | Inf a, Inf b => a || negb b
  | Inf a, Fin _ => a
  | Fin _, Inf b => negb b
  | Fin p, Fin q => Qle_bool p q
  end.

(** [Math.max(x, y)] *)
Definition max (x y : jsnum) : jsnum :=
  match x, y with
  | NaN, _ | _, NaN => NaN
  | _, _ => if lt x y then y else x
  end.

Definition ofZ (z : Z) : jsnum := Fin (inject_Z z).

(** *** Characters *)

Definition isDigit (c : ascii) : bool :=
  let n := nat_of_ascii c in (48 <=? n)%nat && (n <=? 57)%nat.

Definition digitVal (c : ascii) : Z := Z.of_nat (nat_of_ascii c) - 48.

(** The white space characters of [StrWhiteSpaceChar] that fit in one
    8-bit character: TAB, LF, VT, FF, CR and SPACE. *)
Definition isWhite (c : ascii) : bool :=
  let n := nat_of_ascii c in
  ((9 <=? n)%nat && (n <=? 13)%nat) || (n =? 32)%nat.

Definition lowerChar (c : ascii) : ascii :=
  let n := nat_of_ascii c in
  if (65 <=? n)%nat && (n <=? 90)%nat then ascii_of_nat (n + 32) else c.

(** [s.toLowerCase()] *)
Fixpoint toLowerCase (s : string) : string :=
  match s with
  | EmptyString => EmptyString
  | String c r => String (lowerChar c) (toLowerCase r)
  end.

(** [s.startsWith(p)] *)
Fixpoint startsWith (p s : string) : bool :=
  match p, s with
  | EmptyString, _ => true
  | String a p', String b s' => Ascii.eqb a b && startsWith p' s'
  | String _ _, EmptyString => false
  end.

(** [s.includes(p)] *)
Fixpoint includes (s p : string) : bool :=
  startsWith p s ||
  match s with
  | EmptyString => false
  | String _ r => includes r p
  end.

(** Drop [n] characters. *)
Fixpoint skip (n : nat) (s : string) : string :=
  match n, s with
  | O, _ => s
  | S n', String _ r => skip n' r
  | S _, EmptyString => EmptyString
  end.

(** *** Number parsing *)

(** Longest run of decimal digits at the head of [s]: the digits read so
    far as an integer, how many there were, and what follows. *)
Fixpoint digitsFrom (acc : Z) (cnt : nat) (s : string) : Z * nat * string :=
  match s with
  | String c r =>
      if isDigit c then digitsFrom (10 * acc + digitVal c) (S cnt) r
      else (acc, cnt, s)
  | EmptyString => (acc, cnt, s)
  end.

Definition digits (s : string) : Z * nat * string := digitsFrom 0 0%nat s.

Fixpoint trimStart (s : string) : string :=
  match s with
  | String c r => if isWhite c then trimStart r else s
  | EmptyString => s
  end.

(** [10^e] as a rational, for any integer exponent. *)
Definition pow10 (e : Z) : Q :=
  if (0 <=? e)%Z then inject_Z (10 ^ e) else / inject_Z (10 ^ (- e)).

(** The optional [ExponentPart]: [e] or [E], an optional sign and at
    least one digit; anything else contributes no exponent. *)
Definition exponentPart (s : string) : Z :=
  match s with
  | String c r =>
      if Ascii.eqb c "e" || Ascii.eqb c "E" then
        let '(sg, r') :=
          match r with
          | String "+" t => (1%Z, t)
          | String "-" t => ((-1)%Z, t)
          | _ => (1%Z, r)
          end in
        let '(v, n, _) := digits r' in
        if (n =? 0)%nat then 0%Z else (sg * v)%Z
      else 0%Z
  | EmptyString => 0%Z
  end.

(** The unsigned [StrDecimalLiteral] prefix of [s]. *)
Definition unsignedLiteral (s : string) : jsnum :=
  if startsWith "Infinity" s then Inf false
  else
    let '(ip, ni, r1) := digits s in
    let '(fp, nf, r2) :=
      match r1 with
      | String "." t => digits t
      | _ => (0%Z, 0%nat, r1)
      end in
    if (ni =? 0)%nat && (nf =? 0)%nat then NaN
    else
      Fin ((inject_Z ip + inject_Z fp * pow10 (- Z.of_nat nf))
           * pow10 (exponentPart r2)).

(** [parseFloat(s)]: leading white space is skipped, then the longest
    prefix that is a decimal literal is read; NaN when there is none. *)
Definition parseFloat (s : string) : jsnum :=
  match trimStart s with
  | String "-" r => neg (unsignedLiteral r)
  | String "+" r => unsignedLiteral r
  | t => unsignedLiteral t
  end.

(** [parseInt(s)] on a string made of decimal digits only, which is what
    the capture group [(\d+)] hands over. *)
Definition parseInt (s : string) : Z := fst (fst (digits s)).

(** A string that holds a number: either text that came from outside, or
    the result of [Number.prototype.toString].  Reading the latter back
    with [parseFloat] gives the number it was made from. *)
Inductive numstr : Type :=
| Lit (s : string)
| OfNumber (n : jsnum).

Definition numToString (n : jsnum) : numstr := OfNumber n.

Definition parseFloatS (s : numstr) : jsnum :=
  match s with
  | Lit t => parseFloat t
  | OfNumber n => n
  end.

End JS.

(* ===================================================================== *)
(** ** Exceptions *)
(* ===================================================================== *)

(** What a [throw] carries: an [Error] object with its message, or any
    other value (for which [error instanceof Error] is false). *)
Inductive thrown : Type :=
| ErrorObj (message : string)
| NonError.

(** [error instanceof Error ? error.message : dflt] *)
Definition messageOr (dflt : string) (e : thrown) : string :=
  match e with
  | ErrorObj m => m
  | NonError => dflt
  end.

(** The result of a call that may throw. *)
Inductive outcome (A : Type) : Type :=
| Return (a : A)
| Throw (e : thrown).
Arguments Return {A} a.
Arguments Throw {A} e.

(** [a || b] on strings that may be undefined: the empty string and
    [undefined] are both falsy. *)
Definition orElse (a : option string) (b : string) : string :=
  match a with
  | Some s => if String.eqb s "" then b else s
  | None => b
  end.

(* ===================================================================== *)
(** ** types/permissions *)
(* ===================================================================== *)

Inductive PermissionStatus : Type := active | expired | revoked | pending.

Definition PermissionStatus_eqb (a b : PermissionStatus) : bool :=
  match a, b with
  | active, active | expired, expired | revoked, revoked
  | pending, pending => true
  | _, _ => false
  end.

Record PermissionRequest : Type := mkRequest {
  req_tokenAddress : string;
  req_maxSpendAmount : string;
  req_startTime : Z;
  req_endTime : Z;
  req_allowedContracts : list string
}.

Record ERC7715Permission : Type := mkPermission {
  perm_id : string;
  perm_tokenAddress : string;
  perm_maxSpendAmount : string;
  perm_startTime : Z;
  perm_endTime : Z;
  perm_allowedContracts : list string;
  perm_status : PermissionStatus;
  perm_grantedAt : Z;
  perm_transactionHash : option string;
  perm_smartAccountPermissionId : option string
}.

Record SpendEntry : Type := mkSpendEntry {
  se_timestamp : Z;
  se_amount : string;
  se_transactionHash : string;
  se_remainingAfter : JS.numstr
}.

Record SpendTracking : Type := mkSpendTracking {
  st_permissionId : string;
  st_totalSpent : JS.numstr;
  st_remainingAllowance : JS.numstr;
  st_spendEntries : list SpendEntry
}.

Definition set_status (s : PermissionStatus) (p : ERC7715Permission)
  : ERC7715Permission :=
  {| perm_id := perm_id p;
     perm_tokenAddress := perm_tokenAddress p;
     perm_maxSpendAmount := perm_maxSpendAmount p;
     perm_startTime := perm_startTime p;
     perm_endTime := perm_endTime p;
     perm_allowedContracts := perm_allowedContracts p;
     perm_status := s;
     perm_grantedAt := perm_grantedAt p;
     perm_transactionHash := perm_transactionHash p;
     perm_smartAccountPermissionId := perm_smartAccountPermissionId p |}.

(* ===================================================================== *)
(** ** services/permissions/PermissionManager *)
(* ===================================================================== *)

(** The two private maps of the class.  The persisted copy in
    [localStorage] is written by the operations below and read only by the
    constructor, so it is left out. *)
Record PermissionManager : Type := mkPM {
  permissions : gmap string ERC7715Permission;
  spendTracking : gmap string SpendTracking
}.

Definition emptyPM : PermissionManager :=
  {| permissions := ∅; spendTracking := ∅ |}.

(** What [SmartAccountService.createPermission] resolves to. *)
Record GrantResult : Type := mkGrant {
  grant_success : bool;
  grant_permissionId : option string;
  grant_error : option string
}.

(** The collaborators of one [createPermission] call. *)
Record CreateEnv : Type := mkCreateEnv {
  ce_connected : bool;            (* walletManager.isConnected() *)
  ce_permissionId : string;       (* generatePermissionId() *)
  ce_now : Z;                     (* new Date() for grantedAt *)
  ce_initialized : bool;          (* smartAccountService.isInitialized() *)
  ce_grant : outcome GrantResult; (* smartAccountService.createPermission *)
  ce_transactionHash : string     (* the simulated hash *)
}.

Module PM.

Definition validateWalletConnection (connected : bool) : outcome unit :=
  if negb connected then
    Throw (ErrorObj
      "Wallet not connected. Please connect your wallet to continue.")
  else Return tt.

Definition isHex (c : ascii) : bool :=
  let n := nat_of_ascii c in
  JS.isDigit c
  || ((97 <=? n)%nat && (n <=? 102)%nat)
  || ((65 <=? n)%nat && (n <=? 70)%nat).

Fixpoint allHex (s : string) : bool :=
  match s with
  | EmptyString => true
  | String c r => isHex c && allHex r
  end.

(** [/^0x[a-fA-F0-9]{40}$/.test(address)] *)
Definition isValidAddress (address : string) : bool :=
  match address with
  | String "0" (String "x" r) => (String.length r =? 40)%nat && allHex r
  | _ => false
  end.

Fixpoint firstInvalid (l : list string) : option string :=
  match l with
  | [] => None
  | a :: r => if isValidAddress a then firstInvalid r else Some a
  end.

Definition validatePermissionRequest (request : PermissionRequest)
  : outcome unit :=
  if String.eqb (req_tokenAddress request) ""
     || negb (isValidAddress (req_tokenAddress request))
  then Throw (ErrorObj "Invalid token address")
  else
    let amount := JS.parseFloat (req_maxSpendAmount request) in
    if JS.isNaN amount || JS.le amount (JS.ofZ 0)
    then Throw (ErrorObj "Invalid spend amount")
    else if (req_endTime request <=? req_startTime request)%Z
    then Throw (ErrorObj "End time must be after start time")
    else
      match req_allowedContracts request with
      | [] => Throw (ErrorObj "At least one contract address is required")
      | l =>
          match firstInvalid l with
          | Some address =>
              Throw (ErrorObj ("Invalid contract address: " ++ address))
          | None => Return tt
          end
      end.

(** [requestMetaMaskPermission]: the permission comes back with the smart
    account's identifier attached, together with the hash. *)
Definition requestMetaMaskPermission (env : CreateEnv)
    (permission : ERC7715Permission)
  : outcome (ERC7715Permission * string) :=
  if negb (ce_initialized env) then
    Throw (ErrorObj "Smart Account not initialized")
  else
    match ce_grant env with
    | Throw e => Throw e
    | Return result =>
        if negb (grant_success result) then
          Throw (ErrorObj
            (orElse (grant_error result) "Permission creation failed"))
        else
          Return
            ({| perm_id := perm_id permission;
                perm_tokenAddress := perm_tokenAddress permission;
                perm_maxSpendAmount := perm_maxSpendAmount permission;
                perm_startTime := perm_startTime permission;
                perm_endTime := perm_endTime permission;
                perm_allowedContracts := perm_allowedContracts permission;
                perm_status := perm_status permission;
                perm_grantedAt := perm_grantedAt permission;
                perm_transactionHash := perm_transactionHash permission;
                perm_smartAccountPermissionId :=
                  grant_permissionId result |},
             ce_transactionHash env)
    end.

Definition createPermission (env : CreateEnv) (request : PermissionRequest)
    (pm : PermissionManager)
  : outcome ERC7715Permission * PermissionManager :=
  match validateWalletConnection (ce_connected env) with
  | Throw e => (Throw e, pm)
  | Return _ =>
  match validatePermissionRequest request with
  | Throw e => (Throw e, pm)
  | Return _ =>
      let permissionId := ce_permissionId env in
      let permission :=
        {| perm_id := permissionId;
           perm_tokenAddress := req_tokenAddress request;
           perm_maxSpendAmount := req_maxSpendAmount request;
           perm_startTime := req_startTime request;
           perm_endTime := req_endTime request;
           perm_allowedContracts := req_allowedContracts request;
           perm_status := pending;
           perm_grantedAt := ce_now env;
           perm_transactionHash := None;
           perm_smartAccountPermissionId := None |} in
      match requestMetaMaskPermission env permission with
      | Return (granted, transactionHash) =>
          let permission' :=
            {| perm_id := perm_id granted;
               perm_tokenAddress := perm_tokenAddress granted;
               perm_maxSpendAmount := perm_maxSpendAmount granted;
               perm_startTime := perm_startTime granted;
               perm_endTime := perm_endTime granted;
               perm_allowedContracts := perm_allowedContracts granted;
               perm_status := active;
               perm_grantedAt := perm_grantedAt granted;
               perm_transactionHash := Some transactionHash;
               perm_smartAccountPermissionId :=
                 perm_smartAccountPermissionId granted |} in
          (Return permission',
           {| permissions := <[permissionId := permission']> (permissions pm);
              spendTracking :=
                <[permissionId :=
                    {| st_permissionId := permissionId;
                       st_totalSpent := JS.Lit "0";
                       st_remainingAllowance :=
                         JS.Lit (req_maxSpendAmount request);
                       st_spendEntries := [] |}]> (spendTracking pm) |})
      | Throw e =>
          (Throw (ErrorObj ("Permission creation failed: "
                            ++ messageOr "Unknown error" e)), pm)
      end
  end
  end.

(** [updatePermissionStatus(permission)] for the object found under [key]:
    the object is changed in place, which the entry under [key] sees, and
    it is stored again under its own [id]. *)
Definition updatePermissionStatus (now : Z) (key : string)
    (permission : ERC7715Permission) (pm : PermissionManager)
  : ERC7715Permission * PermissionManager :=
  match perm_status permission with
  | revoked => (permission, pm)
  | _ =>
      if (perm_endTime permission <? now)%Z then
        let permission' := set_status expired permission in
        (permission',
         {| permissions :=
              <[perm_id permission' := permission']>
                (<[key := permission']> (permissions pm));
            spendTracking := spendTracking pm |})
      else (permission, pm)
  end.

Definition getPermission (now : Z) (id : string) (pm : PermissionManager)
  : option ERC7715Permission * PermissionManager :=
  match permissions pm !! id with
  | Some permission =>
      let '(permission', pm') := updatePermissionStatus now id permission pm in
      (Some permission', pm')
  | None => (None, pm)
  end.

(** [getPermissions(status?)]: every stored permission goes through
    [updatePermissionStatus] before the filter. *)
Definition getPermissions (now : Z) (status : option PermissionStatus)
    (pm : PermissionManager)
  : list ERC7715Permission * PermissionManager :=
  let step (acc : list ERC7715Permission * PermissionManager)
           (kp : string * ERC7715Permission) :=
    let '(p', pm') := updatePermissionStatus now (fst kp) (snd kp) (snd acc) in
    ((fst acc ++ [p'])%list, pm') in
  let '(all, pm') := fold_left step (map_to_list (permissions pm)) ([], pm) in
  match status with
  | Some s =>
      (List.filter (fun p => PermissionStatus_eqb (perm_status p) s) all, pm')
  | None => (all, pm')
  end.

Definition revokePermission (connected : bool) (id : string)
    (pm : PermissionManager) : outcome unit * PermissionManager :=
  match validateWalletConnection connected with
  | Throw e => (Throw e, pm)
  | Return _ =>
      match permissions pm !! id with
      | None => (Throw (ErrorObj "Permission not found"), pm)
      | Some permission =>
          if negb (PermissionStatus_eqb (perm_status permission) active) then
            (Throw (ErrorObj "Can only revoke active permissions"), pm)
          else
            (Return tt,
             {| permissions :=
                  <[id := set_status revoked permission]> (permissions pm);
                spendTracking := spendTracking pm |})
      end
  end.

(** [addr.toLowerCase() === contractAddress.toLowerCase()] for some
    [addr] of the list. *)
Definition isContractAllowed (allowed : list string) (contractAddress : string)
  : bool :=
  existsb (fun addr =>
             String.eqb (JS.toLowerCase addr) (JS.toLowerCase contractAddress))
          allowed.

(** The spend check, entered only when the ledger exists. *)
Definition spendLimitExceeded (tracking : SpendTracking) (amount : string)
    (permission : ERC7715Permission) : bool :=
  let totalAfterSpend :=
    JS.add (JS.parseFloatS (st_totalSpent tracking)) (JS.parseFloat amount) in
  JS.gt totalAfterSpend (JS.parseFloat (perm_maxSpendAmount permission)).

(** [validateAction]; [now1] is the clock read by [getPermission] and
    [now2] the one read for the time window. *)
Definition validateAction (now1 now2 : Z)
    (permissionId tokenAddress amount contractAddress : string)
    (pm : PermissionManager) : bool * PermissionManager :=
  let '(found, pm') := getPermission now1 permissionId pm in
  match found with
  | None => (false, pm')
  | Some permission =>
      if negb (PermissionStatus_eqb (perm_status permission) active) then
        (false, pm')
      else if negb (String.eqb (JS.toLowerCase (perm_tokenAddress permission))
                               (JS.toLowerCase tokenAddress)) then
        (false, pm')
      else if negb (isContractAllowed (perm_allowedContracts permission)
                                      contractAddress) then
        (false, pm')
      else if match spendTracking pm' !! permissionId with
              | Some tracking => spendLimitExceeded tracking amount permission
              | None => false
              end then
        (false, pm')
      else if (now2 <? perm_startTime permission)%Z
              || (perm_endTime permission <? now2)%Z then
        (false, pm')
      else (true, pm')
  end.

Definition recordSpend (now : Z) (permissionId amount transactionHash : string)
    (pm : PermissionManager) : outcome unit * PermissionManager :=
  match spendTracking pm !! permissionId with
  | None => (Throw (ErrorObj "Spend tracking not found for permission"), pm)
  | Some tracking =>
      let newTotalSpent :=
        JS.numToString (JS.add (JS.parseFloatS (st_totalSpent tracking))
                               (JS.parseFloat amount)) in
      let newRemainingAllowance :=
        JS.numToString (JS.sub (JS.parseFloatS (st_remainingAllowance tracking))
                               (JS.parseFloat amount)) in
      let tracking' :=
        {| st_permissionId := st_permissionId tracking;
           st_totalSpent := newTotalSpent;
           st_remainingAllowance := newRemainingAllowance;
           st_spendEntries :=
             (st_spendEntries tracking ++
              [ {| se_timestamp := now;
                   se_amount := amount;
                   se_transactionHash := transactionHash;
                   se_remainingAfter := newRemainingAllowance |} ])%list |} in
      (Return tt,
       {| permissions := permissions pm;
          spendTracking := <[permissionId := tracking']> (spendTracking pm) |})
  end.

Definition getSpendTracking (permissionId : string) (pm : PermissionManager)
  : option SpendTracking :=
  spendTracking pm !! permissionId.

End PM.

(* ===================================================================== *)
(** ** services/agent/AgentExecutor: data *)
(* ===================================================================== *)

Inductive ScheduleType : Type := once | recurring.

Inductive Frequency : Type := minutely | hourly | daily | weekly | monthly.

Record AgentSchedule : Type := mkSchedule {
  sch_type : ScheduleType;
  sch_frequency : option Frequency;
  sch_interval : option Z;
  sch_nextExecution : option Z;
  sch_isActive : bool
}.

Record AgentIntent : Type := mkIntent {
  description : string;
  tokenAddress : string;
  amount : string;
  contractAddress : string;
  permissionId : string;
  schedule : option AgentSchedule
}.

Record AgentDecision : Type := mkDecision {
  shouldExecute : bool;
  reasoning : string;
  confidence : JS.jsnum;
  riskAssessment : string
}.

Inductive ExecutionStatus : Type := Pending | Executed | Failed | Blocked.

Record AgentExecution : Type := mkExecution {
  ex_id : string;
  ex_intent : AgentIntent;
  ex_decision : AgentDecision;
  ex_status : ExecutionStatus;
  ex_transactionHash : option string;
  ex_timestamp : Z;
  ex_explanation : string;
  ex_gasUsed : option string;
  ex_error : option string
}.

Inductive Congestion : Type := low | medium | high.

Record MarketContext : Type := mkMarket {
  gasPrice : string;
  tokenPrice : string;
  networkCongestion : Congestion;
  mc_timestamp : Z
}.

(* ===================================================================== *)
(** ** AgentExecutor: schedule parsing *)
(* ===================================================================== *)

Module Schedule.

(** *** Calendar arithmetic for [Date.setMonth]

    Days are counted from 1970-01-01 in the proleptic Gregorian calendar.
    The source works in the host's local time; here the zone is UTC. *)

Definition daysFromCivil (y m d : Z) : Z :=
  let y' := if (m <=? 2)%Z then (y - 1)%Z else y in
  let era := (y' / 400)%Z in
  let yoe := (y' - era * 400)%Z in
  let mp := ((m + 9) mod 12)%Z in
  let doy := ((153 * mp + 2) / 5 + d - 1)%Z in
  let doe := (yoe * 365 + yoe / 4 - yoe / 100 + doy)%Z in
  (era * 146097 + doe - 719468)%Z.

Definition civilFromDays (z : Z) : Z * Z * Z :=
  let z' := (z + 719468)%Z in
  let era := (z' / 146097)%Z in
  let doe := (z' - era * 146097)%Z in
  let yoe := ((doe - doe / 1460 + doe / 36524 - doe / 146096) / 365)%Z in
  let doy := (doe - (365 * yoe + yoe / 4 - yoe / 100))%Z in
  let mp := ((5 * doy + 2) / 153)%Z in
  let d := (doy - (153 * mp + 2) / 5 + 1)%Z in
  let m := if (mp <? 10)%Z then (mp + 3)%Z else (mp - 9)%Z in
  let y := (yoe + era * 400)%Z in
  ((if (m <=? 2)%Z then y + 1 else y)%Z, m, d).

Definition msPerDay : Z := 86400000.

(** [d.setMonth(d.getMonth() + interval)]: the month index overflows into
    the year and the day of the month into the following month. *)
Definition addMonths (t interval : Z) : Z :=
  let day := (t / msPerDay)%Z in
  let timeInDay := (t mod msPerDay)%Z in
  let '(y, m, d) := civilFromDays day in
  let mi := (m - 1 + interval)%Z in
  let y2 := (y + mi / 12)%Z in
  let m2 := (mi mod 12 + 1)%Z in
  ((daysFromCivil y2 m2 1 + (d - 1)) * msPerDay + timeInDay)%Z.

(** [calculateNextExecution(frequency, interval)] with [now = new Date()]. *)
Definition calculateNextExecution (now : Z) (frequency : Frequency)
    (interval : Z) : Z :=
  match frequency with
  | minutely => (now + interval * 60 * 1000)%Z
  | hourly => (now + interval * 60 * 60 * 1000)%Z
  | daily => (now + interval * 24 * 60 * 60 * 1000)%Z
  | weekly => (now + interval * 7 * 24 * 60 * 60 * 1000)%Z
  | monthly => addMonths now interval
  end.

(** *** The pattern [/every (\d+) (minute|hour|day|week|month)s?/] *)

Inductive Unit : Type := minute | hour | day | week | month.

(** Longest run of digits at the head of [s], and what follows it. *)
Fixpoint digitRun (s : string) : string * string :=
  match s with
  | String c r =>
      if JS.isDigit c then
        let '(ds, rest) := digitRun r in (String c ds, rest)
      else (EmptyString, s)
  | EmptyString => (EmptyString, s)
  end.

(** The alternation [(minute|hour|day|week|month)] at the head of [s]. *)
Definition unitAt (s : string) : option Unit :=
  if JS.startsWith "minute" s then Some minute
  else if JS.startsWith "hour" s then Some hour
  else if JS.startsWith "day" s then Some day
  else if JS.startsWith "week" s then Some week
  else if JS.startsWith "month" s then Some month
  else None.

(** An attempt of the pattern at the head of [s]: the two capture
    groups.  The trailing [s?] never decides the attempt. *)
Definition matchHere (s : string) : option (string * Unit) :=
  if JS.startsWith "every " s then
    let '(ds, rest) := digitRun (JS.skip 6 s) in
    match ds, rest with
    | String _ _, String " " r =>
        match unitAt r with
        | Some u => Some (ds, u)
        | None => None
        end
    | _, _ => None
    end
  else None.

(** [s.match(/.../)]: the leftmost position where an attempt succeeds. *)
Fixpoint intervalMatch (s : string) : option (string * Unit) :=
  match matchHere s with
  | Some r => Some r
  | None =>
      match s with
      | String _ r => intervalMatch r
      | EmptyString => None
      end
  end.

Definition frequencyOf (u : Unit) : Frequency :=
  match u with
  | minute => minutely
  | hour => hourly
  | day => daily
  | week => weekly
  | month => monthly
  end.

Definition recurringSchedule (now : Z) (f : Frequency) (interval : Z)
  : AgentSchedule :=
  {| sch_type := recurring;
     sch_frequency := Some f;
     sch_interval := Some interval;
     sch_nextExecution := Some (calculateNextExecution now f interval);
     sch_isActive := true |}.

Definition onceSchedule : AgentSchedule :=
  {| sch_type := once;
     sch_frequency := None;
     sch_interval := None;
     sch_nextExecution := None;
     sch_isActive := false |}.

(** [parseScheduleFromDescription(description)] with [now = new Date()]. *)
Definition parseScheduleFromDescription (now : Z) (description : string)
  : AgentSchedule :=
  let lowerDesc := JS.toLowerCase description in
  if JS.includes lowerDesc "every minute" || JS.includes lowerDesc "per minute"
  then recurringSchedule now minutely 1
  else if JS.includes lowerDesc "daily" || JS.includes lowerDesc "every day"
  then recurringSchedule now daily 1
  else if JS.includes lowerDesc "weekly" || JS.includes lowerDesc "every week"
  then recurringSchedule now weekly 1
  else if JS.includes lowerDesc "hourly" || JS.includes lowerDesc "every hour"
  then recurringSchedule now hourly 1
  else if JS.includes lowerDesc "monthly" || JS.includes lowerDesc "every month"
  then recurringSchedule now monthly 1
  else
    match intervalMatch lowerDesc with
    | Some (ds, u) => recurringSchedule now (frequencyOf u) (JS.parseInt ds)
    | None => onceSchedule
    end.

End Schedule.

(* ===================================================================== *)
(** ** AgentExecutor: the rule-based decision *)
(* ===================================================================== *)

Definition fallbackDecisionMaking (intent : AgentIntent)
    (context : MarketContext) : AgentDecision :=
  let gasPrice := JS.parseFloat (gasPrice context) in
  let amount := JS.parseFloat (amount intent) in
  let d0 :=
    {| shouldExecute := true;
       reasoning := "Conditions are favorable for execution";
       confidence := JS.ofZ 80;
       riskAssessment := "low" |} in
  let d1 :=
    if JS.gt gasPrice (JS.ofZ 50) then
      {| shouldExecute := false;
         reasoning := "Gas price too high for efficient execution";
         confidence := JS.ofZ 90;
         riskAssessment := "high - expensive gas fees" |}
    else d0 in
  let d2 :=
    if JS.gt amount (JS.ofZ 100) then
      {| shouldExecute := shouldExecute d1;
         reasoning := reasoning d1;
         confidence := JS.max (JS.sub (confidence d1) (JS.ofZ 20)) (JS.ofZ 50);
         riskAssessment := "medium - large transaction amount" |}
    else d1 in
  match networkCongestion context with
  | high =>
      {| shouldExecute := false;
         reasoning :=
           "Network congestion too high, transaction may fail or be expensive";
         confidence := JS.ofZ 85;
         riskAssessment := "high - network congestion" |}
  | _ => d2
  end.

(* ===================================================================== *)
(** ** services/blockchain/TransactionService *)
(* ===================================================================== *)

(** What [SmartAccountService.executeWithPermission] resolves to.  The
    hash is read with a non-null assertion, so it is a plain string. *)
Record ExecuteResult : Type := mkExecuteResult {
  er_success : bool;
  er_txHash : string;
  er_error : option string
}.

Inductive TransactionStatus : Type := tx_pending | tx_confirmed | tx_failed.

Record TransactionResult : Type := mkTxResult {
  tr_hash : string;
  tr_status : TransactionStatus;
  tr_gasUsed : option string;
  tr_isGasless : option bool
}.

Module TransactionService.

(** [executeTransaction(request)]; the request built by
    [createETHTransfer(to, "0.001", permissionId)] always converts. *)
Definition executeTransaction (initialized : bool)
    (executeWithPermission : outcome ExecuteResult)
  : outcome TransactionResult :=
  if negb initialized then Throw (ErrorObj "Smart Account not initialized")
  else
    let body :=
      match executeWithPermission with
      | Throw e => Throw e
      | Return result =>
          if negb (er_success result) then
            Throw (ErrorObj
              (orElse (er_error result) "Gasless transaction failed"))
          else
            Return {| tr_hash := er_txHash result;
                      tr_status := tx_confirmed;
                      tr_gasUsed := Some "0";
                      tr_isGasless := Some true |}
      end in
    match body with
    | Return r => Return r
    | Throw error =>
        Throw (ErrorObj ("Gasless transaction failed: "
                         ++ messageOr "Unknown error" error))
    end.

End TransactionService.

(* ===================================================================== *)
(** ** AgentExecutor: state and collaborators *)
(* ===================================================================== *)

(** The calls a run makes on its collaborators, in order.  This list is
    not a field of the source class: it records the run so that "is
    called once" and "is never reached" can be stated. *)
Inductive Call : Type :=
| CallValidateAction (permissionId tokenAddress amount contractAddress : string)
| CallGatherMarketContext
| CallQueryGaiaLLM
| CallExecuteWithPermission (to permissionId : string)
| CallRecordSpend (permissionId amount transactionHash : string).

Record AgentExecutor : Type := mkExecutor {
  permissionManager : PermissionManager;
  gaiaEndpoint : string;
  gaiaApiKey : string;
  executions : gmap string AgentExecution;
  activeSchedules : gmap string nat;      (* schedule id to timer handle *)
  scheduledIntents : gmap string AgentIntent;
  timers : list (string * Z);             (* armed timers: schedule, delay *)
  calls : list Call
}.

(** Everything one run of the pipeline obtains from outside. *)
Record RunEnv : Type := mkRunEnv {
  connected : bool;                 (* walletManager.isConnected() *)
  executionId : string;             (* generateExecutionId() *)
  scheduleId : string;              (* the id made for a new schedule *)
  now_parse : Z;                    (* clock, calculateNextExecution *)
  now_stamp : Z;                    (* clock, execution.timestamp *)
  now_arm : Z;                      (* clock, scheduleRecurringIntent *)
  now_expiry : Z;                   (* clock, getPermission in validateAction *)
  now_window : Z;                   (* clock, window check of validateAction *)
  now_llm : Z;                      (* clock, getPermission in queryGaiaLLM *)
  now_exec : Z;                     (* clock, getPermission in executeTransaction *)
  now_list : Z;                     (* clock, getPermissions in executeTransaction *)
  now_spend : Z;                    (* clock, recordSpend *)
  market : outcome MarketContext;   (* gatherMarketContext() *)
  provider : outcome AgentDecision; (* the request to the reasoning provider *)
  saInitialized : bool;             (* smartAccountService.isInitialized() *)
  saHasPermission : string -> bool; (* smartAccountService.getPermission(id) *)
  execute : outcome ExecuteResult   (* smartAccountService.executeWithPermission *)
}.

Definition setPM (pm : PermissionManager) (a : AgentExecutor) : AgentExecutor :=
  {| permissionManager := pm;
     gaiaEndpoint := gaiaEndpoint a;
     gaiaApiKey := gaiaApiKey a;
     executions := executions a;
     activeSchedules := activeSchedules a;
     scheduledIntents := scheduledIntents a;
     timers := timers a;
     calls := calls a |}.

Definition setExecution (id : string) (e : AgentExecution) (a : AgentExecutor)
  : AgentExecutor :=
  {| permissionManager := permissionManager a;
     gaiaEndpoint := gaiaEndpoint a;
     gaiaApiKey := gaiaApiKey a;
     executions := <[id := e]> (executions a);
     activeSchedules := activeSchedules a;
     scheduledIntents := scheduledIntents a;
     timers := timers a;
     calls := calls a |}.

Definition logCall (c : Call) (a : AgentExecutor) : AgentExecutor :=
  {| permissionManager := permissionManager a;
     gaiaEndpoint := gaiaEndpoint a;
     gaiaApiKey := gaiaApiKey a;
     executions := executions a;
     activeSchedules := activeSchedules a;
     scheduledIntents := scheduledIntents a;
     timers := timers a;
     calls := (calls a ++ [c])%list |}.

Definition setSchedule (s : AgentSchedule) (i : AgentIntent) : AgentIntent :=
  {| description := description i;
     tokenAddress := tokenAddress i;
     amount := amount i;
     contractAddress := contractAddress i;
     permissionId := permissionId i;
     schedule := Some s |}.

Definition setStatus (s : ExecutionStatus) (e : AgentExecution) : AgentExecution :=
  {| ex_id := ex_id e; ex_intent := ex_intent e; ex_decision := ex_decision e;
     ex_status := s; ex_transactionHash := ex_transactionHash e;
     ex_timestamp := ex_timestamp e; ex_explanation := ex_explanation e;
     ex_gasUsed := ex_gasUsed e; ex_error := ex_error e |}.

Definition setExplanation (s : string) (e : AgentExecution) : AgentExecution :=
  {| ex_id := ex_id e; ex_intent := ex_intent e; ex_decision := ex_decision e;
     ex_status := ex_status e; ex_transactionHash := ex_transactionHash e;
     ex_timestamp := ex_timestamp e; ex_explanation := s;
     ex_gasUsed := ex_gasUsed e; ex_error := ex_error e |}.

Definition setError (s : string) (e : AgentExecution) : AgentExecution :=
  {| ex_id := ex_id e; ex_intent := ex_intent e; ex_decision := ex_decision e;
     ex_status := ex_status e; ex_transactionHash := ex_transactionHash e;
     ex_timestamp := ex_timestamp e; ex_explanation := ex_explanation e;
     ex_gasUsed := ex_gasUsed e; ex_error := Some s |}.

Definition setDecision (d : AgentDecision) (e : AgentExecution) : AgentExecution :=
  {| ex_id := ex_id e; ex_intent := ex_intent e; ex_decision := d;
     ex_status := ex_status e; ex_transactionHash := ex_transactionHash e;
     ex_timestamp := ex_timestamp e; ex_explanation := ex_explanation e;
     ex_gasUsed := ex_gasUsed e; ex_error := ex_error e |}.

Definition setReasoning (s : string) (d : AgentDecision) : AgentDecision :=
  {| shouldExecute := shouldExecute d; reasoning := s;
     confidence := confidence d; riskAssessment := riskAssessment d |}.

Definition setTransaction (hash gas : string) (e : AgentExecution)
  : AgentExecution :=
  {| ex_id := ex_id e; ex_intent := ex_intent e; ex_decision := ex_decision e;
     ex_status := ex_status e; ex_transactionHash := Some hash;
     ex_timestamp := ex_timestamp e; ex_explanation := ex_explanation e;
     ex_gasUsed := Some gas; ex_error := ex_error e |}.

Definition frequencyName (f : Frequency) : string :=
  match f with
  | minutely => "minutely"
  | hourly => "hourly"
  | daily => "daily"
  | weekly => "weekly"
  | monthly => "monthly"
  end.

(* ===================================================================== *)
(** ** AgentExecutor: the pipeline *)
(* ===================================================================== *)

Module Agent.

(** [scheduleRecurringIntent(intent)]: the intent is registered under a
    fresh id and a single-shot timer is armed; the timer is remembered in
    [activeSchedules] only when its delay is positive. *)
Definition scheduleRecurringIntent (env : RunEnv) (intent : AgentIntent)
    (a : AgentExecutor) : AgentExecutor :=
  match schedule intent with
  | Some s =>
      match sch_type s, sch_frequency s with
      | recurring, Some _ =>
          let timeUntilNext :=
            match sch_nextExecution s with
            | Some t => (t - now_arm env)%Z
            | None => 0%Z
            end in
          let registered := <[scheduleId env := intent]> (scheduledIntents a) in
          if (0 <? timeUntilNext)%Z then
            {| permissionManager := permissionManager a;
               gaiaEndpoint := gaiaEndpoint a;
               gaiaApiKey := gaiaApiKey a;
               executions := executions a;
               activeSchedules :=
                 <[scheduleId env := List.length (timers a)]> (activeSchedules a);
               scheduledIntents := registered;
               timers := (timers a ++ [(scheduleId env, timeUntilNext)])%list;
               calls := calls a |}
          else
            {| permissionManager := permissionManager a;
               gaiaEndpoint := gaiaEndpoint a;
               gaiaApiKey := gaiaApiKey a;
               executions := executions a;
               activeSchedules := activeSchedules a;
               scheduledIntents := registered;
               timers := (timers a ++ [(scheduleId env, 1000%Z)])%list;
               calls := calls a |}
      | _, _ => a
      end
  | None => a
  end.

(** [gatherMarketContext()] *)
Definition gatherMarketContext (env : RunEnv) (a : AgentExecutor)
  : outcome MarketContext * AgentExecutor :=
  (market env, logCall CallGatherMarketContext a).

(** [queryGaiaLLM(intent, context)]: without endpoint or key, and whenever
    the request fails, the rule-based decision is returned. *)
Definition queryGaiaLLM (env : RunEnv) (intent : AgentIntent)
    (context : MarketContext) (a : AgentExecutor)
  : AgentDecision * AgentExecutor :=
  let a := logCall CallQueryGaiaLLM a in
  if String.eqb (gaiaEndpoint a) "" || String.eqb (gaiaApiKey a) "" then
    (fallbackDecisionMaking intent context, a)
  else
    let '(_, pm') :=
      PM.getPermission (now_llm env) (permissionId intent)
                       (permissionManager a) in
    let a := setPM pm' a in
    match provider env with
    | Return decision => (decision, a)
    | Throw _ => (fallbackDecisionMaking intent context, a)
    end.

(** The body of the [try] block of [executeTransaction], up to and
    including the call of the transaction service. *)
Definition sendTransaction (env : RunEnv) (execution : AgentExecution)
    (a : AgentExecutor) : outcome TransactionResult * AgentExecutor :=
  let pid := permissionId (ex_intent execution) in
  let '(found, pm1) := PM.getPermission (now_exec env) pid (permissionManager a) in
  let a := setPM pm1 a in
  match found with
  | None =>
      let '(_, pm2) := PM.getPermissions (now_list env) None (permissionManager a) in
      (Throw (ErrorObj ("Permission not found: " ++ pid)), setPM pm2 a)
  | Some permission =>
      if negb (saInitialized env) then
        (Throw (ErrorObj "Smart Account not initialized"), a)
      else
        let smartAccountPermissionId :=
          orElse (perm_smartAccountPermissionId permission) (perm_id permission) in
        let actualPermissionId :=
          if saHasPermission env smartAccountPermissionId
          then Some smartAccountPermissionId
          else if saHasPermission env (perm_id permission)
          then Some (perm_id permission)
          else None in
        match actualPermissionId with
        | None =>
            (Throw (ErrorObj ("Smart Account permission not found: "
                              ++ smartAccountPermissionId)), a)
        | Some actual =>
            (TransactionService.executeTransaction (saInitialized env)
               (execute env),
             logCall (CallExecuteWithPermission
                        (contractAddress (ex_intent execution)) actual) a)
        end
  end.

(** [executeTransaction(execution)]: the execution object is changed in
    place, and whatever is caught is thrown again. *)
Definition executeTransaction (env : RunEnv) (execution : AgentExecution)
    (a : AgentExecutor) : outcome unit * AgentExecution * AgentExecutor :=
  let fail (error : thrown) (execution : AgentExecution) (a : AgentExecutor) :=
    let msg := messageOr "Transaction failed" error in
    (Throw error,
     setExplanation ("Gasless transaction failed: " ++ msg)
       (setError msg (setStatus Failed execution)),
     a) in
  match sendTransaction env execution a with
  | (Throw error, a) => fail error execution a
  | (Return result, a) =>
      let execution :=
        setExplanation
          ("Successfully executed gasless transaction: "
           ++ reasoning (ex_decision execution))
          (setStatus Executed
             (setTransaction (tr_hash result)
                (orElse (tr_gasUsed result) "0") execution)) in
      let pid := permissionId (ex_intent execution) in
      let amt := amount (ex_intent execution) in
      let a := logCall (CallRecordSpend pid amt (tr_hash result)) a in
      match PM.recordSpend (now_spend env) pid amt (tr_hash result)
                           (permissionManager a) with
      | (Return _, pm') => (Return tt, execution, setPM pm' a)
      | (Throw error, pm') => fail error execution (setPM pm' a)
      end
  end.

(** [processIntent(intent)]: the public submission path. *)
Definition processIntent (env : RunEnv) (intent : AgentIntent)
    (a : AgentExecutor) : AgentExecution * AgentExecutor :=
  if negb (connected env) then
    let execution :=
      {| ex_id := executionId env;
         ex_intent := intent;
         ex_decision :=
           {| shouldExecute := false; reasoning := "Wallet not connected";
              confidence := JS.ofZ 0; riskAssessment := "high" |};
         ex_status := Failed;
         ex_transactionHash := None;
         ex_timestamp := now_stamp env;
         ex_explanation :=
           "Cannot execute: Wallet not connected. Please connect your wallet first.";
         ex_gasUsed := None;
         ex_error := Some "Wallet not connected" |} in
    (execution, setExecution (ex_id execution) execution a)
  else
    let executionId := executionId env in
    let schedule :=
      Schedule.parseScheduleFromDescription (now_parse env) (description intent) in
    let intent := setSchedule schedule intent in
    let execution :=
      {| ex_id := executionId;
         ex_intent := intent;
         ex_decision :=
           {| shouldExecute := false; reasoning := "";
              confidence := JS.ofZ 0; riskAssessment := "" |};
         ex_status := Pending;
         ex_transactionHash := None;
         ex_timestamp := now_stamp env;
         ex_explanation := "";
         ex_gasUsed := None;
         ex_error := None |} in
    let catch (error : thrown) (execution : AgentExecution) (a : AgentExecutor) :=
      let msg := messageOr "Unknown error" error in
      let execution :=
        setExplanation ("Execution failed: " ++ msg)
          (setError msg (setStatus Failed execution)) in
      (execution, setExecution executionId execution a) in
    let '(execution, a) :=
      match sch_type schedule, sch_frequency schedule with
      | recurring, Some f =>
          (setExplanation
             ("Scheduled to run " ++ frequencyName f
              ++ ". First execution will be evaluated now.") execution,
           scheduleRecurringIntent env intent a)
      | _, _ => (execution, a)
      end in
    let a := logCall (CallValidateAction (permissionId intent)
                        (tokenAddress intent) (amount intent)
                        (contractAddress intent)) a in
    let '(isWithinBounds, pm') :=
      PM.validateAction (now_expiry env) (now_window env)
        (permissionId intent) (tokenAddress intent) (amount intent)
        (contractAddress intent) (permissionManager a) in
    let a := setPM pm' a in
    if negb isWithinBounds then
      let execution :=
        setDecision
          (setReasoning
             "The requested action would violate one or more permission constraints (spend limit, time window, or contract restrictions)"
             (ex_decision execution))
          (setExplanation "Action blocked: Exceeds permission boundaries"
             (setStatus Blocked execution)) in
      (execution, setExecution executionId execution a)
    else
      match gatherMarketContext env a with
      | (Throw error, a) => catch error execution a
      | (Return marketContext, a) =>
          let '(decision, a) := queryGaiaLLM env intent marketContext a in
          let execution := setDecision decision execution in
          if shouldExecute decision then
            match executeTransaction env execution a with
            | (Throw error, execution, a) => catch error execution a
            | (Return _, execution, a) =>
                (execution, setExecution executionId execution a)
            end
          else
            let execution :=
              setExplanation
                ("Agent declined to execute: " ++ reasoning decision)
                (setStatus Blocked execution) in
            (execution, setExecution executionId execution a)
      end.

(** [executeIntentDirectly(intent)]: what a timer calls when it fires. *)
Definition executeIntentDirectly (env : RunEnv) (intent : AgentIntent)
    (a : AgentExecutor) : AgentExecution * AgentExecutor :=
  if negb (connected env) then
    let execution :=
      {| ex_id := executionId env;
         ex_intent := intent;
         ex_decision :=
           {| shouldExecute := false; reasoning := "Wallet not connected";
              confidence := JS.ofZ 0; riskAssessment := "high" |};
         ex_status := Failed;
         ex_transactionHash := None;
         ex_timestamp := now_stamp env;
         ex_explanation :=
           "Cannot execute scheduled intent: Wallet not connected.";
         ex_gasUsed := None;
         ex_error := Some "Wallet not connected" |} in
    (execution, setExecution (ex_id execution) execution a)
  else
    let executionId := executionId env in
    let execution :=
      {| ex_id := executionId;
         ex_intent := intent;
         ex_decision :=
           {| shouldExecute := false; reasoning := "";
              confidence := JS.ofZ 0; riskAssessment := "" |};
         ex_status := Pending;
         ex_transactionHash := None;
         ex_timestamp := now_stamp env;
         ex_explanation := "";
         ex_gasUsed := None;
         ex_error := None |} in
    let catch (error : thrown) (execution : AgentExecution) (a : AgentExecutor) :=
      let msg := messageOr "Unknown error" error in
      let execution :=
        setExplanation ("Execution failed: " ++ msg)
          (setError msg (setStatus Failed execution)) in
      (execution, setExecution executionId execution a) in
    let a := logCall (CallValidateAction (permissionId intent)
                        (tokenAddress intent) (amount intent)
                        (contractAddress intent)) a in
    let '(isWithinBounds, pm') :=
      PM.validateAction (now_expiry env) (now_window env)
        (permissionId intent) (tokenAddress intent) (amount intent)
        (contractAddress intent) (permissionManager a) in
    let a := setPM pm' a in
    if negb isWithinBounds then
      let execution :=
        setDecision
          (setReasoning
             "The requested action would violate one or more permission constraints (spend limit, time window, or contract restrictions)"
             (ex_decision execution))
          (setExplanation "Action blocked: Exceeds permission boundaries"
             (setStatus Blocked execution)) in
      (execution, setExecution executionId execution a)
    else
      match gatherMarketContext env a with
      | (Throw error, a) => catch error execution a
      | (Return marketContext, a) =>
          let '(decision, a) := queryGaiaLLM env intent marketContext a in
          let execution := setDecision decision execution in
          if shouldExecute decision then
            match executeTransaction env execution a with
            | (Throw error, execution, a) => catch error execution a
            | (Return _, execution, a) =>
                (execution, setExecution executionId execution a)
            end
          else
            let execution :=
              setExplanation
                ("Agent declined to execute: " ++ reasoning decision)
                (setStatus Blocked execution) in
            (execution, setExecution executionId execution a)
      end.

End Agent.

(* ===================================================================== *)
(** ** AgentExecutor: the schedule registry *)
(* ===================================================================== *)

Module Registry.

(** The two maps of the registry: [activeSchedules] (schedule id to timer
    handle) and [scheduledIntents] (schedule id to intent). *)
Definition schedules : Type := gmap string nat * gmap string AgentIntent.

Definition schedulesOf (a : AgentExecutor) : schedules :=
  (activeSchedules a, scheduledIntents a).

(** [stopSchedule(intentId)] on the two maps: the boolean it returns, the
    timer handle it hands to [clearTimeout] (a handle is an object or a
    positive number, so the test [if (timeout)] is the test for presence),
    and the maps afterwards.  Before the intent is dropped the flag
    [schedule.isActive = false] is written on the intent object; that
    object is no longer in the registry afterwards, and what other holders
    of it see is not part of this result. *)
Definition stopSchedule (intentId : string) (s : schedules)
  : bool * option nat * schedules :=
  let timeout := fst s !! intentId in
  let active' :=
    match timeout with
    | Some _ => delete intentId (fst s)
    | None => fst s
    end in
  match snd s !! intentId with
  | Some _ => (true, timeout, (active', delete intentId (snd s)))
  | None => (false, timeout, (active', snd s))
  end.

(** [stopAllSchedules()]: the handles it hands to [clearTimeout], and the
    executor with both maps cleared. *)
Definition stopAllSchedules (a : AgentExecutor) : list nat * AgentExecutor :=
  ((map_to_list (activeSchedules a)).*2,
   {| permissionManager := permissionManager a;
      gaiaEndpoint := gaiaEndpoint a;
      gaiaApiKey := gaiaApiKey a;
      executions := executions a;
      activeSchedules := ∅;
      scheduledIntents := ∅;
      timers := timers a;
      calls := calls a |}).

(** [emergencyCleanup()] *)
Definition emergencyCleanup (a : AgentExecutor) : list nat * AgentExecutor :=
  let '(cleared, a) := stopAllSchedules a in
  (cleared,
   {| permissionManager := permissionManager a;
      gaiaEndpoint := gaiaEndpoint a;
      gaiaApiKey := gaiaApiKey a;
      executions := ∅;
      activeSchedules := activeSchedules a;
      scheduledIntents := scheduledIntents a;
      timers := timers a;
      calls := calls a |}).

(** [getExecution(id)] *)
Definition getExecution (id : string) (a : AgentExecutor)
  : option AgentExecution :=
  executions a !! id.

(** [intent.schedule?.isActive] *)
Definition isActiveFlag (intent : AgentIntent) : bool :=
  match schedule intent with
  | Some s => sch_isActive s
  | None => false
  end.

(** [!permission || permission.status !== 'active'] *)
Definition notActive (permission : option ERC7715Permission) : bool :=
  match permission with
  | Some p => negb (PermissionStatus_eqb (perm_status p) active)
  | None => true
  end.

(** [intent.schedule?.nextExecution || new Date()] *)
Definition nextExecutionOr (now : Z) (intent : AgentIntent) : Z :=
  match schedule intent with
  | Some s =>
      match sch_nextExecution s with
      | Some t => t
      | None => now
      end
  | None => now
  end.

(** Both functions below walk over [Array.from(this.scheduledIntents
    .entries())], the entries in the order in which the schedules were
    registered.  The map of the embedding does not keep that order, so the
    walk takes the array as [entries]; [clock id] is the time at which the
    permission of the entry [id] is read. *)

(** The filter of [getActiveSchedules]: the entries it lets through, and
    the manager and the two maps after the reads and the stops it makes on
    the way. *)
Fixpoint filterActive (clock : string -> Z)
    (entries : list (string * AgentIntent)) (pm : PermissionManager)
    (s : schedules)
  : list (string * AgentIntent) * PermissionManager * schedules :=
  match entries with
  | [] => ([], pm, s)
  | (id, intent) :: rest =>
      if negb (isActiveFlag intent) then filterActive clock rest pm s
      else
        let '(permission, pm) :=
          PM.getPermission (clock id) (permissionId intent) pm in
        if notActive permission then
          filterActive clock rest pm (snd (stopSchedule id s))
        else
          let '(kept, pm', s') := filterActive clock rest pm s in
          ((id, intent) :: kept, pm', s')
  end.

(** [getActiveSchedules()] with [now = new Date()] for an entry without a
    next execution time. *)
Definition getActiveSchedules (clock : string -> Z) (now : Z)
    (entries : list (string * AgentIntent)) (a : AgentExecutor)
  : list (string * AgentIntent * Z) * PermissionManager * schedules :=
  let '(kept, pm', s') :=
    filterActive clock entries (permissionManager a) (schedulesOf a) in
  (List.map (fun e => (fst e, snd e, nextExecutionOr now (snd e))) kept,
   pm', s').

(** The first loop of [cleanupInvalidSchedules]: the ids it collects in
    [schedulesToRemove], and the manager after the reads. *)
Fixpoint markInvalid (clock : string -> Z)
    (entries : list (string * AgentIntent)) (pm : PermissionManager)
  : list string * PermissionManager :=
  match entries with
  | [] => ([], pm)
  | (id, intent) :: rest =>
      let '(permission, pm) :=
        PM.getPermission (clock id) (permissionId intent) pm in
      let '(schedulesToRemove, pm') := markInvalid clock rest pm in
      if notActive permission then (id :: schedulesToRemove, pm')
      else (schedulesToRemove, pm')
  end.

(** [schedulesToRemove.forEach(id => this.stopSchedule(id))] *)
Definition stopEach (ids : list string) (s : schedules) : schedules :=
  fold_left (fun s id => snd (stopSchedule id s)) ids s.

(** [cleanupInvalidSchedules()] *)
Definition cleanupInvalidSchedules (clock : string -> Z)
    (entries : list (string * AgentIntent)) (a : AgentExecutor)
  : PermissionManager * schedules :=
  let '(schedulesToRemove, pm') :=
    markInvalid clock entries (permissionManager a) in
  (pm', stopEach schedulesToRemove (schedulesOf a)).

End Registry.

(* ===================================================================== *)
(** * Vocabulary of the statements *)
(* ===================================================================== *)

(** ** Substrings *)


(** ** The rule-based decision (C5) *)

(** The decision as a table of the three tests. *)
Definition fallbackTable (gasHigh amountLarge : bool) (c : Congestion)
  : AgentDecision :=
  match c with
  | high =>
      mkDecision false
        "Network congestion too high, transaction may fail or be expensive"
        (JS.ofZ 85) "high - network congestion"
  | _ =>
      match gasHigh, amountLarge with
      | true, true =>
          mkDecision false "Gas price too high for efficient execution"
            (JS.ofZ 70) "medium - large transaction amount"
      | true, false =>
          mkDecision false "Gas price too high for efficient execution"
            (JS.ofZ 90) "high - expensive gas fees"
      | false, true =>
          mkDecision true "Conditions are favorable for execution"
            (JS.ofZ 60) "medium - large transaction amount"
      | false, false =>
          mkDecision true "Conditions are favorable for execution"
            (JS.ofZ 80) "low"
      end
  end.

(** The second sentence of C5 as written: whatever the rest of the
    context, a gas price of 60 gives a refusal whose reasoning mentions
    the gas price. *)
Definition gas60_claim (intent : AgentIntent) (context : MarketContext) : Prop :=
  gasPrice context = "60" ->
  shouldExecute (fallbackDecisionMaking intent context) = false
  /\ JS.includes (reasoning (fallbackDecisionMaking intent context))
                 "Gas price too high" = true.

(** ** Schedule parsing (C8) *)







(** ** Fixtures *)

Definition tokenA : string := "0x1111111111111111111111111111111111111111".
Definition tokenMixed : string := "0xABCDEF1111111111111111111111111111111111".
Definition tokenLower : string := "0xabcdef1111111111111111111111111111111111".
Definition contractA : string := "0x2222222222222222222222222222222222222222".

Definition request100 (token : string) : PermissionRequest :=
  mkRequest token "100" 0 1000 [contractA].

Definition grantOk : CreateEnv :=
  mkCreateEnv true "perm_1" 0 true
    (Return (mkGrant true (Some "perm_1") None)) "0xhash".

(** A permission for 100 units of [tokenA] towards [contractA], valid over
    the window [0, 1000], as [createPermission] stores it. *)
Definition perm1 : ERC7715Permission :=
  mkPermission "perm_1" tokenA "100" 0 1000 [contractA] active 0
    (Some "0xhash") (Some "perm_1").

Definition ledger1 : SpendTracking :=
  mkSpendTracking "perm_1" (JS.Lit "0") (JS.Lit "100") [].

Definition pm1 : PermissionManager :=
  mkPM {[ "perm_1" := perm1 ]} {[ "perm_1" := ledger1 ]}.

(** The same permission without its ledger. *)
Definition pmNoLedger : PermissionManager :=
  mkPM {[ "perm_1" := perm1 ]} ∅.

(** ** Lazy expiry and the reads of a permission *)

(** The status after [updatePermissionStatus]: revoked is kept, and any
    other status becomes expired once [now > endTime]. *)
Definition lazyStatus (now : Z) (permission : ERC7715Permission)
  : PermissionStatus :=
  match perm_status permission with
  | revoked => revoked
  | s => if (perm_endTime permission <? now)%Z then expired else s
  end.

(** Whether [updatePermissionStatus] writes: the permission is not revoked
    and its end time has passed. *)
Definition lapses (now : Z) (p : ERC7715Permission) : bool :=
  negb (PermissionStatus_eqb (perm_status p) revoked)
  && (perm_endTime p <? now)%Z.

(** ** validateAction: what it returns (C2) and what it changes (C7) *)

(** The value of [validateAction] as one boolean expression over the
    stored state. *)
Definition withinBounds (now1 now2 : Z) (token amt contract : string)
    (p : ERC7715Permission) (ledger : option SpendTracking) : bool :=
  PermissionStatus_eqb (lazyStatus now1 p) active
  && String.eqb (JS.toLowerCase (perm_tokenAddress p)) (JS.toLowerCase token)
  && PM.isContractAllowed (perm_allowedContracts p) contract
  && negb match ledger with
          | Some t => PM.spendLimitExceeded t amt p
          | None => false
          end
  && negb ((now2 <? perm_startTime p)%Z || (perm_endTime p <? now2)%Z).


(** C7 as written: the call leaves the manager as it was. *)
Definition validateAction_pure_claim (now1 now2 : Z)
    (pid token amt contract : string) (pm : PermissionManager) : Prop :=
  snd (PM.validateAction now1 now2 pid token amt contract pm) = pm.

(** ** The spend ledger (C1) *)

(** A run of [recordSpend] calls against one permission, each with its
    clock reading, amount and transaction hash. *)
Fixpoint recordSpends (pid : string) (spends : list (Z * string * string))
    (pm : PermissionManager) : PermissionManager :=
  match spends with
  | [] => pm
  | (now, amt, hash) :: rest =>
      recordSpends pid rest (snd (PM.recordSpend now pid amt hash pm))
  end.







(** ** The pipeline: what a run reads and what it leaves *)

(** The part of the executor that the pipeline reads and writes, leaving
    out the execution history and the schedule registry. *)
Definition core (a : AgentExecutor)
  : PermissionManager * string * string * list Call :=
  (permissionManager a, gaiaEndpoint a, gaiaApiKey a, calls a).

(** The fields of an intent that the pipeline reads. *)
Definition request (i : AgentIntent) : string * string * string * string :=
  (permissionId i, tokenAddress i, amount i, contractAddress i).

(** What a run reports: everything in the execution but the intent. *)
Definition report (e : AgentExecution) :=
  (ex_id e, ex_status e, ex_decision e, ex_explanation e, ex_error e,
   ex_transactionHash e, ex_gasUsed e, ex_timestamp e).

(** The schedule-parsing and schedule-registration preamble of
    [processIntent]. *)
Definition preambleIntent (env : RunEnv) (intent : AgentIntent) : AgentIntent :=
  setSchedule
    (Schedule.parseScheduleFromDescription (now_parse env) (description intent))
    intent.

Definition preambleState (env : RunEnv) (intent : AgentIntent)
    (a : AgentExecutor) : AgentExecutor :=
  let s :=
    Schedule.parseScheduleFromDescription (now_parse env) (description intent) in
  match sch_type s, sch_frequency s with
  | recurring, Some _ =>
      Agent.scheduleRecurringIntent env (preambleIntent env intent) a
  | _, _ => a
  end.

(** ** Fixtures for the pipeline *)

Definition intent1 : AgentIntent :=
  mkIntent "swap every 3 days" tokenA "40" contractA "perm_1" None.

(** An executor without reasoning provider over the manager [pm]. *)
Definition agentOver (pm : PermissionManager) : AgentExecutor :=
  mkExecutor pm "" "" ∅ ∅ ∅ [] [].

Definition envWith (isConnected : bool) (m : outcome MarketContext)
    (x : outcome ExecuteResult) : RunEnv :=
  mkRunEnv isConnected "exec_1" "schedule_1" 100 100 100 100 100 100 100 100 100
    m (Throw NonError) true (fun _ => true) x.

Definition calmMarket : MarketContext := mkMarket "30.0" "1900.00" low 100.

Definition envOk : RunEnv :=
  envWith true (Return calmMarket) (Return (mkExecuteResult true "0xtx" None)).

Definition envOff : RunEnv :=
  envWith false (Return calmMarket) (Return (mkExecuteResult true "0xtx" None)).

(** ** Wallet not connected (C10) *)

(** What a run leaves when it stops at the wallet check. *)
Definition stoppedAtWallet (intent : AgentIntent) (a : AgentExecutor)
    (r : AgentExecution * AgentExecutor) : Prop :=
  ex_status (fst r) = Failed
  /\ ex_error (fst r) = Some "Wallet not connected"
  /\ shouldExecute (ex_decision (fst r)) = false
  /\ confidence (ex_decision (fst r)) = JS.ofZ 0
  /\ ex_intent (fst r) = intent
  /\ executions (snd r) = <[ex_id (fst r) := fst r]> (executions a)
  /\ executions (snd r) !! ex_id (fst r) = Some (fst r)
  /\ core (snd r) = core a
  /\ scheduledIntents (snd r) = scheduledIntents a.

(** ** Submitted and scheduled runs (C9) *)


(** ** Inside a run *)

(** The calls of [executeTransaction] on the smart account service and
    the transaction service, for the permission [p] it found. *)
Definition externalExecution (env : RunEnv) (p : ERC7715Permission)
  : outcome TransactionResult :=
  if negb (saInitialized env) then
    Throw (ErrorObj "Smart Account not initialized")
  else
    let said := orElse (perm_smartAccountPermissionId p) (perm_id p) in
    if saHasPermission env said || saHasPermission env (perm_id p) then
      TransactionService.executeTransaction (saInitialized env) (execute env)
    else Throw (ErrorObj ("Smart Account permission not found: " ++ said)).

Fixpoint recordSpendCalls (l : list Call) : nat :=
  match l with
  | [] => 0
  | CallRecordSpend _ _ _ :: r => S (recordSpendCalls r)
  | _ :: r => recordSpendCalls r
  end.

(** The state after [queryGaiaLLM]: the permission is read only when the
    provider is configured. *)
Definition afterQuery (env : RunEnv) (intent : AgentIntent)
    (a : AgentExecutor) : PermissionManager :=
  if String.eqb (gaiaEndpoint a) "" || String.eqb (gaiaApiKey a) "" then
    permissionManager a
  else
    snd (PM.getPermission (now_llm env) (permissionId intent)
           (permissionManager a)).

(** The ledger after one recorded spend. *)
Definition ledgerAfterSpend (now : Z) (amt hash : string) (t : SpendTracking)
  : SpendTracking :=
  let remaining :=
    JS.OfNumber (JS.sub (JS.parseFloatS (st_remainingAllowance t))
                        (JS.parseFloat amt)) in
  mkSpendTracking (st_permissionId t)
    (JS.OfNumber (JS.add (JS.parseFloatS (st_totalSpent t))
                         (JS.parseFloat amt)))
    remaining
    (st_spendEntries t ++ [mkSpendEntry now amt hash remaining]).

(** The execution record after the [catch] block of [executeTransaction]. *)
Definition transactionFailed (e : thrown) (ex : AgentExecution)
  : AgentExecution :=
  setExplanation
    ("Gasless transaction failed: " ++ messageOr "Transaction failed" e)
    (setError (messageOr "Transaction failed" e) (setStatus Failed ex)).

(** ** A run that executes (C3) *)

(** What an executed run leaves: status and transaction reference, the
    ledger of the permission advanced by the amount with one entry added,
    and the five collaborator calls, [recordSpend] being the last. *)
Definition executedRun (env : RunEnv) (intent : AgentIntent)
    (a : AgentExecutor) (t : SpendTracking) (res : TransactionResult)
    (r : AgentExecution * AgentExecutor) : Prop :=
  let pid := permissionId intent in
  let amt := amount intent in
  ex_status (fst r) = Executed
  /\ ex_transactionHash (fst r) = Some (tr_hash res)
  /\ spendTracking (permissionManager (snd r))
     = <[pid := ledgerAfterSpend (now_spend env) amt (tr_hash res) t]>
         (spendTracking (permissionManager a))
  /\ (exists t' entry,
        spendTracking (permissionManager (snd r)) !! pid = Some t'
        /\ JS.parseFloatS (st_totalSpent t')
           = JS.add (JS.parseFloatS (st_totalSpent t)) (JS.parseFloat amt)
        /\ JS.parseFloatS (st_remainingAllowance t')
           = JS.sub (JS.parseFloatS (st_remainingAllowance t))
                    (JS.parseFloat amt)
        /\ st_spendEntries t' = (st_spendEntries t ++ [entry])%list
        /\ se_amount entry = amt
        /\ se_transactionHash entry = tr_hash res)
  /\ recordSpendCalls (calls (snd r)) = S (recordSpendCalls (calls a))
  /\ exists actual,
       calls (snd r)
       = (calls a
          ++ [CallValidateAction pid (tokenAddress intent) amt
                (contractAddress intent);
              CallGatherMarketContext;
              CallQueryGaiaLLM;
              CallExecuteWithPermission (contractAddress intent) actual;
              CallRecordSpend pid amt (tr_hash res)])%list.


Definition txOk : TransactionResult :=
  mkTxResult "0xtx" tx_confirmed (Some "0") (Some true).

(** ** A run in which a step raises (C4) *)




(** ** Requests that [createPermission] accepts *)

(** A number that passes [isNaN(amount) || amount <= 0]. *)
Definition positiveNumber (x : JS.jsnum) : Prop :=
  match x with
  | JS.Fin q => (0 < q)%Q
  | JS.Inf negative => negative = false
  | JS.NaN => False
  end.

(** The five conditions of [validatePermissionRequest]. *)
Definition validRequest (request : PermissionRequest) : Prop :=
  PM.isValidAddress (req_tokenAddress request) = true
  /\ positiveNumber (JS.parseFloat (req_maxSpendAmount request))
  /\ (req_startTime request < req_endTime request)%Z
  /\ req_allowedContracts request <> []
  /\ Forall (fun a => PM.isValidAddress a = true) (req_allowedContracts request).

(** The request a stored permission was made from. *)
Definition requestOf (p : ERC7715Permission) : PermissionRequest :=
  mkRequest (perm_tokenAddress p) (perm_maxSpendAmount p) (perm_startTime p)
    (perm_endTime p) (perm_allowedContracts p).

(** ** When [validateAction] accepts *)

(** The conditions under which [validateAction] returns true, read off
    its five checks. *)
Definition Accepts (now1 now2 : Z) (pid token amt contract : string)
    (pm : PermissionManager) : Prop :=
  exists p,
    permissions pm !! pid = Some p
    /\ lazyStatus now1 p = active
    /\ JS.toLowerCase (perm_tokenAddress p) = JS.toLowerCase token
    /\ (exists addr, In addr (perm_allowedContracts p)
                     /\ JS.toLowerCase addr = JS.toLowerCase contract)
    /\ (forall t, spendTracking pm !! pid = Some t ->
          JS.gt (JS.add (JS.parseFloatS (st_totalSpent t))
                        (JS.parseFloat amt))
                (JS.parseFloat (perm_maxSpendAmount p)) = false)
    /\ (perm_startTime p <= now2 <= perm_endTime p)%Z.

(** ** The states of the manager *)

(** A stored permission after [updatePermissionStatus] at [now]. *)
Definition lazily (now : Z) (p : ERC7715Permission) : ERC7715Permission :=
  set_status (lazyStatus now p) p.

(** Every permission is stored under its own id, still satisfies the
    request validation it was created under, is not pending, and has a
    ledger that names it. *)
Definition wellFormed (pm : PermissionManager) : Prop :=
  forall k p,
    permissions pm !! k = Some p ->
    perm_id p = k
    /\ validRequest (requestOf p)
    /\ perm_status p <> pending
    /\ exists t, spendTracking pm !! k = Some t /\ st_permissionId t = k.

(** The public operations of the manager, with what each call obtains
    from outside. *)
Inductive Op : Type :=
| OpCreate (env : CreateEnv) (request : PermissionRequest)
| OpRevoke (isConnected : bool) (id : string)
| OpGet (now : Z) (id : string)
| OpList (now : Z) (status : option PermissionStatus)
| OpValidate (now1 now2 : Z) (pid token amt contract : string)
| OpRecord (now : Z) (pid amt hash : string).

(** The manager after one operation. *)
Definition applyOp (op : Op) (pm : PermissionManager) : PermissionManager :=
  match op with
  | OpCreate env request => snd (PM.createPermission env request pm)
  | OpRevoke c id => snd (PM.revokePermission c id pm)
  | OpGet now id => snd (PM.getPermission now id pm)
  | OpList now status => snd (PM.getPermissions now status pm)
  | OpValidate now1 now2 pid token amt contract =>
      snd (PM.validateAction now1 now2 pid token amt contract pm)
  | OpRecord now pid amt hash => snd (PM.recordSpend now pid amt hash pm)
  end.

Definition applyOps (ops : list Op) (pm : PermissionManager)
  : PermissionManager :=
  fold_left (fun pm op => applyOp op pm) ops pm.

(** A creation draws an id that is not in use. *)
Definition freshCreate (op : Op) (pm : PermissionManager) : Prop :=
  match op with
  | OpCreate env _ => permissions pm !! ce_permissionId env = None
  | _ => True
  end.

Fixpoint freshCreates (ops : list Op) (pm : PermissionManager) : Prop :=
  match ops with
  | [] => True
  | op :: rest => freshCreate op pm /\ freshCreates rest (applyOp op pm)
  end.

(** The status changes the code can make to a stored permission. *)
Definition laterStatus (s s' : PermissionStatus) : Prop :=
  s' = s \/ (s = active /\ (s' = expired \/ s' = revoked)).

(** ** Runs of the pipeline *)

(** The schedule registry and the timers of the executor. *)
Definition registry (a : AgentExecutor)
  : gmap string nat * gmap string AgentIntent * list (string * Z) :=
  (activeSchedules a, scheduledIntents a, timers a).

Fixpoint executeCalls (l : list Call) : nat :=
  match l with
  | [] => 0
  | CallExecuteWithPermission _ _ :: r => S (executeCalls r)
  | _ :: r => executeCalls r
  end.

(** An operation that reads, expires or records, but neither creates nor
    revokes. *)
Definition readsOrRecords (op : Op) : Prop :=
  match op with
  | OpCreate _ _ | OpRevoke _ _ => False
  | _ => True
  end.

(** The manager [pm'] is [pm] after some of its own operations, none of
    them a creation or a revocation. *)
Definition byOperations (pm pm' : PermissionManager) : Prop :=
  exists ops : list Op, pm' = applyOps ops pm /\ Forall readsOrRecords ops.

(** What holds of every run, whichever way it ends. *)
Definition settledRun (env : RunEnv) (a : AgentExecutor)
    (r : AgentExecution * AgentExecutor) : Prop :=
  ex_id (fst r) = executionId env
  /\ executions (snd r) = <[executionId env := fst r]> (executions a)
  /\ match ex_status (fst r) with
     | Pending => False
     | Executed =>
         (exists h, ex_transactionHash (fst r) = Some h)
         /\ shouldExecute (ex_decision (fst r)) = true
         /\ ex_error (fst r) = None
         /\ executeCalls (calls (snd r)) = S (executeCalls (calls a))
         /\ recordSpendCalls (calls (snd r)) = S (recordSpendCalls (calls a))
     | Blocked =>
         ex_transactionHash (fst r) = None
         /\ ex_error (fst r) = None
         /\ shouldExecute (ex_decision (fst r)) = false
         /\ spendTracking (permissionManager (snd r))
            = spendTracking (permissionManager a)
         /\ executeCalls (calls (snd r)) = executeCalls (calls a)
         /\ recordSpendCalls (calls (snd r)) = recordSpendCalls (calls a)
     | Failed =>
         (exists msg, ex_error (fst r) = Some msg)
         /\ spendTracking (permissionManager (snd r))
            = spendTracking (permissionManager a)
     end.

(** What a run blocked with [explanation] after the calls [made] leaves. *)
Definition blockedRun (a : AgentExecutor) (explanation whyNot : string)
    (made : list Call) (r : AgentExecution * AgentExecutor) : Prop :=
  ex_status (fst r) = Blocked
  /\ ex_explanation (fst r) = explanation
  /\ shouldExecute (ex_decision (fst r)) = false
  /\ reasoning (ex_decision (fst r)) = whyNot
  /\ calls (snd r) = (calls a ++ made)%list
  /\ spendTracking (permissionManager (snd r))
     = spendTracking (permissionManager a).

(** What a run leaves when the transfer was sent and returned [res] but
    the spend could not be recorded. *)
Definition unrecordedRun (a : AgentExecutor) (res : TransactionResult)
    (r : AgentExecution * AgentExecutor) : Prop :=
  ex_status (fst r) = Failed
  /\ ex_transactionHash (fst r) = Some (tr_hash res)
  /\ ex_error (fst r) = Some "Spend tracking not found for permission"
  /\ ex_explanation (fst r)
     = "Execution failed: Spend tracking not found for permission"
  /\ spendTracking (permissionManager (snd r))
     = spendTracking (permissionManager a)
  /\ executeCalls (calls (snd r)) = S (executeCalls (calls a))
  /\ recordSpendCalls (calls (snd r)) = S (recordSpendCalls (calls a)).

(** A market whose gas price is above the threshold of the rule-based
    decision. *)
Definition envGasHigh : RunEnv :=
  envWith true (Return (mkMarket "75.5" "1900.00" low 100))
    (Return (mkExecuteResult true "0xtx" None)).


(** ** The schedule registry *)

(** The schedule that [processIntent] reads off the description. *)
Definition parsedSchedule (env : RunEnv) (intent : AgentIntent)
  : AgentSchedule :=
  Schedule.parseScheduleFromDescription (now_parse env) (description intent).

(** The registry after a recurring schedule whose first execution is due
    at [next] has been set up: the intent is registered, and one timer is
    armed, which is remembered under the schedule id only when [next] is
    still ahead. *)
Definition registered (env : RunEnv) (intent : AgentIntent) (next : Z)
    (a a' : AgentExecutor) : Prop :=
  scheduledIntents a'
  = <[scheduleId env := preambleIntent env intent]> (scheduledIntents a)
  /\ if (now_arm env <? next)%Z then
       activeSchedules a'
       = <[scheduleId env := List.length (timers a)]> (activeSchedules a)
       /\ timers a' = (timers a ++ [(scheduleId env, next - now_arm env)%Z])%list
     else
       activeSchedules a' = activeSchedules a
       /\ timers a' = (timers a ++ [(scheduleId env, 1000%Z)])%list.

Definition envLate : RunEnv :=
  {| connected := true;
     executionId := executionId envOk;
     scheduleId := scheduleId envOk;
     now_parse := 0;
     now_stamp := now_stamp envOk;
     now_arm := 300000000;
     now_expiry := now_expiry envOk;
     now_window := now_window envOk;
     now_llm := now_llm envOk;
     now_exec := now_exec envOk;
     now_list := now_list envOk;
     now_spend := now_spend envOk;
     market := market envOk;
     provider := provider envOk;
     saInitialized := saInitialized envOk;
     saHasPermission := saHasPermission envOk;
     execute := execute envOk |}.

(** The length in milliseconds of the frequencies that have a fixed one. *)
Definition periodMs (f : Frequency) : option Z :=
  match f with
  | minutely => Some 60000%Z
  | hourly => Some 3600000%Z
  | daily => Some 86400000%Z
  | weekly => Some 604800000%Z
  | monthly => None
  end.

(** The provider is not consulted, or its request fails. *)
Definition noAnswer (env : RunEnv) (a : AgentExecutor) : Prop :=
  gaiaEndpoint a = "" \/ gaiaApiKey a = "" \/ exists e, provider env = Throw e.

(** ** Schedules and the permissions they run on *)

(** [entries] is the content of the map [m], each key once. *)
Definition snapshot (entries : list (string * AgentIntent))
    (m : gmap string AgentIntent) : Prop :=
  NoDup entries.*1 /\ m = list_to_map entries.

(** No permission is stored under [k] with status active. *)
Definition notActiveIn (pm : PermissionManager) (k : string) : Prop :=
  forall p, permissions pm !! k = Some p -> perm_status p <> active.

(** The permission stored under [k] has status active and does not end
    before [t]. *)
Definition activeUntil (pm : PermissionManager) (k : string) (t : Z) : Prop :=
  exists p,
    permissions pm !! k = Some p
    /\ perm_status p = active /\ (t <= perm_endTime p)%Z.

(** The walk over the entries that both [getActiveSchedules] and
    [cleanupInvalidSchedules] make: entries that [pre] lets through have
    their permission read, and are kept or dropped by what is found. *)
Fixpoint examine (pre : AgentIntent -> bool) (clock : string -> Z)
    (entries : list (string * AgentIntent)) (pm : PermissionManager)
  : list (string * AgentIntent) * list string * PermissionManager :=
  match entries with
  | [] => ([], [], pm)
  | (id, intent) :: rest =>
      if negb (pre intent) then examine pre clock rest pm
      else
        let '(kept, dropped, pm') :=
          examine pre clock rest
            (snd (PM.getPermission (clock id) (permissionId intent) pm)) in
        if Registry.notActive
             (fst (PM.getPermission (clock id) (permissionId intent) pm))
        then (kept, id :: dropped, pm')
        else ((id, intent) :: kept, dropped, pm')
  end.

(** What the walk guarantees about the entries of [entries] that [pre]
    lets through. *)
Definition examined (pre : AgentIntent -> bool) (clock : string -> Z)
    (entries : list (string * AgentIntent)) (pm : PermissionManager)
    (kept : list (string * AgentIntent)) (dropped : list string)
    (pm' : PermissionManager) : Prop :=
  byOperations pm pm'
  /\ spendTracking pm' = spendTracking pm
  /\ (forall id intent, (id, intent) ∈ kept ->
        (id, intent) ∈ entries /\ pre intent = true
        /\ (id ∉ dropped)
        /\ activeUntil pm (permissionId intent) (clock id))
  /\ (forall id, id ∈ dropped ->
        exists intent,
          (id, intent) ∈ entries /\ pre intent = true
          /\ notActiveIn pm' (permissionId intent))
  /\ (forall id intent, (id, intent) ∈ entries -> pre intent = true ->
        ((id, intent) ∈ kept \/ id ∈ dropped)
        /\ (notActiveIn pm (permissionId intent) -> id ∈ dropped)
        /\ (forall T, activeUntil pm (permissionId intent) T ->
              (forall e, e ∈ entries -> (clock (fst e) <= T)%Z) ->
              (id, intent) ∈ kept)).

(** An executor that holds one schedule on [perm_1], over the manager in
    which that permission has been revoked. *)
Definition scheduledIntent1 : AgentIntent := preambleIntent envOk intent1.

Definition agentRevoked : AgentExecutor :=
  mkExecutor (snd (PM.revokePermission true "perm_1" pm1)) "" "" ∅
    (<["schedule_1" := 0%nat]> ∅) (<["schedule_1" := scheduledIntent1]> ∅)
    [("schedule_1", 259200000%Z)] [].

(* ===================================================================== *)
(** * Properties *)
(* ===================================================================== *)

(** ** The embedding on examples *)

Example parseFloat_integer : JS.parseFloat "60" = JS.ofZ 60.
Proof. reflexivity. Qed.

Example parseFloat_prefix : JS.parseFloat "  12.50abc" = JS.Fin (1250 # 100).
Proof. reflexivity. Qed.

Example parseFloat_exponent : JS.parseFloat "-1.5e3" = JS.Fin (-15000 # 10).
Proof. reflexivity. Qed.

Example parseFloat_not_a_number : JS.parseFloat "abc" = JS.NaN.
Proof. reflexivity. Qed.

Example parseFloat_infinity : JS.parseFloat "-Infinity" = JS.Inf true.
Proof. reflexivity. Qed.

Example nan_never_exceeds :
  JS.gt (JS.add (JS.ofZ 0) (JS.parseFloat "abc")) (JS.ofZ 100) = false.
Proof. reflexivity. Qed.

Example addMonths_overflow :
  Schedule.addMonths 1706659200000 1 = 1709337600000%Z.
Proof. reflexivity. Qed.

Example parse_every_3_days :
  Schedule.parseScheduleFromDescription 1000 "Swap every 3 days please"
  = Schedule.recurringSchedule 1000 daily 3.
Proof. reflexivity. Qed.

(** ** Substrings *)




(** ** The rule-based decision (C5) *)

(** C5, counterexample: with a gas price of 60 and a congested network the
    reasoning is the congestion message, which does not mention the gas
    price. *)
Lemma fallback_gas60_congested :
  ~ gas60_claim (mkIntent "swap" "0xA" "10" "0xB" "perm_1" None)
                (mkMarket "60" "1900.00" high 0).
Proof.
  unfold gas60_claim. intros H. destruct (H eq_refl) as [_ Hr].
  vm_compute in Hr. discriminate.
Qed.

(** C5, amended: the fallback decision is the table of the three tests
    (gas price above 50, amount above 100, congestion high), in which a
    congested network overrides everything and a large amount lowers the
    confidence by 20 and relabels the risk.  With a gas price of 60 the
    decision is always a refusal, and its reasoning is the gas-price
    message whenever the network is not congested. *)
Theorem fallbackDecisionMaking_rules (intent : AgentIntent)
    (context : MarketContext) :
  fallbackDecisionMaking intent context
  = fallbackTable (JS.gt (JS.parseFloat (gasPrice context)) (JS.ofZ 50))
                  (JS.gt (JS.parseFloat (amount intent)) (JS.ofZ 100))
                  (networkCongestion context)
  /\ (gasPrice context = "60" ->
      shouldExecute (fallbackDecisionMaking intent context) = false
      /\ (networkCongestion context <> high ->
          reasoning (fallbackDecisionMaking intent context)
          = "Gas price too high for efficient execution"
          /\ JS.includes (reasoning (fallbackDecisionMaking intent context))
                         "Gas price too high" = true)).
Proof.
  assert (Htable :
    fallbackDecisionMaking intent context
    = fallbackTable (JS.gt (JS.parseFloat (gasPrice context)) (JS.ofZ 50))
                    (JS.gt (JS.parseFloat (amount intent)) (JS.ofZ 100))
                    (networkCongestion context)).
  { unfold fallbackDecisionMaking, fallbackTable.
    destruct (networkCongestion context);
      destruct (JS.gt (JS.parseFloat (gasPrice context)) (JS.ofZ 50));
      destruct (JS.gt (JS.parseFloat (amount intent)) (JS.ofZ 100));
      reflexivity. }
  split; [exact Htable|].
  intros Hgas. rewrite Htable, Hgas.
  change (JS.gt (JS.parseFloat "60") (JS.ofZ 50)) with true.
  split.
  - destruct (networkCongestion context);
      destruct (JS.gt (JS.parseFloat (amount intent)) (JS.ofZ 100));
      reflexivity.
  - intros Hc.
    destruct (networkCongestion context); try congruence;
      destruct (JS.gt (JS.parseFloat (amount intent)) (JS.ofZ 100));
      split; reflexivity.
Qed.

Lemma fallbackDecisionMaking_rules_witness :
  let d := fallbackDecisionMaking
             (mkIntent "swap" "0xA" "10" "0xB" "perm_1" None)
             (mkMarket "60" "1900.00" low 0) in
  shouldExecute d = false
  /\ reasoning d = "Gas price too high for efficient execution".
Proof.
  destruct (fallbackDecisionMaking_rules
              (mkIntent "swap" "0xA" "10" "0xB" "perm_1" None)
              (mkMarket "60" "1900.00" low 0)) as [_ H].
  destruct (H eq_refl) as [H1 H2].
  split; [exact H1 | apply H2; discriminate].
Defined.

(** ** Schedule parsing (C8) *)














(** ** The fixture state is the one [createPermission] builds *)


(** ** Lazy expiry and the reads of a permission *)

Lemma set_status_same (p : ERC7715Permission) :
  set_status (perm_status p) p = p.
Proof. destruct p. reflexivity. Qed.

Lemma updatePermissionStatus_fst (now : Z) (key : string)
    (p : ERC7715Permission) (pm : PermissionManager) :
  fst (PM.updatePermissionStatus now key p pm)
  = set_status (lazyStatus now p) p.
Proof.
  unfold PM.updatePermissionStatus, lazyStatus.
  destruct (perm_status p) eqn:Hs;
    try destruct (perm_endTime p <? now)%Z; simpl;
    try reflexivity; rewrite <- Hs; symmetry; apply set_status_same.
Qed.

Lemma updatePermissionStatus_spendTracking (now : Z) (key : string)
    (p : ERC7715Permission) (pm : PermissionManager) :
  spendTracking (snd (PM.updatePermissionStatus now key p pm))
  = spendTracking pm.
Proof.
  unfold PM.updatePermissionStatus.
  destruct (perm_status p); try destruct (perm_endTime p <? now)%Z;
    reflexivity.
Qed.

Lemma updatePermissionStatus_snd (now : Z) (key : string)
    (p : ERC7715Permission) (pm : PermissionManager) :
  snd (PM.updatePermissionStatus now key p pm)
  = if lapses now p then
      {| permissions :=
           <[perm_id p := set_status expired p]>
             (<[key := set_status expired p]> (permissions pm));
         spendTracking := spendTracking pm |}
    else pm.
Proof.
  unfold PM.updatePermissionStatus, lapses.
  destruct (perm_status p); simpl;
    try destruct (perm_endTime p <? now)%Z; reflexivity.
Qed.

Lemma getPermission_fst (now : Z) (id : string) (pm : PermissionManager) :
  fst (PM.getPermission now id pm)
  = (fun p => set_status (lazyStatus now p) p) <$> (permissions pm !! id).
Proof.
  unfold PM.getPermission. destruct (permissions pm !! id) as [p|]; simpl;
    [|reflexivity].
  pose proof (updatePermissionStatus_fst now id p pm) as H.
  destruct (PM.updatePermissionStatus now id p pm). simpl in *. congruence.
Qed.

Lemma getPermission_snd (now : Z) (id : string) (pm : PermissionManager) :
  snd (PM.getPermission now id pm)
  = match permissions pm !! id with
    | Some p => snd (PM.updatePermissionStatus now id p pm)
    | None => pm
    end.
Proof.
  unfold PM.getPermission. destruct (permissions pm !! id) as [p|];
    [|reflexivity].
  destruct (PM.updatePermissionStatus now id p pm). reflexivity.
Qed.

Lemma getPermission_spendTracking (now : Z) (id : string)
    (pm : PermissionManager) :
  spendTracking (snd (PM.getPermission now id pm)) = spendTracking pm.
Proof.
  rewrite getPermission_snd. destruct (permissions pm !! id);
    [apply updatePermissionStatus_spendTracking | reflexivity].
Qed.

(** After a read, the permission found is the one stored under [id]. *)
Lemma getPermission_stored (now : Z) (id : string) (pm : PermissionManager) :
  permissions (snd (PM.getPermission now id pm)) !! id
  = fst (PM.getPermission now id pm).
Proof.
  rewrite getPermission_fst, getPermission_snd.
  destruct (permissions pm !! id) as [p|] eqn:Hp; simpl; [|exact Hp].
  rewrite updatePermissionStatus_snd. unfold lazyStatus, lapses.
  destruct (perm_status p) eqn:Hs; simpl;
    try (destruct (perm_endTime p <? now)%Z; simpl);
    try (rewrite <- Hs, set_status_same; exact Hp);
    try (destruct (decide (perm_id p = id)) as [->|Hne];
         [rewrite lookup_insert_eq; reflexivity
         |rewrite lookup_insert_ne by exact Hne;
          rewrite lookup_insert_eq; reflexivity]).
Qed.

(** ** validateAction: what it returns (C2) and what it changes (C7) *)

Lemma validateAction_snd (now1 now2 : Z)
    (pid token amt contract : string) (pm : PermissionManager) :
  snd (PM.validateAction now1 now2 pid token amt contract pm)
  = snd (PM.getPermission now1 pid pm).
Proof.
  unfold PM.validateAction.
  destruct (PM.getPermission now1 pid pm) as [[p|] pm']; simpl;
    [|reflexivity].
  repeat match goal with
         | |- context [if ?b then _ else _] => destruct b
         end; reflexivity.
Qed.

Lemma validateAction_fst (now1 now2 : Z)
    (pid token amt contract : string) (pm : PermissionManager) :
  fst (PM.validateAction now1 now2 pid token amt contract pm)
  = match permissions pm !! pid with
    | Some p => withinBounds now1 now2 token amt contract p
                  (spendTracking pm !! pid)
    | None => false
    end.
Proof.
  unfold PM.validateAction.
  pose proof (getPermission_fst now1 pid pm) as Hf.
  pose proof (getPermission_spendTracking now1 pid pm) as Hs.
  destruct (PM.getPermission now1 pid pm) as [found pm']. simpl in Hf, Hs.
  destruct (permissions pm !! pid) as [p|]; simpl in Hf; subst found;
    [|reflexivity].
  unfold withinBounds. rewrite Hs. simpl.
  destruct (PermissionStatus_eqb (lazyStatus now1 p) active); simpl;
    [|reflexivity].
  destruct (String.eqb _ _); simpl; [|reflexivity].
  destruct (PM.isContractAllowed _ _); simpl; [|reflexivity].
  unfold PM.spendLimitExceeded. simpl.
  destruct (match spendTracking pm !! pid with Some _ => _ | None => _ end);
    simpl; [reflexivity|].
  destruct (_ || _); reflexivity.
Qed.

Lemma PermissionStatus_eqb_eq (a b : PermissionStatus) :
  PermissionStatus_eqb a b = true <-> a = b.
Proof. destruct a, b; simpl; split; intros H; congruence. Qed.

Lemma isContractAllowed_spec (allowed : list string) (contract : string) :
  PM.isContractAllowed allowed contract = true
  <-> exists addr, In addr allowed
                   /\ JS.toLowerCase addr = JS.toLowerCase contract.
Proof.
  unfold PM.isContractAllowed. rewrite existsb_exists.
  split; intros [addr [Hin H]]; exists addr; (split; [exact Hin|]);
    apply String.eqb_eq; exact H.
Qed.



(** C7, counterexample: validating against an active permission whose end
    time has passed rewrites its status to expired. *)
Lemma validateAction_writes_expiry :
  ~ validateAction_pure_claim 2000 2000 "perm_1" tokenA "40" contractA pm1.
Proof.
  unfold validateAction_pure_claim. intros H.
  apply (f_equal (fun pm => perm_status <$> (permissions pm !! "perm_1"))) in H.
  vm_compute in H. discriminate.
Qed.

(** C7, amended: [validateAction] never touches the spend ledgers, and the
    only change it makes to the permission map is the lazy expiry of the
    permission it was asked about: when that permission is not revoked and
    its end time has passed, it is stored again with status expired;
    otherwise the map is left as it was. *)
Theorem validateAction_frame (now1 now2 : Z)
    (pid token amt contract : string) (pm : PermissionManager) :
  let pm' := snd (PM.validateAction now1 now2 pid token amt contract pm) in
  spendTracking pm' = spendTracking pm
  /\ permissions pm'
     = match permissions pm !! pid with
       | Some p =>
           if lapses now1 p then
             <[perm_id p := set_status expired p]>
               (<[pid := set_status expired p]> (permissions pm))
           else permissions pm
       | None => permissions pm
       end.
Proof.
  cbv zeta. rewrite validateAction_snd. split.
  - apply getPermission_spendTracking.
  - rewrite getPermission_snd. destruct (permissions pm !! pid) as [p|];
      [|reflexivity].
    rewrite updatePermissionStatus_snd. destruct (lapses now1 p); reflexivity.
Qed.

(** ** revokePermission (C6) *)

(** A permission stored as active is revoked whatever its end time: the
    lookup of [revokePermission] does not go through the lazy expiry that
    [getPermission] applies. *)
Lemma revokePermission_stored_active (id : string) (p : ERC7715Permission)
    (pm : PermissionManager) :
  permissions pm !! id = Some p ->
  perm_status p = active ->
  PM.revokePermission true id pm
  = (Return tt,
     {| permissions := <[id := set_status revoked p]> (permissions pm);
        spendTracking := spendTracking pm |}).
Proof.
  intros Hp Hs. unfold PM.revokePermission. simpl. rewrite Hp, Hs. reflexivity.
Qed.

(** C6, what the code does where the claim asks for a rejection: for a
    permission whose stored status is active and whose end time has
    passed, [getPermission] reports it expired at that instant, and yet
    [revokePermission] accepts it and stores it as revoked. *)
Theorem revokePermission_after_end_time (now : Z) (id : string)
    (p : ERC7715Permission) (pm : PermissionManager) :
  permissions pm !! id = Some p ->
  perm_status p = active ->
  (perm_endTime p < now)%Z ->
  perm_status <$> fst (PM.getPermission now id pm) = Some expired
  /\ fst (PM.revokePermission true id pm) = Return tt
  /\ permissions (snd (PM.revokePermission true id pm)) !! id
     = Some (set_status revoked p).
Proof.
  intros Hp Hs Hend. split.
  - rewrite getPermission_fst, Hp. simpl. unfold lazyStatus.
    rewrite Hs. apply Z.ltb_lt in Hend. rewrite Hend. reflexivity.
  - rewrite (revokePermission_stored_active id p pm Hp Hs). simpl.
    split; [reflexivity | apply lookup_insert_eq].
Qed.

Lemma revokePermission_after_end_time_witness :
  perm_status <$> fst (PM.getPermission 2000 "perm_1" pm1) = Some expired
  /\ fst (PM.revokePermission true "perm_1" pm1) = Return tt
  /\ permissions (snd (PM.revokePermission true "perm_1" pm1)) !! "perm_1"
     = Some (set_status revoked perm1).
Proof.
  apply (revokePermission_after_end_time 2000 "perm_1" perm1 pm1);
    [vm_compute; reflexivity | reflexivity | reflexivity].
Defined.

(** ** The spend ledger (C1) *)

Lemma createPermission_success (env : CreateEnv) (request : PermissionRequest)
    (pm pm' : PermissionManager) (p : ERC7715Permission) :
  PM.createPermission env request pm = (Return p, pm') ->
  perm_id p = ce_permissionId env
  /\ perm_maxSpendAmount p = req_maxSpendAmount request
  /\ perm_status p = active
  /\ permissions pm' = <[ce_permissionId env := p]> (permissions pm)
  /\ spendTracking pm'
     = <[ce_permissionId env :=
           mkSpendTracking (ce_permissionId env) (JS.Lit "0")
             (JS.Lit (req_maxSpendAmount request)) []]> (spendTracking pm).
Proof.
  unfold PM.createPermission, PM.requestMetaMaskPermission.
  destruct (PM.validateWalletConnection (ce_connected env)); [|discriminate].
  destruct (PM.validatePermissionRequest request); [|discriminate].
  destruct (ce_initialized env); simpl; [|discriminate].
  destruct (ce_grant env) as [g|]; [|discriminate].
  destruct (grant_success g); simpl; [|discriminate].
  intros H. injection H as <- <-. simpl. repeat split; reflexivity.
Qed.






(** ** The pipeline: what a run reads and what it leaves *)

Lemma scheduleRecurringIntent_core (env : RunEnv) (intent : AgentIntent)
    (a : AgentExecutor) :
  core (Agent.scheduleRecurringIntent env intent a) = core a.
Proof.
  unfold Agent.scheduleRecurringIntent.
  repeat case_match; reflexivity.
Qed.

Lemma preambleState_core (env : RunEnv) (intent : AgentIntent)
    (a : AgentExecutor) :
  core (preambleState env intent a) = core a.
Proof.
  unfold preambleState. repeat case_match;
    try reflexivity; apply scheduleRecurringIntent_core.
Qed.

Lemma preambleIntent_request (env : RunEnv) (intent : AgentIntent) :
  request (preambleIntent env intent) = request intent.
Proof. reflexivity. Qed.

(** [executeTransaction] does not read the explanation it overwrites. *)
Lemma executeTransaction_explanation (env : RunEnv) (s : string)
    (d : AgentDecision) (e : AgentExecution) (a : AgentExecutor) :
  Agent.executeTransaction env (setDecision d (setExplanation s e)) a
  = Agent.executeTransaction env (setDecision d e) a.
Proof.
  unfold Agent.executeTransaction.
  change (Agent.sendTransaction env (setDecision d (setExplanation s e)) a)
    with (Agent.sendTransaction env (setDecision d e) a).
  destruct (Agent.sendTransaction env (setDecision d e) a) as [[r|err] a'];
    [|reflexivity].
  cbn [ex_intent setExplanation setStatus setTransaction setDecision].
  destruct (PM.recordSpend _ _ _ _ _) as [[u|err] pm']; reflexivity.
Qed.

(** With the wallet connected, [processIntent] is its preamble followed
    by exactly what [executeIntentDirectly] does. *)
Lemma processIntent_connected (env : RunEnv) (intent : AgentIntent)
    (a : AgentExecutor) :
  connected env = true ->
  Agent.processIntent env intent a
  = Agent.executeIntentDirectly env (preambleIntent env intent)
      (preambleState env intent a).
Proof.
  intros Hc. unfold Agent.processIntent, Agent.executeIntentDirectly.
  rewrite Hc. cbn [negb]. unfold preambleState. fold (preambleIntent env intent).
  set (i := preambleIntent env intent).
  set (s := Schedule.parseScheduleFromDescription _ _).
  destruct (sch_type s); [reflexivity|].
  destruct (sch_frequency s) as [f|]; [|reflexivity].
  cbv zeta.
  destruct (PM.validateAction _ _ _ _ _ _ _) as [[] pm']; cbn [negb];
    [|reflexivity].
  unfold Agent.gatherMarketContext.
  destruct (market env) as [mc|err]; [|reflexivity].
  destruct (Agent.queryGaiaLLM _ _ _ _) as [d a1].
  destruct (shouldExecute d); [|reflexivity].
  rewrite executeTransaction_explanation.
  destruct (Agent.executeTransaction _ _ _) as [[[u|err] e'] a2]; reflexivity.
Qed.

(** *** Each step reads and writes the core state only *)

Lemma queryGaiaLLM_core (env : RunEnv) (i1 i2 : AgentIntent)
    (mc : MarketContext) (a1 a2 : AgentExecutor) :
  request i1 = request i2 ->
  core a1 = core a2 ->
  fst (Agent.queryGaiaLLM env i1 mc a1) = fst (Agent.queryGaiaLLM env i2 mc a2)
  /\ core (snd (Agent.queryGaiaLLM env i1 mc a1))
     = core (snd (Agent.queryGaiaLLM env i2 mc a2)).
Proof.
  intros Hreq Hcore.
  assert (Hfb : fallbackDecisionMaking i1 mc = fallbackDecisionMaking i2 mc).
  { unfold fallbackDecisionMaking, request in *.
    replace (amount i2) with (amount i1) by congruence. reflexivity. }
  unfold Agent.queryGaiaLLM. rewrite Hfb.
  replace (permissionId i2) with (permissionId i1)
    by (unfold request in Hreq; congruence).
  destruct a1, a2. unfold core in *. simpl in *. simplify_eq.
  destruct (_ || _); [split; reflexivity|].
  destruct (PM.getPermission _ _ _) as [found pm'].
  destruct (provider env); split; reflexivity.
Qed.

Lemma sendTransaction_core (env : RunEnv) (e1 e2 : AgentExecution)
    (a1 a2 : AgentExecutor) :
  request (ex_intent e1) = request (ex_intent e2) ->
  core a1 = core a2 ->
  fst (Agent.sendTransaction env e1 a1) = fst (Agent.sendTransaction env e2 a2)
  /\ core (snd (Agent.sendTransaction env e1 a1))
     = core (snd (Agent.sendTransaction env e2 a2)).
Proof.
  intros Hreq Hcore. unfold Agent.sendTransaction.
  replace (permissionId (ex_intent e2)) with (permissionId (ex_intent e1))
    by (unfold request in Hreq; congruence).
  replace (contractAddress (ex_intent e2))
    with (contractAddress (ex_intent e1))
    by (unfold request in Hreq; congruence).
  destruct a1, a2. unfold core in *. simpl in *. simplify_eq.
  destruct (PM.getPermission _ _ _) as [[p|] pm1]; simpl.
  - destruct (saInitialized env); simpl; [|split; reflexivity].
    destruct (saHasPermission env _); [split; reflexivity|].
    destruct (saHasPermission env _); split; reflexivity.
  - destruct (PM.getPermissions _ _ _) as [l pm2]. split; reflexivity.
Qed.

Lemma executeTransaction_core (env : RunEnv) (e1 e2 : AgentExecution)
    (a1 a2 : AgentExecutor) :
  request (ex_intent e1) = request (ex_intent e2) ->
  report e1 = report e2 ->
  core a1 = core a2 ->
  fst (fst (Agent.executeTransaction env e1 a1))
  = fst (fst (Agent.executeTransaction env e2 a2))
  /\ report (snd (fst (Agent.executeTransaction env e1 a1)))
     = report (snd (fst (Agent.executeTransaction env e2 a2)))
  /\ core (snd (Agent.executeTransaction env e1 a1))
     = core (snd (Agent.executeTransaction env e2 a2)).
Proof.
  intros Hreq Hrep Hcore. unfold Agent.executeTransaction.
  destruct (sendTransaction_core env e1 e2 a1 a2 Hreq Hcore) as [Hf Hc].
  destruct (Agent.sendTransaction env e1 a1) as [o1 b1].
  destruct (Agent.sendTransaction env e2 a2) as [o2 b2].
  simpl in Hf, Hc. subst o2.
  destruct e1 as [? i1 ? ? ? ? ? ? ?], e2 as [? i2 ? ? ? ? ? ? ?].
  destruct i1, i2, b1, b2. unfold request, report, core in *. simpl in *.
  simplify_eq.
  destruct o1 as [r|err]; simpl; [|repeat split; reflexivity].
  destruct (PM.recordSpend _ _ _ _ _) as [[u|err] pm']; simpl;
    repeat split; reflexivity.
Qed.

(** Two runs of [executeIntentDirectly] that start from the same core
    state with the same request report the same and end in the same core
    state. *)
Lemma executeIntentDirectly_core (env : RunEnv) (i1 i2 : AgentIntent)
    (a1 a2 : AgentExecutor) :
  request i1 = request i2 ->
  core a1 = core a2 ->
  report (fst (Agent.executeIntentDirectly env i1 a1))
  = report (fst (Agent.executeIntentDirectly env i2 a2))
  /\ core (snd (Agent.executeIntentDirectly env i1 a1))
     = core (snd (Agent.executeIntentDirectly env i2 a2)).
Proof.
  intros Hreq Hcore. unfold Agent.executeIntentDirectly.
  destruct (connected env); cbn [negb];
    [|split; [reflexivity | unfold core in *; simpl; exact Hcore]].
  assert (Hpm : permissionManager a1 = permissionManager a2)
    by (unfold core in Hcore; congruence).
  assert (Hargs :
    PM.validateAction (now_expiry env) (now_window env) (permissionId i1)
      (tokenAddress i1) (amount i1) (contractAddress i1)
      (permissionManager
         (logCall (CallValidateAction (permissionId i1) (tokenAddress i1)
                     (amount i1) (contractAddress i1)) a1))
    = PM.validateAction (now_expiry env) (now_window env) (permissionId i2)
        (tokenAddress i2) (amount i2) (contractAddress i2)
        (permissionManager
           (logCall (CallValidateAction (permissionId i2) (tokenAddress i2)
                       (amount i2) (contractAddress i2)) a2))).
  { unfold request in Hreq. simpl. congruence. }
  rewrite Hargs. clear Hargs.
  destruct (PM.validateAction _ _ _ _ _ _ _) as [ok pm'].
  set (b1 := setPM pm' (logCall _ a1)).
  set (b2 := setPM pm' (logCall _ a2)).
  assert (Hb : core b1 = core b2).
  { unfold core, request in *. subst b1 b2. simpl. congruence. }
  clearbody b1 b2.
  destruct ok; cbn [negb];
    [|split; [reflexivity | unfold core in *; simpl; exact Hb]].
  unfold Agent.gatherMarketContext.
  assert (Hl : core (logCall CallGatherMarketContext b1)
               = core (logCall CallGatherMarketContext b2))
    by (unfold core in *; simpl; congruence).
  destruct (market env) as [mc|err];
    [|split; [reflexivity | unfold core in *; simpl; exact Hl]].
  destruct (queryGaiaLLM_core env i1 i2 mc _ _ Hreq Hl) as [Hd Hc].
  destruct (Agent.queryGaiaLLM env i1 mc _) as [d c1].
  destruct (Agent.queryGaiaLLM env i2 mc _) as [d2 c2].
  simpl in Hd, Hc. subst d2.
  destruct (shouldExecute d);
    [|split; [reflexivity | unfold core in *; simpl; exact Hc]].
  match goal with
  | |- context [Agent.executeTransaction env ?x1 c1] =>
      match goal with
      | |- context [Agent.executeTransaction env ?x2 c2] =>
          destruct (executeTransaction_core env x1 x2 c1 c2 Hreq eq_refl Hc)
            as (Ho & Hr & Hk)
      end
  end.
  destruct (Agent.executeTransaction env _ c1) as [[o1 x1] k1].
  destruct (Agent.executeTransaction env _ c2) as [[o2 x2] k2].
  simpl in Ho, Hr, Hk. subst o2.
  unfold report in Hr. injection Hr as Hr1 Hr2 Hr3 Hr4 Hr5 Hr6 Hr7 Hr8.
  destruct o1 as [u|err]; unfold report, core in *; simpl;
    (split; [congruence | exact Hk]).
Qed.

(** With the wallet connected, the submission path reports what the
    scheduled path reports and leaves the same core state. *)
Lemma processIntent_as_direct (env : RunEnv) (intent : AgentIntent)
    (a : AgentExecutor) :
  connected env = true ->
  report (fst (Agent.processIntent env intent a))
  = report (fst (Agent.executeIntentDirectly env intent a))
  /\ core (snd (Agent.processIntent env intent a))
     = core (snd (Agent.executeIntentDirectly env intent a)).
Proof.
  intros Hc. rewrite (processIntent_connected env intent a Hc).
  apply executeIntentDirectly_core;
    [apply preambleIntent_request | apply preambleState_core].
Qed.

(** ** Wallet not connected (C10) *)

(** C10: when the wallet manager reports no connection, both
    [processIntent] and [executeIntentDirectly] return (they are total
    functions, nothing is thrown) a failed execution with error "Wallet not
    connected" and a decision that refuses with confidence 0, store it in
    the execution history, and make no call at all: the call log, the
    permission manager and the schedule registry are as before. *)
Theorem wallet_not_connected (env : RunEnv) (intent : AgentIntent)
    (a : AgentExecutor) :
  connected env = false ->
  stoppedAtWallet intent a (Agent.processIntent env intent a)
  /\ stoppedAtWallet intent a (Agent.executeIntentDirectly env intent a).
Proof.
  intros Hc. unfold Agent.processIntent, Agent.executeIntentDirectly.
  rewrite Hc. cbn [negb]. unfold stoppedAtWallet. simpl.
  rewrite !lookup_insert_eq. repeat split; reflexivity.
Qed.

Lemma wallet_not_connected_witness :
  stoppedAtWallet intent1 (agentOver pm1)
    (Agent.processIntent envOff intent1 (agentOver pm1))
  /\ stoppedAtWallet intent1 (agentOver pm1)
       (Agent.executeIntentDirectly envOff intent1 (agentOver pm1)).
Proof.
  apply (wallet_not_connected envOff intent1 (agentOver pm1)). reflexivity.
Defined.

(** ** Submitted and scheduled runs (C9) *)



(** ** Inside a run *)

Lemma recordSpendCalls_app (l1 l2 : list Call) :
  recordSpendCalls (l1 ++ l2) = (recordSpendCalls l1 + recordSpendCalls l2)%nat.
Proof.
  induction l1 as [|c l1 IH]; simpl; [reflexivity|].
  destruct c; simpl; rewrite IH; reflexivity.
Qed.

Lemma validateAction_true_active (now1 now2 : Z)
    (pid token amt contract : string) (pm : PermissionManager) :
  fst (PM.validateAction now1 now2 pid token amt contract pm) = true ->
  exists p, permissions pm !! pid = Some p /\ lazyStatus now1 p = active.
Proof.
  rewrite validateAction_fst. destruct (permissions pm !! pid) as [p|];
    [|discriminate].
  unfold withinBounds. rewrite !andb_true_iff, PermissionStatus_eqb_eq.
  intros [[[[Hs _] _] _] _]. exists p. split; [reflexivity | exact Hs].
Qed.

(** A validation that succeeds has found the permission active and
    unexpired, so it wrote nothing. *)
Lemma validateAction_true (now1 now2 : Z) (pid token amt contract : string)
    (pm : PermissionManager) :
  fst (PM.validateAction now1 now2 pid token amt contract pm) = true ->
  PM.validateAction now1 now2 pid token amt contract pm = (true, pm).
Proof.
  intros H.
  rewrite (surjective_pairing (PM.validateAction _ _ _ _ _ _ _)), H.
  f_equal. rewrite validateAction_snd, getPermission_snd.
  apply validateAction_true_active in H as (p & Hp & Hs).
  rewrite Hp, updatePermissionStatus_snd.
  unfold lapses. unfold lazyStatus in Hs.
  destruct (perm_status p); destruct (perm_endTime p <? now1)%Z;
    try discriminate; reflexivity.
Qed.

(** A read keeps the permission under its key, with the same identifiers,
    and keeps the ledgers. *)
Lemma getPermission_keeps (now : Z) (id : string) (pm : PermissionManager)
    (p : ERC7715Permission) :
  permissions pm !! id = Some p ->
  exists p',
    fst (PM.getPermission now id pm) = Some p'
    /\ permissions (snd (PM.getPermission now id pm)) !! id = Some p'
    /\ perm_id p' = perm_id p
    /\ perm_smartAccountPermissionId p' = perm_smartAccountPermissionId p.
Proof.
  intros Hp. exists (set_status (lazyStatus now p) p).
  rewrite getPermission_stored, getPermission_fst, Hp.
  repeat split; reflexivity.
Qed.

Lemma externalExecution_same (env : RunEnv) (p q : ERC7715Permission) :
  perm_id p = perm_id q ->
  perm_smartAccountPermissionId p = perm_smartAccountPermissionId q ->
  externalExecution env p = externalExecution env q.
Proof. unfold externalExecution. intros -> ->. reflexivity. Qed.

Lemma queryGaiaLLM_snd (env : RunEnv) (intent : AgentIntent)
    (mc : MarketContext) (a : AgentExecutor) :
  snd (Agent.queryGaiaLLM env intent mc a)
  = setPM (afterQuery env intent a) (logCall CallQueryGaiaLLM a).
Proof.
  unfold Agent.queryGaiaLLM, afterQuery. simpl.
  destruct (_ || _); [destruct a; reflexivity|].
  destruct (PM.getPermission _ _ _) as [found pm'].
  destruct (provider env); reflexivity.
Qed.

(** The decision depends on the configuration, the provider, the amount
    and the market only. *)
Lemma queryGaiaLLM_decision (env : RunEnv) (intent : AgentIntent)
    (mc : MarketContext) (a1 a2 : AgentExecutor) :
  gaiaEndpoint a1 = gaiaEndpoint a2 ->
  gaiaApiKey a1 = gaiaApiKey a2 ->
  fst (Agent.queryGaiaLLM env intent mc a1)
  = fst (Agent.queryGaiaLLM env intent mc a2).
Proof.
  intros He Hk. unfold Agent.queryGaiaLLM. simpl. rewrite He, Hk.
  destruct (_ || _); [reflexivity|].
  destruct (PM.getPermission _ _ (permissionManager a1)).
  destruct (PM.getPermission _ _ (permissionManager a2)).
  destruct (provider env); reflexivity.
Qed.

Lemma afterQuery_keeps (env : RunEnv) (intent : AgentIntent)
    (a : AgentExecutor) (p : ERC7715Permission) :
  permissions (permissionManager a) !! permissionId intent = Some p ->
  spendTracking (afterQuery env intent a) = spendTracking (permissionManager a)
  /\ exists p',
       permissions (afterQuery env intent a) !! permissionId intent = Some p'
       /\ perm_id p' = perm_id p
       /\ perm_smartAccountPermissionId p' = perm_smartAccountPermissionId p.
Proof.
  intros Hp. unfold afterQuery. destruct (_ || _).
  - split; [reflexivity | exists p; repeat split; exact Hp].
  - split; [apply getPermission_spendTracking|].
    destruct (getPermission_keeps (now_llm env) _ _ _ Hp)
      as (p' & _ & H1 & H2 & H3).
    exists p'. repeat split; assumption.
Qed.

(** [sendTransaction] once the permission is known to exist. *)
Lemma sendTransaction_found (env : RunEnv) (ex : AgentExecution)
    (a : AgentExecutor) (p : ERC7715Permission) :
  permissions (permissionManager a) !! permissionId (ex_intent ex) = Some p ->
  exists a',
    Agent.sendTransaction env ex a = (externalExecution env p, a')
    /\ spendTracking (permissionManager a')
       = spendTracking (permissionManager a)
    /\ recordSpendCalls (calls a') = recordSpendCalls (calls a)
    /\ (forall r, externalExecution env p = Return r ->
        exists actual,
          calls a'
          = (calls a
             ++ [CallExecuteWithPermission (contractAddress (ex_intent ex))
                   actual])%list).
Proof.
  intros Hp. unfold Agent.sendTransaction.
  destruct (getPermission_keeps (now_exec env) _ _ _ Hp)
    as (p' & Hf & _ & Hid & Hsa).
  pose proof (getPermission_spendTracking (now_exec env)
                (permissionId (ex_intent ex)) (permissionManager a)) as Hst.
  destruct (PM.getPermission _ _ _) as [found pm1]. simpl in Hf, Hst.
  subst found. rewrite <- (externalExecution_same env p' p Hid Hsa).
  unfold externalExecution.
  destruct (saInitialized env) eqn:Hi; cbn [negb].
  - destruct (saHasPermission env (orElse _ _)) eqn:H1; cbn [orb].
    + eexists. split; [reflexivity|]. simpl.
      rewrite recordSpendCalls_app, Nat.add_0_r.
      repeat split; try assumption. intros r _. eexists. reflexivity.
    + destruct (saHasPermission env (perm_id p')) eqn:H2.
      * eexists. split; [reflexivity|]. simpl.
        rewrite recordSpendCalls_app, Nat.add_0_r.
        repeat split; try assumption. intros r _. eexists. reflexivity.
      * eexists. split; [reflexivity|]. simpl.
        repeat split; try assumption. intros r Hr. discriminate.
  - eexists. split; [reflexivity|]. simpl.
    repeat split; try assumption. intros r Hr. discriminate.
Qed.

Lemma recordSpend_found (now : Z) (pid amt hash : string)
    (pm : PermissionManager) (t : SpendTracking) :
  spendTracking pm !! pid = Some t ->
  PM.recordSpend now pid amt hash pm
  = (Return tt,
     {| permissions := permissions pm;
        spendTracking :=
          <[pid := ledgerAfterSpend now amt hash t]> (spendTracking pm) |}).
Proof. intros Ht. unfold PM.recordSpend. rewrite Ht. reflexivity. Qed.


Lemma executeTransaction_return (env : RunEnv) (ex : AgentExecution)
    (a : AgentExecutor) (p : ERC7715Permission) (res : TransactionResult)
    (t : SpendTracking) :
  let pid := permissionId (ex_intent ex) in
  let amt := amount (ex_intent ex) in
  permissions (permissionManager a) !! pid = Some p ->
  externalExecution env p = Return res ->
  spendTracking (permissionManager a) !! pid = Some t ->
  exists a' actual,
    Agent.executeTransaction env ex a
    = (Return tt,
       setExplanation
         ("Successfully executed gasless transaction: "
          ++ reasoning (ex_decision ex))
         (setStatus Executed
            (setTransaction (tr_hash res) (orElse (tr_gasUsed res) "0") ex)),
       a')
    /\ spendTracking (permissionManager a')
       = <[pid := ledgerAfterSpend (now_spend env) amt (tr_hash res) t]>
           (spendTracking (permissionManager a))
    /\ calls a'
       = (calls a
          ++ [CallExecuteWithPermission (contractAddress (ex_intent ex)) actual;
              CallRecordSpend pid amt (tr_hash res)])%list.
Proof.
  intros pid amt Hp Hx Ht.
  destruct (sendTransaction_found env ex a p Hp) as (a1 & Hs & Hst & _ & Hc).
  destruct (Hc res Hx) as [actual Hcalls].
  unfold Agent.executeTransaction. rewrite Hs, Hx.
  cbn [ex_intent setExplanation setStatus setTransaction].
  fold pid amt.
  assert (Ht1 : spendTracking (permissionManager a1) !! pid = Some t)
    by (rewrite Hst; exact Ht).
  change (permissionManager (logCall (CallRecordSpend pid amt (tr_hash res)) a1))
    with (permissionManager a1).
  rewrite (recordSpend_found _ _ _ _ _ _ Ht1).
  eexists. exists actual. split; [reflexivity|]. simpl.
  rewrite Hst, Hcalls, <- app_assoc. split; reflexivity.
Qed.

(** ** A run that executes (C3) *)

Lemma executedRun_transfer (env : RunEnv) (intent : AgentIntent)
    (a : AgentExecutor) (t : SpendTracking) (res : TransactionResult)
    (r1 r2 : AgentExecution * AgentExecutor) :
  report (fst r1) = report (fst r2) ->
  core (snd r1) = core (snd r2) ->
  executedRun env intent a t res r2 -> executedRun env intent a t res r1.
Proof.
  unfold report, core, executedRun.
  intros [= _ -> _ _ _ -> _ _] [= -> _ _ ->]. tauto.
Qed.

Lemma direct_executed (env : RunEnv) (intent : AgentIntent)
    (a : AgentExecutor) (p : ERC7715Permission) (t : SpendTracking)
    (mc : MarketContext) (res : TransactionResult) :
  connected env = true ->
  fst (PM.validateAction (now_expiry env) (now_window env)
         (permissionId intent) (tokenAddress intent) (amount intent)
         (contractAddress intent) (permissionManager a)) = true ->
  market env = Return mc ->
  shouldExecute (fst (Agent.queryGaiaLLM env intent mc a)) = true ->
  permissions (permissionManager a) !! permissionId intent = Some p ->
  externalExecution env p = Return res ->
  spendTracking (permissionManager a) !! permissionId intent = Some t ->
  executedRun env intent a t res (Agent.executeIntentDirectly env intent a).
Proof.
  intros Hc Hv Hm Hd Hp Hx Ht.
  unfold Agent.executeIntentDirectly. rewrite Hc. cbn [negb].
  cbn [permissionManager logCall].
  rewrite (validateAction_true _ _ _ _ _ _ _ Hv). cbn [negb].
  unfold Agent.gatherMarketContext. rewrite Hm.
  match goal with
  | |- context [Agent.queryGaiaLLM env intent mc ?A] => set (A1 := A)
  end.
  pose proof (queryGaiaLLM_snd env intent mc A1) as Hq2.
  pose proof (queryGaiaLLM_decision env intent mc A1 a eq_refl eq_refl) as Hq1.
  destruct (Agent.queryGaiaLLM env intent mc A1) as [d A2].
  simpl in Hq1, Hq2. rewrite <- Hq1 in Hd. rewrite Hd.
  destruct (afterQuery_keeps env intent A1 p Hp) as (Hst & p' & Hp' & Hid & Hsa).
  match goal with
  | |- context [Agent.executeTransaction env ?e A2] => set (ex := e)
  end.
  destruct (executeTransaction_return env ex A2 p' res t)
    as (a' & actual & Hrun & Hsp & Hcalls).
  { subst A2. exact Hp'. }
  { rewrite (externalExecution_same env p' p Hid Hsa). exact Hx. }
  { subst A2. cbn [permissionManager setPM]. rewrite Hst. exact Ht. }
  rewrite Hrun. unfold executedRun. cbn [fst snd]. subst A2.
  cbn [ex_intent ex setDecision permissionManager setPM setExecution calls
       logCall ex_status ex_transactionHash setExplanation setStatus
       setTransaction] in *.
  rewrite Hst in Hsp. subst A1. cbn [permissionManager setPM logCall calls] in *.
  split; [reflexivity|]. split; [reflexivity|]. split; [exact Hsp|].
  split.
  { eexists. eexists. rewrite Hsp, lookup_insert_eq.
    split; [reflexivity|]. repeat split; reflexivity. }
  rewrite Hcalls. rewrite <- !app_assoc. cbn [app].
  split.
  - rewrite recordSpendCalls_app. simpl. lia.
  - exists actual. reflexivity.
Qed.




(** ** A run in which a step raises (C4) *)





(* ===================================================================== *)
(** * Further properties of the code *)
(* ===================================================================== *)

(** ** Requests that [createPermission] accepts *)

Lemma positiveNumber_spec (x : JS.jsnum) :
  JS.isNaN x || JS.le x (JS.ofZ 0) = false <-> positiveNumber x.
Proof.
  destruct x as [|[]|q]; simpl; try (split; [discriminate | tauto || discriminate]).
  - split; reflexivity.
  - unfold JS.ofZ. destruct (Qle_bool q (inject_Z 0)) eqn:E.
    + apply Qle_bool_iff in E. split; [discriminate|].
      intros H. change (inject_Z 0) with 0%Q in E. lra.
    + split; [intros _ | reflexivity].
      destruct (Qlt_le_dec 0 q) as [H|H]; [exact H|].
      apply Qle_bool_iff in H. change (inject_Z 0) with 0%Q in E. congruence.
Qed.

Lemma firstInvalid_None (l : list string) :
  PM.firstInvalid l = None <-> Forall (fun a => PM.isValidAddress a = true) l.
Proof.
  induction l as [|a l IH]; simpl.
  - split; [constructor | reflexivity].
  - destruct (PM.isValidAddress a) eqn:E.
    + rewrite IH. split; [intros H; constructor; assumption|].
      intros H. inversion H; assumption.
    + split; [discriminate|]. intros H. inversion H; congruence.
Qed.


Lemma validatePermissionRequest_spec (request : PermissionRequest) :
  PM.validatePermissionRequest request = Return tt <-> validRequest request.
Proof.
  unfold PM.validatePermissionRequest, validRequest.
  destruct (PM.isValidAddress (req_tokenAddress request)) eqn:Et.
  2:{ rewrite orb_true_r. split; [discriminate | intros [H _]; discriminate]. }
  assert (Hne : String.eqb (req_tokenAddress request) "" = false).
  { destruct (req_tokenAddress request); [discriminate | reflexivity]. }
  rewrite Hne. cbn [negb orb].
  destruct (JS.isNaN _ || JS.le _ _) eqn:Ea.
  { split; [discriminate|]. intros (_ & Hp & _).
    apply positiveNumber_spec in Hp. congruence. }
  apply positiveNumber_spec in Ea.
  destruct (req_endTime request <=? req_startTime request)%Z eqn:Ew.
  { apply Z.leb_le in Ew. split; [discriminate|]. intros (_ & _ & Hw & _). lia. }
  apply Z.leb_gt in Ew.
  destruct (req_allowedContracts request) as [|c l] eqn:Ec.
  { split; [discriminate|]. intros (_ & _ & _ & Hn & _). congruence. }
  destruct (PM.firstInvalid (c :: l)) as [bad|] eqn:Ef.
  - split; [discriminate|]. intros (_ & _ & _ & _ & Hall).
    apply firstInvalid_None in Hall. congruence.
  - apply firstInvalid_None in Ef. split; [|reflexivity].
    intros _. repeat split; try assumption. discriminate.
Qed.

Lemma validatePermissionRequest_throws_Error (request : PermissionRequest)
    (e : thrown) :
  PM.validatePermissionRequest request = Throw e -> exists msg, e = ErrorObj msg.
Proof.
  unfold PM.validatePermissionRequest.
  repeat case_match; intros [= <-]; eauto.
Qed.



(** ** createPermission: all or nothing *)

(** X2: [createPermission] either returns an active permission, stored
    under the generated id together with a fresh ledger (totalSpent "0",
    remainingAllowance the requested maximum, no entries), every other
    entry being left alone, and this only for a connected wallet and a
    valid request; or it throws an [Error] and the manager is exactly as
    before. *)
Theorem createPermission_all_or_nothing (env : CreateEnv)
    (request : PermissionRequest) (pm : PermissionManager) :
  match PM.createPermission env request pm with
  | (Return p, pm') =>
      ce_connected env = true
      /\ validRequest request
      /\ perm_status p = active
      /\ perm_id p = ce_permissionId env
      /\ requestOf p = request
      /\ permissions pm' = <[ce_permissionId env := p]> (permissions pm)
      /\ spendTracking pm'
         = <[ce_permissionId env :=
               mkSpendTracking (ce_permissionId env) (JS.Lit "0")
                 (JS.Lit (req_maxSpendAmount request)) []]> (spendTracking pm)
  | (Throw e, pm') => pm' = pm /\ exists msg, e = ErrorObj msg
  end.
Proof.
  unfold PM.createPermission, PM.requestMetaMaskPermission,
    PM.validateWalletConnection.
  destruct (ce_connected env); cbn [negb]; [|split; eauto].
  destruct (PM.validatePermissionRequest request) as [[]|e] eqn:Ev.
  2:{ split; [reflexivity|].
      exact (validatePermissionRequest_throws_Error _ _ Ev). }
  apply validatePermissionRequest_spec in Ev.
  destruct (ce_initialized env); cbn [negb]; [|split; eauto].
  destruct (ce_grant env) as [g|e]; [|split; eauto].
  destruct (grant_success g); cbn [negb]; [|split; eauto].
  destruct request. repeat split; try reflexivity; apply Ev.
Qed.


(** ** When [validateAction] accepts *)

Lemma validateAction_accepts (now1 now2 : Z)
    (pid token amt contract : string) (pm : PermissionManager) :
  fst (PM.validateAction now1 now2 pid token amt contract pm) = true
  <-> Accepts now1 now2 pid token amt contract pm.
Proof.
  rewrite validateAction_fst. unfold Accepts.
  destruct (permissions pm !! pid) as [p|].
  - unfold withinBounds.
    rewrite !andb_true_iff, !negb_true_iff, orb_false_iff,
      PermissionStatus_eqb_eq, String.eqb_eq, isContractAllowed_spec,
      !Z.ltb_ge.
    split.
    + intros [[[[Hs Ht] Hc] Hl] [Hw1 Hw2]]. exists p.
      repeat split; try assumption.
      intros t Hlk. rewrite Hlk in Hl. exact Hl.
    + intros (p' & Hp & Hs & Ht & Hc & Hl & Hw1 & Hw2).
      injection Hp as <-. repeat split; try assumption.
      destruct (spendTracking pm !! pid) as [t|]; [|reflexivity].
      apply (Hl t eq_refl).
  - split; [discriminate | intros (p & Hp & _); discriminate].
Qed.

(** ** A permission just created *)

Lemma gt_from_zero (x y : JS.jsnum) :
  JS.gt (JS.add (JS.parseFloat "0") x) y = JS.gt x y.
Proof.
  change (JS.parseFloat "0") with (JS.Fin 0).
  destruct x as [|a|p], y as [|b|q]; try reflexivity.
  unfold JS.gt, JS.lt, JS.add. f_equal.
  destruct (Qle_bool p q) eqn:E.
  - apply Qle_bool_iff. apply Qle_bool_iff in E. lra.
  - destruct (Qle_bool (0 + p) q) eqn:E'; [|reflexivity].
    apply Qle_bool_iff in E'. assert (H : (p <= q)%Q) by lra.
    apply Qle_bool_iff in H. congruence.
Qed.

(** X3: a permission that [createPermission] has just returned validates
    an action on its own token towards any of its contracts, for every
    amount that is not greater than its maximum, as long as the clock is
    inside its window. *)
Theorem created_permission_validates (env : CreateEnv)
    (request : PermissionRequest) (pm pm' : PermissionManager)
    (p : ERC7715Permission) (now1 now2 : Z) (amt contract : string) :
  PM.createPermission env request pm = (Return p, pm') ->
  In contract (perm_allowedContracts p) ->
  JS.gt (JS.parseFloat amt) (JS.parseFloat (perm_maxSpendAmount p)) = false ->
  (now1 <= perm_endTime p)%Z ->
  (perm_startTime p <= now2 <= perm_endTime p)%Z ->
  PM.validateAction now1 now2 (perm_id p) (perm_tokenAddress p) amt contract pm'
  = (true, pm').
Proof.
  intros Hc Hin Hamt Hn1 Hn2.
  destruct (createPermission_success _ _ _ _ _ Hc) as (Hid & Hm & Hs & Hp & Ht).
  apply validateAction_true. apply validateAction_accepts.
  exists p. rewrite Hid, Hp, Ht, !lookup_insert_eq.
  split; [reflexivity|]. split.
  { unfold lazyStatus. rewrite Hs.
    destruct (perm_endTime p <? now1)%Z eqn:E; [|reflexivity].
    apply Z.ltb_lt in E. lia. }
  split; [reflexivity|]. split; [exists contract; split; [exact Hin | reflexivity]|].
  split; [|exact Hn2].
  intros t [= <-]. cbn [st_totalSpent JS.parseFloatS].
  rewrite gt_from_zero. exact Hamt.
Qed.

Lemma created_permission_validates_witness :
  PM.validateAction 500 500 "perm_1" tokenA "40" contractA pm1 = (true, pm1).
Proof.
  apply (created_permission_validates grantOk (request100 tokenA) emptyPM pm1
           perm1 500 500 "40" contractA);
    [vm_compute; reflexivity | left; reflexivity | vm_compute; reflexivity
    | vm_compute; discriminate | vm_compute; split; discriminate].
Defined.

(** ** revokePermission *)

Lemma revokePermission_returns (c : bool) (id : string)
    (pm pm' : PermissionManager) :
  PM.revokePermission c id pm = (Return tt, pm') ->
  c = true
  /\ exists p,
       permissions pm !! id = Some p
       /\ perm_status p = active
       /\ pm' = {| permissions := <[id := set_status revoked p]> (permissions pm);
                   spendTracking := spendTracking pm |}.
Proof.
  unfold PM.revokePermission, PM.validateWalletConnection.
  destruct c; cbn [negb]; [|discriminate].
  destruct (permissions pm !! id) as [p|]; [|discriminate].
  destruct (perm_status p) eqn:Hs; cbn; try discriminate.
  intros [= <-]. split; [reflexivity|]. exists p. repeat split. exact Hs.
Qed.

Lemma revoked_reads (now : Z) (id : string) (pm : PermissionManager)
    (p : ERC7715Permission) :
  permissions pm !! id = Some p ->
  perm_status p = revoked ->
  PM.getPermission now id pm = (Some p, pm).
Proof.
  intros Hp Hs. unfold PM.getPermission, PM.updatePermissionStatus.
  rewrite Hp, Hs. reflexivity.
Qed.

(** X4: revocation is final.  After a [revokePermission] that returned,
    every later read reports the permission as revoked whatever the clock
    says and writes nothing, [validateAction] on it returns false for every
    argument, and a second [revokePermission] throws. *)
Theorem revoked_is_final (c : bool) (id : string) (pm pm' : PermissionManager) :
  PM.revokePermission c id pm = (Return tt, pm') ->
  (forall now,
     perm_status <$> fst (PM.getPermission now id pm') = Some revoked
     /\ snd (PM.getPermission now id pm') = pm')
  /\ (forall now1 now2 token amt contract,
        PM.validateAction now1 now2 id token amt contract pm' = (false, pm'))
  /\ (forall c', exists msg,
        PM.revokePermission c' id pm' = (Throw (ErrorObj msg), pm')).
Proof.
  intros Hr. destruct (revokePermission_returns _ _ _ _ Hr)
    as (_ & p & Hp & Hs & ->).
  set (pm' := {| permissions := _; spendTracking := _ |}).
  assert (Hp' : permissions pm' !! id = Some (set_status revoked p))
    by apply lookup_insert_eq.
  assert (Hread : forall now,
            PM.getPermission now id pm' = (Some (set_status revoked p), pm'))
    by (intros now; apply revoked_reads; [exact Hp' | reflexivity]).
  split; [intros now; rewrite Hread; split; reflexivity|].
  split.
  - intros now1 now2 token amt contract. unfold PM.validateAction.
    rewrite Hread. reflexivity.
  - intros c'. unfold PM.revokePermission, PM.validateWalletConnection.
    destruct c'; cbn [negb]; [|eauto]. rewrite Hp'. cbn. eauto.
Qed.

Lemma revoked_is_final_witness :
  PM.validateAction 500 500 "perm_1" tokenA "40" contractA
    (snd (PM.revokePermission true "perm_1" pm1))
  = (false, snd (PM.revokePermission true "perm_1" pm1)).
Proof.
  apply (revoked_is_final true "perm_1" pm1
           (snd (PM.revokePermission true "perm_1" pm1))).
  vm_compute. reflexivity.
Defined.

(** X5: [revokePermission] never touches a ledger nor any other
    permission; when it throws, the manager is exactly as before, the
    error being the wallet message for a disconnected wallet, "Permission
    not found" for an unknown id and "Can only revoke active permissions"
    for a stored status other than active; when it returns, the stored
    status was active and is now revoked. *)
Theorem revokePermission_frame (c : bool) (id : string)
    (pm : PermissionManager) :
  let r := PM.revokePermission c id pm in
  spendTracking (snd r) = spendTracking pm
  /\ (forall k, k <> id -> permissions (snd r) !! k = permissions pm !! k)
  /\ match fst r with
     | Throw e =>
         snd r = pm
         /\ e = ErrorObj
                  (if negb c then
                     "Wallet not connected. Please connect your wallet to continue."
                   else match permissions pm !! id with
                        | None => "Permission not found"
                        | Some _ => "Can only revoke active permissions"
                        end)
         /\ (c = true ->
             forall p, permissions pm !! id = Some p -> perm_status p <> active)
     | Return _ =>
         c = true
         /\ exists p, permissions pm !! id = Some p
                      /\ perm_status p = active
                      /\ permissions (snd r) !! id = Some (set_status revoked p)
     end.
Proof.
  cbv zeta. unfold PM.revokePermission, PM.validateWalletConnection.
  destruct c; cbn [negb].
  2:{ repeat split; try reflexivity. discriminate. }
  destruct (permissions pm !! id) as [p|] eqn:Hp.
  2:{ repeat split; try reflexivity. intros _ p Hp'. discriminate. }
  destruct (perm_status p) eqn:Hs; cbn.
  - split; [reflexivity|]. split.
    { intros k Hk. apply lookup_insert_ne. congruence. }
    split; [reflexivity|]. exists p. rewrite lookup_insert_eq. auto.
  - repeat split; try reflexivity. intros _ p' [= <-]. congruence.
  - repeat split; try reflexivity. intros _ p' [= <-]. congruence.
  - repeat split; try reflexivity. intros _ p' [= <-]. congruence.
Qed.

Lemma revokePermission_frame_witness :
  fst (PM.revokePermission true "perm_1"
         (snd (PM.getPermission 2000 "perm_1" pm1)))
  = Throw (ErrorObj "Can only revoke active permissions").
Proof.
  pose proof (revokePermission_frame true "perm_1"
                (snd (PM.getPermission 2000 "perm_1" pm1))) as H.
  cbv zeta in H. destruct H as (_ & _ & H).
  destruct (fst (PM.revokePermission true "perm_1" _)) as [u|e] eqn:E.
  - vm_compute in E. discriminate.
  - destruct H as (_ & -> & _). vm_compute. reflexivity.
Defined.

(** ** recordSpend *)

(** X6: [recordSpend] never touches the permissions nor the ledger of
    another id.  Without a ledger for the id it throws "Spend tracking not
    found for permission" and changes nothing.  With one it returns,
    whatever the status of the permission and whatever the amount: the
    entries already recorded are kept in order, one entry is appended with
    the given time, amount and hash, and its remainingAfter is the new
    remainingAllowance. *)
Theorem recordSpend_frame (now : Z) (pid amt hash : string)
    (pm : PermissionManager) :
  let r := PM.recordSpend now pid amt hash pm in
  permissions (snd r) = permissions pm
  /\ (forall k, k <> pid -> spendTracking (snd r) !! k = spendTracking pm !! k)
  /\ match spendTracking pm !! pid with
     | None =>
         r = (Throw (ErrorObj "Spend tracking not found for permission"), pm)
     | Some t =>
         fst r = Return tt
         /\ exists t',
              spendTracking (snd r) !! pid = Some t'
              /\ st_permissionId t' = st_permissionId t
              /\ st_spendEntries t'
                 = (st_spendEntries t
                    ++ [mkSpendEntry now amt hash (st_remainingAllowance t')])%list
     end.
Proof.
  cbv zeta. unfold PM.recordSpend.
  destruct (spendTracking pm !! pid) as [t|] eqn:Ht; cbn.
  - split; [reflexivity|]. split.
    { intros k Hk. apply lookup_insert_ne. congruence. }
    split; [reflexivity|]. eexists. rewrite lookup_insert_eq.
    split; [reflexivity|]. split; reflexivity.
  - repeat split; reflexivity.
Qed.

(** ** validateAction: letter case, expiry, the cap *)

Lemma lowerChar_idempotent (c : ascii) :
  JS.lowerChar (JS.lowerChar c) = JS.lowerChar c.
Proof. destruct c as [[] [] [] [] [] [] [] []]; reflexivity. Qed.

Lemma toLowerCase_idempotent (s : string) :
  JS.toLowerCase (JS.toLowerCase s) = JS.toLowerCase s.
Proof.
  induction s as [|c s IH]; simpl; [reflexivity|].
  rewrite lowerChar_idempotent, IH. reflexivity.
Qed.

Lemma isContractAllowed_case (allowed : list string) (c1 c2 : string) :
  JS.toLowerCase c1 = JS.toLowerCase c2 ->
  PM.isContractAllowed allowed c1 = PM.isContractAllowed allowed c2.
Proof. unfold PM.isContractAllowed. intros ->. reflexivity. Qed.

(** X7: [validateAction] does not see the letter case of the token and
    contract arguments: two calls whose addresses are equal after
    lower-casing return the same answer and leave the same state; in
    particular an address and its lower-case form are interchangeable. *)
Theorem validateAction_case_insensitive (now1 now2 : Z)
    (pid token token' amt contract contract' : string)
    (pm : PermissionManager) :
  (JS.toLowerCase token = JS.toLowerCase token' ->
   JS.toLowerCase contract = JS.toLowerCase contract' ->
   PM.validateAction now1 now2 pid token amt contract pm
   = PM.validateAction now1 now2 pid token' amt contract' pm)
  /\ PM.validateAction now1 now2 pid (JS.toLowerCase token) amt
       (JS.toLowerCase contract) pm
     = PM.validateAction now1 now2 pid token amt contract pm.
Proof.
  assert (H : forall t1 t2 c1 c2,
    JS.toLowerCase t1 = JS.toLowerCase t2 ->
    JS.toLowerCase c1 = JS.toLowerCase c2 ->
    PM.validateAction now1 now2 pid t1 amt c1 pm
    = PM.validateAction now1 now2 pid t2 amt c2 pm).
  { intros t1 t2 c1 c2 Ht Hc.
    rewrite (surjective_pairing (PM.validateAction now1 now2 pid t1 amt c1 pm)),
      (surjective_pairing (PM.validateAction now1 now2 pid t2 amt c2 pm)).
    rewrite !validateAction_fst, !validateAction_snd.
    destruct (permissions pm !! pid) as [p|]; [|reflexivity].
    unfold withinBounds. rewrite Ht, (isContractAllowed_case _ c1 c2 Hc).
    reflexivity. }
  split; [apply H|]. apply H; apply toLowerCase_idempotent.
Qed.

Lemma validateAction_case_insensitive_witness :
  PM.validateAction 500 500 "perm_1" tokenLower "40" contractA
    (snd (PM.createPermission grantOk (request100 tokenMixed) emptyPM))
  = PM.validateAction 500 500 "perm_1" tokenMixed "40" contractA
      (snd (PM.createPermission grantOk (request100 tokenMixed) emptyPM)).
Proof.
  apply (validateAction_case_insensitive 500 500 "perm_1" tokenLower tokenMixed
           "40" contractA contractA); reflexivity.
Defined.

Lemma lazyStatus_set_final (now : Z) (s : PermissionStatus)
    (p : ERC7715Permission) :
  s <> active -> s <> pending -> lazyStatus now (set_status s p) = s.
Proof.
  unfold lazyStatus. destruct s; simpl; try congruence.
  destruct (perm_endTime p <? now)%Z; reflexivity.
Qed.

Lemma lazyStatus_lapsed (now : Z) (p : ERC7715Permission) :
  (perm_endTime p < now)%Z ->
  lazyStatus now p <> active /\ lazyStatus now p <> pending.
Proof.
  intros H. apply Z.ltb_lt in H. unfold lazyStatus. rewrite H.
  destruct (perm_status p); split; discriminate.
Qed.

(** X8: expiry is final.  A [validateAction] whose expiry read happens
    after the end time returns false, and from then on every
    [validateAction] on that permission returns false, whatever the clock
    reads later (even a clock set back inside the window) and whatever
    the arguments. *)
Theorem expired_stays_rejected (now1 now2 : Z)
    (pid token amt contract : string) (pm : PermissionManager)
    (p : ERC7715Permission) :
  permissions pm !! pid = Some p ->
  (perm_endTime p < now1)%Z ->
  let r := PM.validateAction now1 now2 pid token amt contract pm in
  fst r = false
  /\ forall n1 n2 token' amt' contract',
       fst (PM.validateAction n1 n2 pid token' amt' contract' (snd r)) = false.
Proof.
  intros Hp Hend. cbv zeta.
  destruct (lazyStatus_lapsed now1 p Hend) as [Ha Hq].
  split.
  - rewrite validateAction_fst, Hp. unfold withinBounds.
    destruct (lazyStatus now1 p); try congruence; reflexivity.
  - intros n1 n2 token' amt' contract'.
    rewrite validateAction_snd, validateAction_fst, getPermission_stored,
      getPermission_fst, Hp. simpl. unfold withinBounds.
    rewrite (lazyStatus_set_final n1 _ p Ha Hq).
    destruct (lazyStatus now1 p); try congruence; reflexivity.
Qed.

Lemma expired_stays_rejected_witness :
  fst (PM.validateAction 500 500 "perm_1" tokenA "40" contractA
         (snd (PM.validateAction 2000 2000 "perm_1" tokenA "40" contractA pm1)))
  = false.
Proof.
  apply (expired_stays_rejected 2000 2000 "perm_1" tokenA "40" contractA pm1
           perm1); [vm_compute; reflexivity | reflexivity].
Defined.




(** X10: an amount that does not parse is never stopped by the spend
    check: [validateAction] then returns true exactly when the permission
    is active after the expiry check, token and contract match, and the
    clock is in the window, whatever has been spent. *)
Theorem validateAction_amount_NaN (now1 now2 : Z)
    (pid token amt contract : string) (pm : PermissionManager) :
  JS.parseFloat amt = JS.NaN ->
  fst (PM.validateAction now1 now2 pid token amt contract pm) = true
  <-> exists p,
        permissions pm !! pid = Some p
        /\ lazyStatus now1 p = active
        /\ JS.toLowerCase (perm_tokenAddress p) = JS.toLowerCase token
        /\ PM.isContractAllowed (perm_allowedContracts p) contract = true
        /\ (perm_startTime p <= now2 <= perm_endTime p)%Z.
Proof.
  intros Hnan. rewrite validateAction_fst.
  destruct (permissions pm !! pid) as [p|].
  2:{ split; [discriminate | intros (p & Hp & _); discriminate]. }
  unfold withinBounds.
  assert (Hs : match spendTracking pm !! pid with
               | Some t => PM.spendLimitExceeded t amt p
               | None => false
               end = false).
  { destruct (spendTracking pm !! pid) as [t|]; [|reflexivity].
    unfold PM.spendLimitExceeded. rewrite Hnan.
    destruct (JS.parseFloatS (st_totalSpent t)) as [|[]|];
      destruct (JS.parseFloat (perm_maxSpendAmount p)) as [|[]|]; reflexivity. }
  rewrite Hs. cbn [negb].
  rewrite andb_true_r, !andb_true_iff, !negb_true_iff, orb_false_iff,
    PermissionStatus_eqb_eq, String.eqb_eq, !Z.ltb_ge.
  split.
  - intros [[[Ha Ht] Hc] Hw]. exists p. repeat split; tauto.
  - intros (p' & [= <-] & Ha & Ht & Hc & Hw). tauto.
Qed.

Lemma validateAction_amount_NaN_witness :
  fst (PM.validateAction 500 500 "perm_1" tokenA "lots" contractA
         (recordSpends "perm_1" [(1%Z, "100", "0xt1")] pm1)) = true.
Proof.
  apply (validateAction_amount_NaN 500 500 "perm_1" tokenA "lots" contractA
           (recordSpends "perm_1" [(1%Z, "100", "0xt1")] pm1) eq_refl).
  exists perm1. repeat split; vm_compute; try reflexivity; discriminate.
Defined.

(** ** The states of the manager *)

Lemma lazily_cases (now : Z) (p : ERC7715Permission) :
  lazily now p = if lapses now p then set_status expired p else p.
Proof.
  unfold lazily, lazyStatus, lapses.
  destruct (perm_status p) eqn:Hs; simpl;
    try destruct (perm_endTime p <? now)%Z; try reflexivity;
    rewrite <- Hs; apply set_status_same.
Qed.

(** One lazy update of the object stored under its own id. *)
Lemma updatePermissionStatus_own (now : Z) (k : string)
    (p : ERC7715Permission) (pm : PermissionManager) :
  perm_id p = k ->
  permissions pm !! k = Some p ->
  PM.updatePermissionStatus now k p pm
  = (lazily now p,
     {| permissions := <[k := lazily now p]> (permissions pm);
        spendTracking := spendTracking pm |}).
Proof.
  intros Hid Hp.
  rewrite (surjective_pairing (PM.updatePermissionStatus now k p pm)).
  rewrite updatePermissionStatus_fst, updatePermissionStatus_snd, lazily_cases.
  fold (lazily now p). rewrite lazily_cases.
  destruct (lapses now p).
  - simpl. rewrite Hid, insert_insert_eq. reflexivity.
  - rewrite (insert_id _ _ _ Hp). destruct pm; reflexivity.
Qed.

Lemma getPermission_own (now : Z) (k : string) (pm : PermissionManager)
    (p : ERC7715Permission) :
  perm_id p = k ->
  permissions pm !! k = Some p ->
  PM.getPermission now k pm
  = (Some (lazily now p),
     {| permissions := <[k := lazily now p]> (permissions pm);
        spendTracking := spendTracking pm |}).
Proof.
  intros Hid Hp. unfold PM.getPermission. rewrite Hp.
  rewrite (updatePermissionStatus_own now k p pm Hid Hp). reflexivity.
Qed.

Lemma getPermission_missing (now : Z) (k : string) (pm : PermissionManager) :
  permissions pm !! k = None -> PM.getPermission now k pm = (None, pm).
Proof. intros Hp. unfold PM.getPermission. rewrite Hp. reflexivity. Qed.

(** The loop of [getPermissions] over entries that are stored under
    their own ids in the state it starts from. *)
Lemma getPermissions_loop (now : Z) (l : list (string * ERC7715Permission)) :
  forall (l0 : list ERC7715Permission) (pm0 : PermissionManager),
  NoDup l.*1 ->
  (forall k p, (k, p) ∈ l -> perm_id p = k /\ permissions pm0 !! k = Some p) ->
  let step (acc : list ERC7715Permission * PermissionManager)
           (kp : string * ERC7715Permission) :=
    let '(p', pm') :=
      PM.updatePermissionStatus now (fst kp) (snd kp) (snd acc) in
    ((fst acc ++ [p'])%list, pm') in
  let r := fold_left step l (l0, pm0) in
  fst r = (l0 ++ (lazily now <$> l.*2))%list
  /\ spendTracking (snd r) = spendTracking pm0
  /\ forall k,
       permissions (snd r) !! k
       = if decide (k ∈ l.*1) then lazily now <$> (permissions pm0 !! k)
         else permissions pm0 !! k.
Proof.
  induction l as [|[k p] l IH]; intros l0 pm0 Hnd Hin; cbv zeta.
  - simpl. rewrite app_nil_r. repeat split.
  - cbn [fold_left fst snd].
    destruct (Hin k p ltac:(left)) as [Hid Hp].
    rewrite (updatePermissionStatus_own now k p pm0 Hid Hp).
    cbn [fmap list_fmap] in Hnd. apply NoDup_cons in Hnd as [Hk Hnd].
    set (pm1 := {| permissions := _; spendTracking := _ |}).
    destruct (IH (l0 ++ [lazily now p])%list pm1 Hnd) as (H1 & H2 & H3).
    { intros k' p' Hin'. destruct (Hin k' p' ltac:(right; exact Hin'))
        as [Hid' Hp']. split; [exact Hid'|].
      subst pm1. cbn. rewrite lookup_insert_ne; [exact Hp'|].
      intros ->. apply Hk. apply list_elem_of_fmap. exists (k', p'). auto. }
    cbv zeta in H1, H2, H3. rewrite H1, H2. split.
    { cbn. rewrite <- app_assoc. reflexivity. }
    split; [reflexivity|]. intros k'. rewrite H3.
    cbn [fmap list_fmap fst].
    destruct (decide (k' = k)) as [->|Hne].
    + destruct (decide (k ∈ l.*1)) as [Hc|_]; [contradiction|].
      destruct (decide (k ∈ k :: l.*1)) as [_|Hc]; [|exfalso; apply Hc; left].
      subst pm1. cbn. rewrite lookup_insert_eq, Hp. reflexivity.
    + subst pm1. cbn. rewrite lookup_insert_ne by congruence.
      destruct (decide (k' ∈ l.*1)) as [Hc|Hc].
      * destruct (decide (k' ∈ k :: l.*1)) as [_|Hc']; [reflexivity|].
        exfalso. apply Hc'. right. exact Hc.
      * destruct (decide (k' ∈ k :: l.*1)) as [Hc'|_]; [|reflexivity].
        apply elem_of_cons in Hc' as [?|?]; contradiction.
Qed.

Lemma getPermissions_spec (now : Z) (status : option PermissionStatus)
    (pm : PermissionManager) :
  (forall k p, permissions pm !! k = Some p -> perm_id p = k) ->
  PM.getPermissions now status pm
  = (let all := lazily now <$> (map_to_list (permissions pm)).*2 in
     match status with
     | Some s => List.filter (fun p => PermissionStatus_eqb (perm_status p) s) all
     | None => all
     end,
     {| permissions := lazily now <$> permissions pm;
        spendTracking := spendTracking pm |}).
Proof.
  intros Hids. unfold PM.getPermissions.
  pose proof (getPermissions_loop now (map_to_list (permissions pm)) [] pm
                (NoDup_fst_map_to_list _)) as H.
  cbv zeta in H. destruct H as (H1 & H2 & H3).
  { intros k p Hin. apply elem_of_map_to_list in Hin. split; [eauto | exact Hin]. }
  destruct (fold_left _ _ _) as [all pm'] eqn:E.
  cbn [fst snd] in H1, H2, H3. cbn [app] in H1. subst all.
  assert (Hpm : pm' = {| permissions := lazily now <$> permissions pm;
                         spendTracking := spendTracking pm |}).
  { destruct pm' as [ps st]. cbn in H2, H3. subst st. f_equal.
    apply map_eq. intros k. rewrite H3, lookup_fmap.
    destruct (decide (k ∈ (map_to_list (permissions pm)).*1)) as [Hc|Hc];
      [reflexivity|].
    destruct (permissions pm !! k) as [p|] eqn:Hp; [|reflexivity].
    exfalso. apply Hc. apply list_elem_of_fmap. exists (k, p).
    split; [reflexivity | apply elem_of_map_to_list; exact Hp]. }
  rewrite Hpm. destruct status; reflexivity.
Qed.

Lemma lazily_fields (now : Z) (p : ERC7715Permission) :
  perm_id (lazily now p) = perm_id p
  /\ requestOf (lazily now p) = requestOf p
  /\ perm_endTime (lazily now p) = perm_endTime p
  /\ perm_status (lazily now p) = lazyStatus now p.
Proof. repeat split. Qed.

Lemma lazyStatus_later (now : Z) (p : ERC7715Permission) :
  perm_status p <> pending ->
  laterStatus (perm_status p) (lazyStatus now p)
  /\ lazyStatus now p <> pending.
Proof.
  unfold laterStatus, lazyStatus. intros Hs.
  destruct (perm_status p); try congruence;
    destruct (perm_endTime p <? now)%Z; split; try discriminate; auto.
Qed.

Lemma lazyStatus_active (now : Z) (p : ERC7715Permission) :
  lazyStatus now p = active -> (now <= perm_endTime p)%Z.
Proof.
  unfold lazyStatus.
  destruct (perm_status p); destruct (perm_endTime p <? now)%Z eqn:E;
    try discriminate; intros _; apply Z.ltb_ge in E; exact E.
Qed.

(** X11: when every permission is stored under its own id,
    [getPermissions] stores the lazily updated form of every permission
    and touches no ledger; without filter it returns exactly those forms,
    with a filter exactly those whose updated status is the one asked for;
    in particular no permission returned as active has its end time
    behind the clock. *)
Theorem getPermissions_lazy (now : Z) (pm : PermissionManager) :
  (forall k p, permissions pm !! k = Some p -> perm_id p = k) ->
  (forall status,
     permissions (snd (PM.getPermissions now status pm))
     = lazily now <$> permissions pm
     /\ spendTracking (snd (PM.getPermissions now status pm))
        = spendTracking pm)
  /\ (forall p',
        p' ∈ fst (PM.getPermissions now None pm)
        <-> exists k p, permissions pm !! k = Some p /\ p' = lazily now p)
  /\ (forall s p',
        p' ∈ fst (PM.getPermissions now (Some s) pm)
        <-> exists k p, permissions pm !! k = Some p /\ p' = lazily now p
                        /\ lazyStatus now p = s)
  /\ (forall p',
        p' ∈ fst (PM.getPermissions now (Some active) pm) ->
        perm_status p' = active /\ (now <= perm_endTime p')%Z).
Proof.
  intros Hids.
  assert (Hall : forall p',
    p' ∈ lazily now <$> (map_to_list (permissions pm)).*2
    <-> exists k p, permissions pm !! k = Some p /\ p' = lazily now p).
  { intros p'. rewrite list_elem_of_fmap. split.
    - intros (p & -> & Hin). apply list_elem_of_fmap in Hin as ([k p0] & -> & Hin).
      apply elem_of_map_to_list in Hin. exists k, p0. auto.
    - intros (k & p & Hp & ->). exists p. split; [reflexivity|].
      apply list_elem_of_fmap. exists (k, p). split; [reflexivity|].
      apply elem_of_map_to_list. exact Hp. }
  assert (Hsome : forall s p',
    p' ∈ fst (PM.getPermissions now (Some s) pm)
    <-> exists k p, permissions pm !! k = Some p /\ p' = lazily now p
                    /\ lazyStatus now p = s).
  { intros s p'. rewrite (getPermissions_spec now (Some s) pm Hids).
    cbn [fst]. rewrite list_elem_of_In, filter_In, <- list_elem_of_In, Hall,
      PermissionStatus_eqb_eq.
    split.
    - intros [(k & p & Hp & ->) Hs]. exists k, p. auto.
    - intros (k & p & Hp & -> & Hs). split; [eauto | exact Hs]. }
  split; [intros status; rewrite (getPermissions_spec now status pm Hids);
          split; reflexivity|].
  split; [intros p'; rewrite (getPermissions_spec now None pm Hids); apply Hall|].
  split; [exact Hsome|].
  intros p' Hin. apply Hsome in Hin as (k & p & _ & -> & Hs).
  split; [exact Hs | exact (lazyStatus_active now p Hs)].
Qed.

Lemma pm1_stored_under_ids :
  forall k p, permissions pm1 !! k = Some p -> perm_id p = k.
Proof.
  intros k p H. simpl in H. apply lookup_singleton_Some in H as [<- <-].
  reflexivity.
Qed.

Lemma getPermissions_lazy_witness :
  set_status expired perm1 ∈ fst (PM.getPermissions 2000 None pm1)
  /\ forall p', p' ∈ fst (PM.getPermissions 2000 (Some active) pm1) ->
                (2000 <= perm_endTime p')%Z.
Proof.
  destruct (getPermissions_lazy 2000 pm1 pm1_stored_under_ids)
    as (_ & Hnone & _ & Hact).
  split.
  - apply Hnone. exists "perm_1", perm1. split; reflexivity.
  - intros p' Hin. apply (Hact p' Hin).
Defined.

(** *** Well-formedness is kept *)

Lemma wellFormed_empty : wellFormed emptyPM.
Proof. intros k p H. simpl in H. rewrite lookup_empty in H. discriminate. Qed.

Lemma wellFormed_restatus (pm : PermissionManager) (k : string)
    (p : ERC7715Permission) (s : PermissionStatus) :
  wellFormed pm ->
  permissions pm !! k = Some p ->
  s <> pending ->
  wellFormed {| permissions := <[k := set_status s p]> (permissions pm);
                spendTracking := spendTracking pm |}.
Proof.
  intros Hwf Hp Hs k' p' H. cbn in *.
  destruct (decide (k' = k)) as [->|Hne].
  - rewrite lookup_insert_eq in H. injection H as <-.
    destruct (Hwf k p Hp) as (H1 & H2 & _ & H4).
    split; [exact H1 | split; [exact H2 | split; [exact Hs | exact H4]]].
  - rewrite lookup_insert_ne in H by congruence. exact (Hwf k' p' H).
Qed.

Lemma wellFormed_lazily (now : Z) (pm : PermissionManager) :
  wellFormed pm ->
  wellFormed {| permissions := lazily now <$> permissions pm;
                spendTracking := spendTracking pm |}.
Proof.
  intros Hwf k p' H. cbn in *. rewrite lookup_fmap in H.
  destruct (permissions pm !! k) as [p|] eqn:Hp; [|discriminate].
  injection H as <-. destruct (Hwf k p Hp) as (H1 & H2 & H3 & H4).
  split; [exact H1 | split; [exact H2 | split; [| exact H4]]].
  apply (lazyStatus_later now p H3).
Qed.

Lemma wellFormed_ids (pm : PermissionManager) :
  wellFormed pm -> forall k p, permissions pm !! k = Some p -> perm_id p = k.
Proof. intros Hwf k p Hp. apply (Hwf k p Hp). Qed.

Lemma getPermission_wellFormed (now : Z) (id : string)
    (pm : PermissionManager) :
  wellFormed pm ->
  snd (PM.getPermission now id pm)
  = match permissions pm !! id with
    | Some p =>
        {| permissions := <[id := lazily now p]> (permissions pm);
           spendTracking := spendTracking pm |}
    | None => pm
    end.
Proof.
  intros Hwf. destruct (permissions pm !! id) as [p|] eqn:Hp.
  - rewrite (getPermission_own now id pm p (wellFormed_ids pm Hwf id p Hp) Hp).
    reflexivity.
  - rewrite (getPermission_missing now id pm Hp). reflexivity.
Qed.

Lemma createPermission_valid (env : CreateEnv) (request : PermissionRequest)
    (pm pm' : PermissionManager) (p : ERC7715Permission) :
  PM.createPermission env request pm = (Return p, pm') ->
  validRequest request /\ requestOf p = request.
Proof.
  unfold PM.createPermission, PM.requestMetaMaskPermission.
  destruct (PM.validateWalletConnection (ce_connected env)); [|discriminate].
  destruct (PM.validatePermissionRequest request) as [[]|] eqn:Ev;
    [|discriminate].
  apply validatePermissionRequest_spec in Ev.
  destruct (ce_initialized env); simpl; [|discriminate].
  destruct (ce_grant env) as [g|]; [|discriminate].
  destruct (grant_success g); simpl; [|discriminate].
  intros [= <- <-]. destruct request. split; [exact Ev | reflexivity].
Qed.

Lemma createPermission_throw_same (env : CreateEnv)
    (request : PermissionRequest) (pm : PermissionManager) (e : thrown) :
  fst (PM.createPermission env request pm) = Throw e ->
  snd (PM.createPermission env request pm) = pm.
Proof.
  unfold PM.createPermission, PM.requestMetaMaskPermission.
  repeat case_match; simpl; try discriminate; reflexivity.
Qed.

Lemma applyOp_wellFormed (op : Op) (pm : PermissionManager) :
  wellFormed pm -> wellFormed (applyOp op pm).
Proof.
  intros Hwf. destruct op as [env request|c id|now id|now status
                             |now1 now2 pid token amt contract|now pid amt hash];
    cbn [applyOp].
  - destruct (PM.createPermission env request pm) as [[p|e] pm'] eqn:Hc.
    + destruct (createPermission_success _ _ _ _ _ Hc)
        as (Hid & _ & Hs & Hp & Ht).
      destruct (createPermission_valid _ _ _ _ _ Hc) as (Hv & Hr).
      cbn [snd]. intros k p' H. rewrite Hp in H. rewrite Ht.
      destruct (decide (k = ce_permissionId env)) as [->|Hne].
      * rewrite lookup_insert_eq in H. injection H as <-.
        rewrite lookup_insert_eq. rewrite Hr.
        split; [exact Hid | split; [exact Hv | split; [congruence | eauto]]].
      * rewrite lookup_insert_ne in H by congruence.
        rewrite lookup_insert_ne by congruence. exact (Hwf k p' H).
    + pose proof (createPermission_throw_same env request pm e) as Hsame.
      rewrite Hc in Hsame. cbn in Hsame. cbn [snd]. rewrite Hsame;
        [exact Hwf | reflexivity].
  - destruct (PM.revokePermission c id pm) as [[[]|e] pm'] eqn:Hr.
    + destruct (revokePermission_returns _ _ _ _ Hr) as (_ & p & Hp & _ & ->).
      apply wellFormed_restatus; [assumption | assumption | discriminate].
    + revert Hr. unfold PM.revokePermission. repeat case_match;
        intros [= <- <-]; exact Hwf.
  - rewrite (getPermission_wellFormed now id pm Hwf).
    destruct (permissions pm !! id) as [p|] eqn:Hp; [|exact Hwf].
    apply wellFormed_restatus; [assumption | assumption|].
    apply (lazyStatus_later now p). apply (Hwf id p Hp).
  - rewrite (getPermissions_spec now status pm (wellFormed_ids pm Hwf)).
    apply wellFormed_lazily. exact Hwf.
  - rewrite validateAction_snd, (getPermission_wellFormed now1 pid pm Hwf).
    destruct (permissions pm !! pid) as [p|] eqn:Hp; [|exact Hwf].
    apply wellFormed_restatus; [assumption | assumption|].
    apply (lazyStatus_later now1 p). apply (Hwf pid p Hp).
  - unfold PM.recordSpend.
    destruct (spendTracking pm !! pid) as [t|] eqn:Ht; [|exact Hwf].
    cbn. intros k p H. cbn in *.
    destruct (Hwf k p H) as (H1 & H2 & H3 & t0 & H4 & H5).
    split; [exact H1 | split; [exact H2 | split; [exact H3 |]]].
    destruct (decide (k = pid)) as [->|Hne].
    + rewrite lookup_insert_eq. eexists. split; [reflexivity|]. cbn. congruence.
    + rewrite lookup_insert_ne by congruence. eauto.
Qed.

Lemma applyOps_wellFormed (ops : list Op) (pm : PermissionManager) :
  wellFormed pm -> wellFormed (applyOps ops pm).
Proof.
  revert pm. induction ops as [|op ops IH]; intros pm Hwf; [exact Hwf|].
  apply IH, applyOp_wellFormed, Hwf.
Qed.

(** X12: starting from an empty manager, after any sequence of
    [createPermission], [revokePermission], [getPermission],
    [getPermissions], [validateAction] and [recordSpend] calls, whatever
    they return or throw, every permission is stored under its own id,
    still satisfies the validation of its creation, is never pending, and
    has a spend ledger carrying its id; each single operation keeps this. *)
Theorem manager_stays_wellFormed (ops : list Op) :
  wellFormed (applyOps ops emptyPM)
  /\ forall op pm, wellFormed pm -> wellFormed (applyOp op pm).
Proof.
  split; [apply applyOps_wellFormed, wellFormed_empty|].
  intros op pm. apply applyOp_wellFormed.
Qed.

Lemma manager_stays_wellFormed_witness :
  wellFormed (applyOp (OpRevoke true "perm_1") pm1).
Proof.
  destruct (manager_stays_wellFormed
              [OpCreate grantOk (request100 tokenA)]) as [Hreach Hstep].
  apply Hstep. exact Hreach.
Defined.

(** *** The life of a stored permission *)

Lemma laterStatus_refl (s : PermissionStatus) : laterStatus s s.
Proof. left. reflexivity. Qed.

Lemma laterStatus_trans (a b c : PermissionStatus) :
  laterStatus a b -> laterStatus b c -> laterStatus a c.
Proof.
  unfold laterStatus.
  intros [->|[-> Hb]] [->|[Hb' Hc]]; auto;
    destruct Hb; congruence.
Qed.

Lemma set_status_twice (s s' : PermissionStatus) (p : ERC7715Permission) :
  set_status s' (set_status s p) = set_status s' p.
Proof. reflexivity. Qed.

Lemma applyOp_status (op : Op) (pm : PermissionManager) (k : string)
    (p : ERC7715Permission) :
  wellFormed pm ->
  freshCreate op pm ->
  permissions pm !! k = Some p ->
  exists s',
    permissions (applyOp op pm) !! k = Some (set_status s' p)
    /\ laterStatus (perm_status p) s'.
Proof.
  intros Hwf Hfresh Hp.
  assert (Hsame : permissions pm !! k = Some (set_status (perm_status p) p))
    by (rewrite set_status_same; exact Hp).
  assert (Hlazy : forall now,
            laterStatus (perm_status p) (lazyStatus now p))
    by (intros now; apply lazyStatus_later; apply (Hwf k p Hp)).
  destruct op as [env request|c id|now id|now status
                 |now1 now2 pid token amt contract|now pid amt hash];
    cbn [applyOp freshCreate] in *.
  - exists (perm_status p). split; [|apply laterStatus_refl].
    destruct (PM.createPermission env request pm) as [[q|e] pm'] eqn:Hc.
    + destruct (createPermission_success _ _ _ _ _ Hc) as (_ & _ & _ & Hq & _).
      cbn [snd]. rewrite Hq, lookup_insert_ne; [exact Hsame|].
      intros E. rewrite E in Hfresh. congruence.
    + pose proof (createPermission_throw_same env request pm e) as Hs.
      rewrite Hc in Hs. cbn in Hs. cbn [snd]. rewrite Hs;
        [exact Hsame | reflexivity].
  - destruct (PM.revokePermission c id pm) as [[[]|e] pm'] eqn:Hr.
    + destruct (revokePermission_returns _ _ _ _ Hr) as (_ & q & Hq & Hs & ->).
      cbn. destruct (decide (k = id)) as [->|Hne].
      * rewrite Hq in Hp. injection Hp as ->.
        exists revoked. rewrite lookup_insert_eq. split; [reflexivity|].
        right. auto.
      * exists (perm_status p). rewrite lookup_insert_ne by congruence.
        split; [exact Hsame | apply laterStatus_refl].
    + exists (perm_status p). split; [|apply laterStatus_refl].
      revert Hr. unfold PM.revokePermission. repeat case_match;
        intros [= <- <-]; exact Hsame.
  - rewrite (getPermission_wellFormed now id pm Hwf).
    destruct (decide (k = id)) as [->|Hne].
    + rewrite Hp. cbn. exists (lazyStatus now p). rewrite lookup_insert_eq.
      split; [reflexivity | apply Hlazy].
    + exists (perm_status p). split; [|apply laterStatus_refl].
      destruct (permissions pm !! id); [|exact Hsame].
      cbn. rewrite lookup_insert_ne by congruence. exact Hsame.
  - rewrite (getPermissions_spec now status pm (wellFormed_ids pm Hwf)).
    cbn. exists (lazyStatus now p). rewrite lookup_fmap, Hp.
    split; [reflexivity | apply Hlazy].
  - rewrite validateAction_snd, (getPermission_wellFormed now1 pid pm Hwf).
    destruct (decide (k = pid)) as [->|Hne].
    + rewrite Hp. cbn. exists (lazyStatus now1 p). rewrite lookup_insert_eq.
      split; [reflexivity | apply Hlazy].
    + exists (perm_status p). split; [|apply laterStatus_refl].
      destruct (permissions pm !! pid); [|exact Hsame].
      cbn. rewrite lookup_insert_ne by congruence. exact Hsame.
  - exists (perm_status p). split; [|apply laterStatus_refl].
    unfold PM.recordSpend. destruct (spendTracking pm !! pid); exact Hsame.
Qed.

Lemma applyOps_status (ops : list Op) (pm : PermissionManager)
    (k : string) (p : ERC7715Permission) :
  wellFormed pm ->
  freshCreates ops pm ->
  permissions pm !! k = Some p ->
  exists s',
    permissions (applyOps ops pm) !! k = Some (set_status s' p)
    /\ laterStatus (perm_status p) s'.
Proof.
  revert pm p. induction ops as [|op ops IH]; intros pm p Hwf Hfresh Hp.
  - exists (perm_status p). cbn. rewrite set_status_same.
    split; [exact Hp | apply laterStatus_refl].
  - destruct Hfresh as [Hf Hrest].
    destruct (applyOp_status op pm k p Hwf Hf Hp) as (s1 & H1 & L1).
    destruct (IH (applyOp op pm) (set_status s1 p)
                (applyOp_wellFormed op pm Hwf) Hrest H1) as (s2 & H2 & L2).
    exists s2. cbn [applyOps fold_left]. fold (applyOps ops (applyOp op pm)).
    rewrite H2, set_status_twice. split; [reflexivity|].
    apply (laterStatus_trans _ s1); assumption.
Qed.

(** X13: the life of a stored permission.  From a well-formed manager and
    through any sequence of operations whose creations draw unused ids, a
    stored permission is never removed and nothing but its status ever
    changes; the status stays as it is or goes from active to expired or
    to revoked, so expired and revoked are final. *)
Theorem stored_permission_life (ops : list Op) (pm : PermissionManager)
    (k : string) (p : ERC7715Permission) :
  wellFormed pm ->
  freshCreates ops pm ->
  permissions pm !! k = Some p ->
  exists s',
    permissions (applyOps ops pm) !! k = Some (set_status s' p)
    /\ laterStatus (perm_status p) s'
    /\ (perm_status p <> active -> s' = perm_status p).
Proof.
  intros Hwf Hfresh Hp.
  destruct (applyOps_status ops pm k p Hwf Hfresh Hp) as (s' & H & L).
  exists s'. split; [exact H|]. split; [exact L|].
  intros Hna. destruct L as [->|[Ha _]]; [reflexivity | congruence].
Qed.

Lemma stored_permission_life_witness :
  exists s',
    permissions
      (applyOps [OpValidate 2000 2000 "perm_1" tokenA "40" contractA;
                 OpRevoke true "perm_1"; OpGet 100 "perm_1"] pm1) !! "perm_1"
    = Some (set_status s' perm1)
    /\ laterStatus active s'.
Proof.
  destruct (stored_permission_life
              [OpValidate 2000 2000 "perm_1" tokenA "40" contractA;
               OpRevoke true "perm_1"; OpGet 100 "perm_1"] pm1 "perm_1" perm1)
    as (s' & H1 & H2 & _).
  - apply (applyOps_wellFormed [OpCreate grantOk (request100 tokenA)] emptyPM).
    apply wellFormed_empty.
  - cbn. auto.
  - reflexivity.
  - exists s'. split; [exact H1 | exact H2].
Defined.

(** ** Runs of the pipeline *)

Lemma executeCalls_app (l1 l2 : list Call) :
  executeCalls (l1 ++ l2) = (executeCalls l1 + executeCalls l2)%nat.
Proof.
  induction l1 as [|c l1 IH]; simpl; [reflexivity|].
  destruct c; simpl; rewrite IH; reflexivity.
Qed.

Lemma applyOps_app (ops1 ops2 : list Op) (pm : PermissionManager) :
  applyOps (ops1 ++ ops2) pm = applyOps ops2 (applyOps ops1 pm).
Proof. unfold applyOps. apply fold_left_app. Qed.

Lemma byOperations_refl (pm : PermissionManager) : byOperations pm pm.
Proof. exists []. split; [reflexivity | constructor]. Qed.

Lemma byOperations_trans (pm1 pm2 pm3 : PermissionManager) :
  byOperations pm1 pm2 -> byOperations pm2 pm3 -> byOperations pm1 pm3.
Proof.
  intros (o1 & -> & F1) (o2 & -> & F2). exists (o1 ++ o2)%list.
  split; [symmetry; apply applyOps_app | apply Forall_app; auto].
Qed.

Lemma byOperations_one (op : Op) (pm : PermissionManager) :
  readsOrRecords op -> byOperations pm (applyOp op pm).
Proof.
  intros H. exists [op]. split; [reflexivity | repeat constructor; exact H].
Qed.

Lemma getPermissions_spendTracking (now : Z)
    (status : option PermissionStatus) (pm : PermissionManager) :
  spendTracking (snd (PM.getPermissions now status pm)) = spendTracking pm.
Proof.
  unfold PM.getPermissions.
  assert (H : forall l acc,
    spendTracking
      (snd (fold_left
              (fun (acc : list ERC7715Permission * PermissionManager)
                   (kp : string * ERC7715Permission) =>
                 let '(p', pm') :=
                   PM.updatePermissionStatus now (fst kp) (snd kp) (snd acc) in
                 ((fst acc ++ [p'])%list, pm')) l acc))
    = spendTracking (snd acc)).
  { induction l as [|kp l IH]; intros acc; [reflexivity|].
    cbn [fold_left]. rewrite IH.
    pose proof (updatePermissionStatus_spendTracking now (fst kp) (snd kp)
                  (snd acc)) as Hs.
    destruct (PM.updatePermissionStatus _ _ _ _). exact Hs. }
  specialize (H (map_to_list (permissions pm)) ([], pm)).
  destruct (fold_left _ _ _) as [all pm']. cbn in H.
  destruct status; exact H.
Qed.

Lemma afterQuery_spendTracking (env : RunEnv) (intent : AgentIntent)
    (a : AgentExecutor) :
  spendTracking (afterQuery env intent a) = spendTracking (permissionManager a)
  /\ byOperations (permissionManager a) (afterQuery env intent a).
Proof.
  unfold afterQuery. destruct (_ || _).
  - split; [reflexivity | apply byOperations_refl].
  - split; [apply getPermission_spendTracking|].
    apply (byOperations_one (OpGet (now_llm env) (permissionId intent))).
    exact I.
Qed.

(** What [sendTransaction] leaves, whatever it returns. *)
Lemma sendTransaction_frame (env : RunEnv) (ex : AgentExecution)
    (a : AgentExecutor) :
  let r := Agent.sendTransaction env ex a in
  executions (snd r) = executions a
  /\ registry (snd r) = registry a
  /\ spendTracking (permissionManager (snd r))
     = spendTracking (permissionManager a)
  /\ byOperations (permissionManager a) (permissionManager (snd r))
  /\ recordSpendCalls (calls (snd r)) = recordSpendCalls (calls a)
  /\ match fst r with
     | Return _ => executeCalls (calls (snd r)) = S (executeCalls (calls a))
     | Throw e =>
         (exists msg, e = ErrorObj msg)
         /\ executeCalls (calls (snd r)) <= S (executeCalls (calls a))
     end.
Proof.
  cbv zeta. unfold Agent.sendTransaction.
  pose proof (getPermission_spendTracking (now_exec env)
                (permissionId (ex_intent ex)) (permissionManager a)) as Hs.
  pose proof (byOperations_one
                (OpGet (now_exec env) (permissionId (ex_intent ex)))
                (permissionManager a) I) as Hb.
  cbn [applyOp] in Hb.
  destruct (PM.getPermission _ _ _) as [[p|] pm1]; cbn [snd] in Hs, Hb.
  - destruct (saInitialized env) eqn:Hi; cbn [negb].
    2:{ destruct a; cbn. repeat split; eauto. }
    destruct (saHasPermission env (orElse _ _)).
    + destruct a; cbn in *. rewrite recordSpendCalls_app, executeCalls_app.
      cbn. repeat split; try assumption; try lia.
      repeat case_match; simplify_eq; first [lia | split; [eauto | lia]].
    + destruct (saHasPermission env (perm_id p)).
      * destruct a; cbn in *. rewrite recordSpendCalls_app, executeCalls_app.
        cbn. repeat split; try assumption; try lia.
        repeat case_match; simplify_eq; first [lia | split; [eauto | lia]].
      * destruct a; cbn in *. repeat split; eauto.
  - pose proof (getPermissions_spendTracking (now_list env) None pm1) as Hs2.
    pose proof (byOperations_one (OpList (now_list env) None) pm1 I) as Hb2.
    cbn [applyOp] in Hb2.
    cbn [permissionManager setPM].
    destruct (PM.getPermissions _ _ _) as [l pm2]. cbn [snd] in Hs2, Hb2.
    destruct a; cbn in *. repeat split; eauto; try congruence.
    apply (byOperations_trans _ pm1); assumption.
Qed.

(** What [executeTransaction] leaves, whatever it returns. *)
Lemma executeTransaction_frame (env : RunEnv) (ex : AgentExecution)
    (a : AgentExecutor) :
  let r := Agent.executeTransaction env ex a in
  let ex' := snd (fst r) in
  executions (snd r) = executions a
  /\ registry (snd r) = registry a
  /\ byOperations (permissionManager a) (permissionManager (snd r))
  /\ ex_id ex' = ex_id ex
  /\ ex_intent ex' = ex_intent ex
  /\ ex_decision ex' = ex_decision ex
  /\ match fst (fst r) with
     | Return _ =>
         ex_status ex' = Executed
         /\ (exists h, ex_transactionHash ex' = Some h)
         /\ ex_error ex' = ex_error ex
         /\ executeCalls (calls (snd r)) = S (executeCalls (calls a))
         /\ recordSpendCalls (calls (snd r)) = S (recordSpendCalls (calls a))
     | Throw e =>
         ex_status ex' = Failed
         /\ (exists msg, e = ErrorObj msg)
         /\ spendTracking (permissionManager (snd r))
            = spendTracking (permissionManager a)
     end.
Proof.
  cbv zeta. unfold Agent.executeTransaction.
  pose proof (sendTransaction_frame env ex a) as H. cbv zeta in H.
  destruct (Agent.sendTransaction env ex a) as [[res|e] a1];
    cbn [fst snd] in H; destruct H as (He & Hr & Hs & Hb & Hn & Hx).
  - cbn [ex_intent setExplanation setStatus setTransaction permissionManager
         logCall].
    pose proof (byOperations_one
                  (OpRecord (now_spend env) (permissionId (ex_intent ex))
                     (amount (ex_intent ex)) (tr_hash res))
                  (permissionManager a1) I) as Hb2.
    cbn [applyOp] in Hb2.
    assert (Hthrow : forall e,
      fst (PM.recordSpend (now_spend env) (permissionId (ex_intent ex))
             (amount (ex_intent ex)) (tr_hash res) (permissionManager a1))
      = Throw e ->
      snd (PM.recordSpend (now_spend env) (permissionId (ex_intent ex))
             (amount (ex_intent ex)) (tr_hash res) (permissionManager a1))
      = permissionManager a1 /\ exists msg, e = ErrorObj msg).
    { unfold PM.recordSpend. destruct (spendTracking _ !! _); cbn;
        [discriminate | intros e [= <-]; eauto]. }
    destruct (PM.recordSpend _ _ _ _ _) as [[u|e] pm2]; cbn [fst snd] in *.
    + destruct a1 as [pmA ? ? ? ? ? ? ?]; cbn in *.
      rewrite recordSpendCalls_app, executeCalls_app.
      cbn. repeat split; eauto; try lia.
      apply (byOperations_trans _ pmA); assumption.
    + destruct (Hthrow e eq_refl) as [-> Hmsg].
      destruct a1; cbn in *. repeat split; eauto.
  - destruct Hx as [Hmsg _]. cbn. repeat split; eauto.
Qed.

Lemma queryGaiaLLM_frame (env : RunEnv) (intent : AgentIntent)
    (mc : MarketContext) (a : AgentExecutor) :
  let a' := snd (Agent.queryGaiaLLM env intent mc a) in
  executions a' = executions a
  /\ registry a' = registry a
  /\ spendTracking (permissionManager a') = spendTracking (permissionManager a)
  /\ byOperations (permissionManager a) (permissionManager a')
  /\ executeCalls (calls a') = executeCalls (calls a)
  /\ recordSpendCalls (calls a') = recordSpendCalls (calls a).
Proof.
  cbv zeta. rewrite queryGaiaLLM_snd.
  destruct (afterQuery_spendTracking env intent (logCall CallQueryGaiaLLM a))
    as [Hs Hb].
  destruct a; cbn in *. rewrite recordSpendCalls_app, executeCalls_app. cbn.
  repeat split; try assumption; lia.
Qed.

Lemma validateAction_byOperations (now1 now2 : Z)
    (pid token amt contract : string) (pm : PermissionManager) :
  byOperations pm (snd (PM.validateAction now1 now2 pid token amt contract pm))
  /\ spendTracking (snd (PM.validateAction now1 now2 pid token amt contract pm))
     = spendTracking pm.
Proof.
  split.
  - apply (byOperations_one (OpValidate now1 now2 pid token amt contract)).
    exact I.
  - rewrite validateAction_snd. apply getPermission_spendTracking.
Qed.

(** Every run of the scheduled path is settled. *)
Lemma direct_settled (env : RunEnv) (intent : AgentIntent)
    (a : AgentExecutor) :
  let r := Agent.executeIntentDirectly env intent a in
  settledRun env a r
  /\ registry (snd r) = registry a
  /\ ex_intent (fst r) = intent
  /\ byOperations (permissionManager a) (permissionManager (snd r)).
Proof.
  cbv zeta. unfold Agent.executeIntentDirectly, settledRun.
  destruct (connected env); cbn [negb].
  2:{ cbn. repeat split; eauto. apply byOperations_refl. }
  cbn [permissionManager logCall].
  destruct (validateAction_byOperations (now_expiry env) (now_window env)
              (permissionId intent) (tokenAddress intent) (amount intent)
              (contractAddress intent) (permissionManager a)) as [Hvb Hvs].
  destruct (PM.validateAction _ _ _ _ _ _ _) as [ok pm1]. cbn [snd] in Hvb, Hvs.
  destruct ok; cbn [negb].
  2:{ destruct a; unfold registry in *; cbn in *. rewrite recordSpendCalls_app, executeCalls_app.
      cbn. repeat split; eauto; lia. }
  unfold Agent.gatherMarketContext.
  destruct (market env) as [mc|e].
  2:{ destruct a; unfold registry in *; cbn in *. repeat split; eauto. }
  match goal with
  | |- context [Agent.queryGaiaLLM env intent mc ?A] => set (A1 := A)
  end.
  pose proof (queryGaiaLLM_frame env intent mc A1) as Hq. cbv zeta in Hq.
  destruct (Agent.queryGaiaLLM env intent mc A1) as [d A2]. cbn [snd] in Hq.
  destruct Hq as (Hqe & Hqr & Hqs & Hqb & Hqx & Hqn).
  assert (HA1 : executions A1 = executions a /\ registry A1 = registry a
                /\ permissionManager A1 = pm1
                /\ executeCalls (calls A1) = executeCalls (calls a)
                /\ recordSpendCalls (calls A1) = recordSpendCalls (calls a)).
  { subst A1. destruct a; unfold registry; cbn. rewrite !recordSpendCalls_app, !executeCalls_app.
    cbn. repeat split; lia. }
  destruct HA1 as (H1e & H1r & H1p & H1x & H1n). clearbody A1.
  rewrite H1p in Hqs, Hqb.
  assert (Hb2 : byOperations (permissionManager a) (permissionManager A2))
    by (apply (byOperations_trans _ pm1); assumption).
  destruct (shouldExecute d) eqn:Hd.
  2:{ destruct A2; unfold registry in *; cbn in *. repeat split; eauto; congruence. }
  match goal with
  | |- context [Agent.executeTransaction env ?x A2] => set (ex := x)
  end.
  pose proof (executeTransaction_frame env ex A2) as Ht. cbv zeta in Ht.
  destruct (Agent.executeTransaction env ex A2) as [[o ex'] A3].
  cbn [fst snd] in Ht.
  destruct Ht as (Hte & Htr & Htb & Htid & Hti & Htd & Hto).
  assert (Hb3 : byOperations (permissionManager a) (permissionManager A3))
    by (apply (byOperations_trans _ (permissionManager A2)); assumption).
  destruct o as [u|e].
  - destruct Hto as (Hst & Hh & Herr & Hx & Hn).
    destruct A3; unfold registry in *; cbn in *. rewrite Hst.
    repeat split; eauto; try congruence.
  - destruct Hto as (Hst & Hmsg & Hs).
    destruct A3; unfold registry in *; cbn in *. repeat split; eauto; congruence.
Qed.

Lemma preambleState_executions (env : RunEnv) (intent : AgentIntent)
    (a : AgentExecutor) :
  executions (preambleState env intent a) = executions a.
Proof.
  unfold preambleState, Agent.scheduleRecurringIntent.
  repeat case_match; reflexivity.
Qed.

Lemma settledRun_rebase (env : RunEnv) (a a0 : AgentExecutor)
    (r : AgentExecution * AgentExecutor) :
  core a0 = core a ->
  executions a0 = executions a ->
  settledRun env a0 r -> settledRun env a r.
Proof.
  unfold core, settledRun. intros [= -> _ _ ->] ->. tauto.
Qed.

(** X14: every run is settled.  Whatever the collaborators do, both
    [processIntent] and [executeIntentDirectly] return an execution that
    carries the generated id, is no longer pending and is stored in the
    history under that id.  An executed one has a transaction hash, an
    approving decision, no error, and exactly one transaction sent and one
    spend recorded; a blocked one has no hash and no error, a refusing
    decision, no transaction sent, no spend recorded and every ledger as
    before; a failed one has an error message and every ledger as before. *)
Theorem every_run_is_settled (env : RunEnv) (intent : AgentIntent)
    (a : AgentExecutor) :
  settledRun env a (Agent.processIntent env intent a)
  /\ settledRun env a (Agent.executeIntentDirectly env intent a).
Proof.
  split; [|apply direct_settled].
  destruct (connected env) eqn:Hc.
  - rewrite (processIntent_connected env intent a Hc).
    apply (settledRun_rebase env a (preambleState env intent a));
      [apply preambleState_core | apply preambleState_executions|].
    apply direct_settled.
  - unfold Agent.processIntent, settledRun. rewrite Hc. cbn.
    repeat split; eauto.
Qed.

Lemma readsOrRecords_fresh (ops : list Op) (pm : PermissionManager) :
  Forall readsOrRecords ops -> freshCreates ops pm.
Proof.
  revert pm. induction ops as [|op ops IH]; intros pm H; [exact I|].
  inversion H as [|? ? Hop Hrest]; subst. split; [|apply IH; exact Hrest].
  destruct op; try exact I; destruct Hop.
Qed.

Lemma readsOrRecords_status (op : Op) (pm : PermissionManager) (k : string)
    (p : ERC7715Permission) :
  wellFormed pm -> readsOrRecords op ->
  permissions pm !! k = Some p ->
  exists s',
    permissions (applyOp op pm) !! k = Some (set_status s' p)
    /\ (s' = perm_status p \/ (perm_status p = active /\ s' = expired)).
Proof.
  intros Hwf Hop Hp.
  assert (Hsame : permissions pm !! k = Some (set_status (perm_status p) p))
    by (rewrite set_status_same; exact Hp).
  assert (Hlazy : forall now,
            lazyStatus now p = perm_status p
            \/ (perm_status p = active /\ lazyStatus now p = expired)).
  { intros now. unfold lazyStatus. destruct (Hwf k p Hp) as (_ & _ & Hn & _).
    destruct (perm_status p); try congruence;
      destruct (perm_endTime p <? now)%Z; auto. }
  destruct op as [env request|c id|now id|now status
                 |now1 now2 pid token amt contract|now pid amt hash];
    cbn [applyOp readsOrRecords] in *; try contradiction.
  - rewrite (getPermission_wellFormed now id pm Hwf).
    destruct (decide (k = id)) as [->|Hne].
    + rewrite Hp. cbn. exists (lazyStatus now p). rewrite lookup_insert_eq.
      split; [reflexivity | apply Hlazy].
    + exists (perm_status p). split; [|left; reflexivity].
      destruct (permissions pm !! id); [|exact Hsame].
      cbn. rewrite lookup_insert_ne by congruence. exact Hsame.
  - rewrite (getPermissions_spec now status pm (wellFormed_ids pm Hwf)).
    cbn. exists (lazyStatus now p). rewrite lookup_fmap, Hp.
    split; [reflexivity | apply Hlazy].
  - rewrite validateAction_snd, (getPermission_wellFormed now1 pid pm Hwf).
    destruct (decide (k = pid)) as [->|Hne].
    + rewrite Hp. cbn. exists (lazyStatus now1 p). rewrite lookup_insert_eq.
      split; [reflexivity | apply Hlazy].
    + exists (perm_status p). split; [|left; reflexivity].
      destruct (permissions pm !! pid); [|exact Hsame].
      cbn. rewrite lookup_insert_ne by congruence. exact Hsame.
  - exists (perm_status p). split; [|left; reflexivity].
    unfold PM.recordSpend. destruct (spendTracking pm !! pid); exact Hsame.
Qed.

Lemma byOperations_keeps (pm pm' : PermissionManager) :
  byOperations pm pm' ->
  wellFormed pm ->
  wellFormed pm'
  /\ forall k p,
       permissions pm !! k = Some p ->
       exists s',
         permissions pm' !! k = Some (set_status s' p)
         /\ (s' = perm_status p \/ (perm_status p = active /\ s' = expired)).
Proof.
  intros (ops & -> & Hops) Hwf. split; [apply applyOps_wellFormed, Hwf|].
  revert pm Hwf. induction ops as [|op ops IH]; intros pm Hwf k p Hp.
  - exists (perm_status p). cbn. rewrite set_status_same. auto.
  - inversion Hops as [|? ? Hop Hrest]; subst.
    destruct (readsOrRecords_status op pm k p Hwf Hop Hp) as (s1 & H1 & L1).
    destruct (IH Hrest (applyOp op pm) (applyOp_wellFormed op pm Hwf) k
                (set_status s1 p) H1) as (s2 & H2 & L2).
    exists s2. cbn [applyOps fold_left]. fold (applyOps ops (applyOp op pm)).
    rewrite H2, set_status_twice. split; [reflexivity|].
    cbn in L2. destruct L1 as [->|[Ha ->]]; [exact L2|].
    right. split; [exact Ha|]. destruct L2 as [->|[? _]];
      [reflexivity | discriminate].
Qed.

(** X15: a run never creates and never revokes a permission.  What it does
    to the manager is a sequence of [getPermission], [getPermissions],
    [validateAction] and [recordSpend] calls; so on a well-formed manager
    it leaves a well-formed manager in which every permission is still
    stored, unchanged but for a status that may have gone from active to
    expired. *)
Theorem run_keeps_the_manager (env : RunEnv) (intent : AgentIntent)
    (a : AgentExecutor) (r : AgentExecution * AgentExecutor) :
  r = Agent.processIntent env intent a
  \/ r = Agent.executeIntentDirectly env intent a ->
  byOperations (permissionManager a) (permissionManager (snd r))
  /\ (wellFormed (permissionManager a) ->
      wellFormed (permissionManager (snd r))
      /\ forall k p,
           permissions (permissionManager a) !! k = Some p ->
           exists s',
             permissions (permissionManager (snd r)) !! k
             = Some (set_status s' p)
             /\ (s' = perm_status p
                 \/ (perm_status p = active /\ s' = expired))).
Proof.
  intros Hr.
  assert (Hb : byOperations (permissionManager a) (permissionManager (snd r))).
  { destruct Hr as [-> | ->]; [|apply direct_settled].
    destruct (connected env) eqn:Hc.
    - rewrite (processIntent_connected env intent a Hc).
      pose proof (direct_settled env (preambleIntent env intent)
                    (preambleState env intent a)) as H.
      cbv zeta in H. destruct H as (_ & _ & _ & H).
      pose proof (preambleState_core env intent a) as Hk.
      unfold core in Hk. injection Hk as Hk _ _ _. rewrite Hk in H. exact H.
    - unfold Agent.processIntent. rewrite Hc. cbn. apply byOperations_refl. }
  split; [exact Hb | apply byOperations_keeps; exact Hb].
Qed.

Lemma run_keeps_the_manager_witness :
  wellFormed
    (permissionManager (snd (Agent.processIntent envOk intent1 (agentOver pm1)))).
Proof.
  destruct (run_keeps_the_manager envOk intent1 (agentOver pm1) _
              (or_introl eq_refl)) as [_ H].
  apply H.
  apply (applyOps_wellFormed [OpCreate grantOk (request100 tokenA)] emptyPM).
  apply wellFormed_empty.
Defined.

(** ** Blocked runs and the final status *)

Lemma blockedRun_transfer (a : AgentExecutor) (x w : string)
    (made : list Call) (r1 r2 : AgentExecution * AgentExecutor) :
  report (fst r1) = report (fst r2) ->
  core (snd r1) = core (snd r2) ->
  blockedRun a x w made r2 -> blockedRun a x w made r1.
Proof.
  unfold report, core, blockedRun.
  intros [= _ -> -> -> _ _ _ _] [= -> _ _ ->]. tauto.
Qed.

Lemma direct_blocked_by_validation (env : RunEnv) (intent : AgentIntent)
    (a : AgentExecutor) :
  connected env = true ->
  fst (PM.validateAction (now_expiry env) (now_window env)
         (permissionId intent) (tokenAddress intent) (amount intent)
         (contractAddress intent) (permissionManager a)) = false ->
  blockedRun a "Action blocked: Exceeds permission boundaries"
    "The requested action would violate one or more permission constraints (spend limit, time window, or contract restrictions)"
    [CallValidateAction (permissionId intent) (tokenAddress intent)
       (amount intent) (contractAddress intent)]
    (Agent.executeIntentDirectly env intent a).
Proof.
  intros Hc Hv. unfold Agent.executeIntentDirectly. rewrite Hc. cbn [negb].
  cbn [permissionManager logCall].
  destruct (validateAction_byOperations (now_expiry env) (now_window env)
              (permissionId intent) (tokenAddress intent) (amount intent)
              (contractAddress intent) (permissionManager a)) as [_ Hs].
  destruct (PM.validateAction _ _ _ _ _ _ _) as [ok pm1]. cbn in Hv, Hs.
  subst ok. cbn. unfold blockedRun. cbn. repeat split; try reflexivity.
  exact Hs.
Qed.

Lemma direct_blocked_by_decision (env : RunEnv) (intent : AgentIntent)
    (a : AgentExecutor) (mc : MarketContext) :
  connected env = true ->
  fst (PM.validateAction (now_expiry env) (now_window env)
         (permissionId intent) (tokenAddress intent) (amount intent)
         (contractAddress intent) (permissionManager a)) = true ->
  market env = Return mc ->
  shouldExecute (fst (Agent.queryGaiaLLM env intent mc a)) = false ->
  blockedRun a
    ("Agent declined to execute: "
     ++ reasoning (fst (Agent.queryGaiaLLM env intent mc a)))
    (reasoning (fst (Agent.queryGaiaLLM env intent mc a)))
    [CallValidateAction (permissionId intent) (tokenAddress intent)
       (amount intent) (contractAddress intent);
     CallGatherMarketContext; CallQueryGaiaLLM]
    (Agent.executeIntentDirectly env intent a)
  /\ ex_decision (fst (Agent.executeIntentDirectly env intent a))
     = fst (Agent.queryGaiaLLM env intent mc a).
Proof.
  intros Hc Hv Hm. remember (fst (Agent.queryGaiaLLM env intent mc a)) as d0
    eqn:Hd0. intros Hd.
  unfold Agent.executeIntentDirectly. rewrite Hc.
  cbn [negb permissionManager logCall].
  rewrite (validateAction_true _ _ _ _ _ _ _ Hv). cbn [negb].
  unfold Agent.gatherMarketContext. rewrite Hm.
  match goal with
  | |- context [Agent.queryGaiaLLM env intent mc ?A] => set (A1 := A)
  end.
  pose proof (queryGaiaLLM_snd env intent mc A1) as Hq2.
  pose proof (queryGaiaLLM_decision env intent mc A1 a eq_refl eq_refl) as Hq1.
  pose proof (afterQuery_spendTracking env intent
                (logCall CallQueryGaiaLLM A1)) as [Hs _].
  rewrite <- Hd0 in Hq1.
  destruct (Agent.queryGaiaLLM env intent mc A1) as [d A2].
  cbn [fst snd] in Hq1, Hq2. subst d. rewrite Hd. subst A2 A1.
  unfold blockedRun. cbn in *. rewrite <- !app_assoc. cbn.
  repeat split; try reflexivity; assumption.
Qed.

(** X16: blocked runs.  With the wallet connected, a run whose validation
    fails ends blocked with the explanation "Action blocked: Exceeds
    permission boundaries" after the single call of [validateAction]; a run
    whose validation passes and whose decision refuses ends blocked with
    the explanation "Agent declined to execute: " followed by the
    decision's reasoning, after validation, market context and decision
    only.  In both cases no transaction is sent, nothing is recorded and
    every ledger is as before, on the submitted and on the scheduled path. *)
Theorem pipeline_blocked (env : RunEnv) (intent : AgentIntent)
    (a : AgentExecutor) (r : AgentExecution * AgentExecutor) :
  r = Agent.processIntent env intent a
  \/ r = Agent.executeIntentDirectly env intent a ->
  connected env = true ->
  (fst (PM.validateAction (now_expiry env) (now_window env)
          (permissionId intent) (tokenAddress intent) (amount intent)
          (contractAddress intent) (permissionManager a)) = false ->
   blockedRun a "Action blocked: Exceeds permission boundaries"
     "The requested action would violate one or more permission constraints (spend limit, time window, or contract restrictions)"
     [CallValidateAction (permissionId intent) (tokenAddress intent)
        (amount intent) (contractAddress intent)] r)
  /\ (forall mc,
        fst (PM.validateAction (now_expiry env) (now_window env)
               (permissionId intent) (tokenAddress intent) (amount intent)
               (contractAddress intent) (permissionManager a)) = true ->
        market env = Return mc ->
        shouldExecute (fst (Agent.queryGaiaLLM env intent mc a)) = false ->
        blockedRun a
          ("Agent declined to execute: "
           ++ reasoning (fst (Agent.queryGaiaLLM env intent mc a)))
          (reasoning (fst (Agent.queryGaiaLLM env intent mc a)))
          [CallValidateAction (permissionId intent) (tokenAddress intent)
             (amount intent) (contractAddress intent);
           CallGatherMarketContext; CallQueryGaiaLLM] r).
Proof.
  intros Hr Hc.
  destruct (processIntent_as_direct env intent a Hc) as [Hrep Hcore].
  split.
  - intros Hv.
    pose proof (direct_blocked_by_validation env intent a Hc Hv) as H.
    destruct Hr as [-> | ->]; [|exact H].
    exact (blockedRun_transfer _ _ _ _ _ _ Hrep Hcore H).
  - intros mc Hv Hm Hd.
    destruct (direct_blocked_by_decision env intent a mc Hc Hv Hm Hd) as [H _].
    destruct Hr as [-> | ->]; [|exact H].
    exact (blockedRun_transfer _ _ _ _ _ _ Hrep Hcore H).
Qed.

Lemma pipeline_blocked_witness :
  blockedRun (agentOver pm1) "Action blocked: Exceeds permission boundaries"
    "The requested action would violate one or more permission constraints (spend limit, time window, or contract restrictions)"
    [CallValidateAction "perm_1" tokenA "400" contractA]
    (Agent.processIntent envOk
       (mkIntent "swap" tokenA "400" contractA "perm_1" None) (agentOver pm1))
  /\ blockedRun (agentOver pm1)
       "Agent declined to execute: Gas price too high for efficient execution"
       "Gas price too high for efficient execution"
       [CallValidateAction "perm_1" tokenA "40" contractA;
        CallGatherMarketContext; CallQueryGaiaLLM]
       (Agent.executeIntentDirectly envGasHigh intent1 (agentOver pm1)).
Proof.
  split.
  - apply (proj1 (pipeline_blocked envOk
                    (mkIntent "swap" tokenA "400" contractA "perm_1" None)
                    (agentOver pm1) _ (or_introl eq_refl) eq_refl)).
    vm_compute. reflexivity.
  - apply (proj2 (pipeline_blocked envGasHigh intent1 (agentOver pm1) _
                    (or_intror eq_refl) eq_refl)
             (mkMarket "75.5" "1900.00" low 100));
      vm_compute; reflexivity.
Defined.

(** ** The ledger of the permission decides whether a sent transfer counts *)

Lemma executeTransaction_no_ledger (env : RunEnv) (ex : AgentExecution)
    (a : AgentExecutor) (p : ERC7715Permission) (res : TransactionResult) :
  let pid := permissionId (ex_intent ex) in
  let amt := amount (ex_intent ex) in
  let e := ErrorObj "Spend tracking not found for permission" in
  permissions (permissionManager a) !! pid = Some p ->
  externalExecution env p = Return res ->
  spendTracking (permissionManager a) !! pid = None ->
  exists a' actual,
    Agent.executeTransaction env ex a
    = (Throw e,
       transactionFailed e
         (setExplanation
            ("Successfully executed gasless transaction: "
             ++ reasoning (ex_decision ex))
            (setStatus Executed
               (setTransaction (tr_hash res) (orElse (tr_gasUsed res) "0") ex))),
       a')
    /\ spendTracking (permissionManager a')
       = spendTracking (permissionManager a)
    /\ calls a'
       = (calls a
          ++ [CallExecuteWithPermission (contractAddress (ex_intent ex)) actual;
              CallRecordSpend pid amt (tr_hash res)])%list.
Proof.
  intros pid amt e Hp Hx Ht.
  destruct (sendTransaction_found env ex a p Hp) as (a1 & Hs & Hst & _ & Hc).
  destruct (Hc res Hx) as [actual Hcalls].
  unfold Agent.executeTransaction. rewrite Hs, Hx.
  cbn [ex_intent setExplanation setStatus setTransaction].
  fold pid amt.
  assert (Ht1 : spendTracking (permissionManager a1) !! pid = None)
    by (rewrite Hst; exact Ht).
  change (permissionManager (logCall (CallRecordSpend pid amt (tr_hash res)) a1))
    with (permissionManager a1).
  unfold PM.recordSpend. rewrite Ht1.
  eexists. exists actual. split; [reflexivity|]. simpl.
  rewrite Hst, Hcalls, <- app_assoc. split; reflexivity.
Qed.

Lemma unrecordedRun_transfer (a : AgentExecutor) (res : TransactionResult)
    (r1 r2 : AgentExecution * AgentExecutor) :
  report (fst r1) = report (fst r2) ->
  core (snd r1) = core (snd r2) ->
  unrecordedRun a res r2 -> unrecordedRun a res r1.
Proof.
  unfold report, core, unrecordedRun.
  intros [= _ -> _ -> -> -> _ _] [= -> _ _ ->]. tauto.
Qed.

Lemma direct_unrecorded (env : RunEnv) (intent : AgentIntent)
    (a : AgentExecutor) (p : ERC7715Permission)
    (mc : MarketContext) (res : TransactionResult) :
  connected env = true ->
  fst (PM.validateAction (now_expiry env) (now_window env)
         (permissionId intent) (tokenAddress intent) (amount intent)
         (contractAddress intent) (permissionManager a)) = true ->
  market env = Return mc ->
  shouldExecute (fst (Agent.queryGaiaLLM env intent mc a)) = true ->
  permissions (permissionManager a) !! permissionId intent = Some p ->
  externalExecution env p = Return res ->
  spendTracking (permissionManager a) !! permissionId intent = None ->
  unrecordedRun a res (Agent.executeIntentDirectly env intent a).
Proof.
  intros Hc Hv Hm Hd Hp Hx Ht.
  unfold Agent.executeIntentDirectly. rewrite Hc. cbn [negb].
  cbn [permissionManager logCall].
  rewrite (validateAction_true _ _ _ _ _ _ _ Hv). cbn [negb].
  unfold Agent.gatherMarketContext. rewrite Hm.
  match goal with
  | |- context [Agent.queryGaiaLLM env intent mc ?A] => set (A1 := A)
  end.
  pose proof (queryGaiaLLM_snd env intent mc A1) as Hq2.
  pose proof (queryGaiaLLM_decision env intent mc A1 a eq_refl eq_refl) as Hq1.
  destruct (Agent.queryGaiaLLM env intent mc A1) as [d A2].
  simpl in Hq1, Hq2. rewrite <- Hq1 in Hd. rewrite Hd.
  destruct (afterQuery_keeps env intent A1 p Hp) as (Hst & p' & Hp' & Hid & Hsa).
  match goal with
  | |- context [Agent.executeTransaction env ?e A2] => set (ex := e)
  end.
  destruct (executeTransaction_no_ledger env ex A2 p' res)
    as (a' & actual & Hrun & Hsp & Hcalls).
  { subst A2. exact Hp'. }
  { rewrite (externalExecution_same env p' p Hid Hsa). exact Hx. }
  { subst A2. cbn [permissionManager setPM]. rewrite Hst. exact Ht. }
  rewrite Hrun. unfold unrecordedRun. cbn [fst snd]. subst A2.
  cbn [permissionManager setPM] in Hsp. rewrite Hst in Hsp.
  cbn in Hcalls |- *. rewrite Hsp, Hcalls.
  rewrite !executeCalls_app, !recordSpendCalls_app. cbn.
  repeat split; try reflexivity; lia.
Qed.

(** X17: a transfer without ledger.  With the wallet connected, the
    validation passing, the decision approving and the external execution
    returning a transaction reference, a permission that has no spend
    ledger makes the run end failed although the transfer was sent: the
    record carries the transfer's reference together with the error "Spend
    tracking not found for permission", the transfer and [recordSpend] were
    each called once, and no ledger is changed.  This holds on the
    submitted and on the scheduled path. *)
Theorem sent_without_ledger_fails (env : RunEnv) (intent : AgentIntent)
    (a : AgentExecutor) (p : ERC7715Permission) (mc : MarketContext)
    (res : TransactionResult) (r : AgentExecution * AgentExecutor) :
  r = Agent.processIntent env intent a
  \/ r = Agent.executeIntentDirectly env intent a ->
  connected env = true ->
  fst (PM.validateAction (now_expiry env) (now_window env)
         (permissionId intent) (tokenAddress intent) (amount intent)
         (contractAddress intent) (permissionManager a)) = true ->
  market env = Return mc ->
  shouldExecute (fst (Agent.queryGaiaLLM env intent mc a)) = true ->
  permissions (permissionManager a) !! permissionId intent = Some p ->
  externalExecution env p = Return res ->
  spendTracking (permissionManager a) !! permissionId intent = None ->
  unrecordedRun a res r.
Proof.
  intros Hr Hc Hv Hm Hd Hp Hx Ht.
  pose proof (direct_unrecorded env intent a p mc res Hc Hv Hm Hd Hp Hx Ht)
    as H.
  destruct Hr as [-> | ->]; [|exact H].
  destruct (processIntent_as_direct env intent a Hc) as [Hrep Hcore].
  exact (unrecordedRun_transfer _ _ _ _ Hrep Hcore H).
Qed.

Lemma sent_without_ledger_fails_witness :
  unrecordedRun (agentOver pmNoLedger) txOk
    (Agent.processIntent envOk intent1 (agentOver pmNoLedger)).
Proof.
  apply (sent_without_ledger_fails envOk intent1 (agentOver pmNoLedger)
           perm1 calmMarket txOk _ (or_introl eq_refl));
    vm_compute; reflexivity.
Defined.

(** X18: a run on a manager that was built through its public methods.
    On a well-formed manager (every permission stored under its own id with
    its ledger, which is what [createPermission] and the other methods
    maintain) the ledger premise is met by itself: with the wallet
    connected, the validation passing, the decision approving and the
    external execution returning a transaction reference, the run ends
    executed with that reference and the spend is recorded once on the
    ledger of the permission, on the submitted and on the scheduled path. *)
Theorem wellFormed_run_executes (env : RunEnv) (intent : AgentIntent)
    (a : AgentExecutor) (p : ERC7715Permission) (mc : MarketContext)
    (res : TransactionResult) (r : AgentExecution * AgentExecutor) :
  r = Agent.processIntent env intent a
  \/ r = Agent.executeIntentDirectly env intent a ->
  wellFormed (permissionManager a) ->
  connected env = true ->
  fst (PM.validateAction (now_expiry env) (now_window env)
         (permissionId intent) (tokenAddress intent) (amount intent)
         (contractAddress intent) (permissionManager a)) = true ->
  market env = Return mc ->
  shouldExecute (fst (Agent.queryGaiaLLM env intent mc a)) = true ->
  permissions (permissionManager a) !! permissionId intent = Some p ->
  externalExecution env p = Return res ->
  exists t,
    spendTracking (permissionManager a) !! permissionId intent = Some t
    /\ st_permissionId t = permissionId intent
    /\ executedRun env intent a t res r.
Proof.
  intros Hr Hw Hc Hv Hm Hd Hp Hx.
  destruct (Hw _ _ Hp) as (_ & _ & _ & t & Ht & Hid).
  exists t. split; [exact Ht | split; [exact Hid|]].
  pose proof (direct_executed env intent a p t mc res Hc Hv Hm Hd Hp Hx Ht)
    as H.
  destruct Hr as [-> | ->]; [|exact H].
  destruct (processIntent_as_direct env intent a Hc) as [Hrep Hcore].
  exact (executedRun_transfer _ _ _ _ _ _ _ Hrep Hcore H).
Qed.

Lemma wellFormed_run_executes_witness :
  exists t,
    spendTracking pm1 !! "perm_1" = Some t
    /\ st_permissionId t = "perm_1"
    /\ executedRun envOk intent1 (agentOver pm1) t txOk
         (Agent.executeIntentDirectly envOk intent1 (agentOver pm1)).
Proof.
  apply (wellFormed_run_executes envOk intent1 (agentOver pm1) perm1
           calmMarket txOk _ (or_intror eq_refl)).
  - apply (applyOps_wellFormed [OpCreate grantOk (request100 tokenA)] emptyPM).
    apply wellFormed_empty.
  - reflexivity.
  - vm_compute. reflexivity.
  - reflexivity.
  - vm_compute. reflexivity.
  - reflexivity.
  - vm_compute. reflexivity.
Defined.

(** ** The schedule registry *)

Lemma parsedSchedule_cases (env : RunEnv) (intent : AgentIntent) :
  parsedSchedule env intent = Schedule.onceSchedule
  \/ exists f n,
       parsedSchedule env intent
       = Schedule.recurringSchedule (now_parse env) f n.
Proof.
  unfold parsedSchedule, Schedule.parseScheduleFromDescription.
  repeat case_match; eauto.
Qed.

Lemma processIntent_registry (env : RunEnv) (intent : AgentIntent)
    (a : AgentExecutor) :
  connected env = true ->
  registry (snd (Agent.processIntent env intent a))
  = registry (preambleState env intent a)
  /\ ex_intent (fst (Agent.processIntent env intent a))
     = preambleIntent env intent.
Proof.
  intros Hc. rewrite (processIntent_connected env intent a Hc).
  destruct (direct_settled env (preambleIntent env intent)
              (preambleState env intent a)) as (_ & Hr & Hi & _).
  split; assumption.
Qed.

Lemma preambleState_registered (env : RunEnv) (intent : AgentIntent)
    (a : AgentExecutor) (f : Frequency) (n : Z) :
  parsedSchedule env intent
  = Schedule.recurringSchedule (now_parse env) f n ->
  registered env intent
    (Schedule.calculateNextExecution (now_parse env) f n)
    a (preambleState env intent a).
Proof.
  intros Hs. unfold preambleState, registered. fold (parsedSchedule env intent).
  rewrite Hs. cbn [sch_type sch_frequency Schedule.recurringSchedule].
  unfold Agent.scheduleRecurringIntent, preambleIntent.
  fold (parsedSchedule env intent). rewrite Hs.
  cbn [schedule setSchedule sch_type sch_frequency sch_nextExecution
       Schedule.recurringSchedule].
  set (next := Schedule.calculateNextExecution (now_parse env) f n).
  replace (0 <? next - now_arm env)%Z with (now_arm env <? next)%Z
    by (destruct (Z.ltb_spec (now_arm env) next);
        destruct (Z.ltb_spec 0 (next - now_arm env)); (reflexivity || lia)).
  destruct (now_arm env <? next)%Z; cbn; repeat split; reflexivity.
Qed.

Lemma processIntent_registered (env : RunEnv) (intent : AgentIntent)
    (a : AgentExecutor) :
  connected env = true ->
  sch_type (parsedSchedule env intent) = recurring ->
  exists next,
    sch_nextExecution (parsedSchedule env intent) = Some next
    /\ registered env intent next a (snd (Agent.processIntent env intent a)).
Proof.
  intros Hc Hrec. destruct (processIntent_registry env intent a Hc) as [Hr _].
  destruct (parsedSchedule_cases env intent) as [E | (f & n & E)];
    [rewrite E in Hrec; discriminate|].
  exists (Schedule.calculateNextExecution (now_parse env) f n).
  split; [rewrite E; reflexivity|].
  pose proof (preambleState_registered env intent a f n E) as Hreg.
  unfold registry in Hr. injection Hr as Ha Hs Ht.
  unfold registered in *. rewrite Ha, Hs, Ht. exact Hreg.
Qed.

(** X19: what a submission registers.  With the wallet connected the
    record returned by [processIntent] carries the intent with the
    schedule parsed from its description.  For a one-time description the
    registry (scheduled intents, timer handles, armed timers) is left as it
    was.  For a recurring one the intent is registered under the fresh
    schedule id and exactly one timer is armed, whatever the run itself
    ends with; the handle of that timer is kept only when the first
    execution time is still ahead, otherwise a one-second timer is armed
    and no handle is kept.  A scheduled run ([executeIntentDirectly]) never
    changes the registry. *)
Theorem submission_registers_schedule (env : RunEnv) (intent : AgentIntent)
    (a : AgentExecutor) :
  connected env = true ->
  ex_intent (fst (Agent.processIntent env intent a))
  = setSchedule (parsedSchedule env intent) intent
  /\ registry (snd (Agent.executeIntentDirectly env intent a)) = registry a
  /\ (sch_type (parsedSchedule env intent) = once ->
      registry (snd (Agent.processIntent env intent a)) = registry a)
  /\ (sch_type (parsedSchedule env intent) = recurring ->
      exists next,
        sch_nextExecution (parsedSchedule env intent) = Some next
        /\ registered env intent next a
             (snd (Agent.processIntent env intent a))).
Proof.
  intros Hc. destruct (processIntent_registry env intent a Hc) as [Hr Hi].
  split; [exact Hi|].
  split; [apply (direct_settled env intent a)|].
  split.
  - intros Ho. rewrite Hr. unfold preambleState.
    fold (parsedSchedule env intent). rewrite Ho. reflexivity.
  - intros Hrec. exact (processIntent_registered env intent a Hc Hrec).
Qed.

Lemma submission_registers_schedule_witness :
  scheduledIntents (snd (Agent.processIntent envOk intent1 (agentOver pm1)))
    !! scheduleId envOk
  = Some (preambleIntent envOk intent1).
Proof.
  destruct (submission_registers_schedule envOk intent1 (agentOver pm1)
              eq_refl) as (_ & _ & _ & H).
  destruct (H eq_refl) as (next & _ & Hreg & _).
  rewrite Hreg. apply lookup_insert_eq.
Defined.

Lemma stopSchedule_spec (id : string) (s : Registry.schedules) :
  Registry.stopSchedule id s
  = (bool_decide (is_Some (snd s !! id)), fst s !! id,
     (delete id (fst s), delete id (snd s))).
Proof.
  unfold Registry.stopSchedule.
  destruct (fst s !! id) as [h|] eqn:Ha; destruct (snd s !! id) as [i|] eqn:Hi;
    cbn; repeat f_equal;
    try (symmetry; apply delete_id; assumption);
    try (apply bool_decide_eq_true_2; eauto; fail);
    try (symmetry; apply bool_decide_eq_false_2; intros [? ?]; discriminate);
    try (symmetry; apply bool_decide_eq_true_2; eauto).
Qed.

(** X20: stopping a schedule.  [stopSchedule] answers true exactly when an
    intent is registered under the id, whether or not a timer handle is;
    it hands to [clearTimeout] the handle registered under the id, if any;
    afterwards the id is in neither map and every other entry of both maps
    is as before; and stopping the same id again answers false, clears
    nothing and changes nothing. *)
Theorem stopSchedule_removes (id : string) (s : Registry.schedules) :
  let r := Registry.stopSchedule id s in
  (fst (fst r) = true <-> is_Some (snd s !! id))
  /\ snd (fst r) = fst s !! id
  /\ fst (snd r) !! id = None
  /\ snd (snd r) !! id = None
  /\ (forall k, k <> id ->
        fst (snd r) !! k = fst s !! k /\ snd (snd r) !! k = snd s !! k)
  /\ Registry.stopSchedule id (snd r) = (false, None, snd r).
Proof.
  cbv zeta. rewrite !stopSchedule_spec. cbn [fst snd].
  rewrite !lookup_delete_eq.
  split; [apply bool_decide_eq_true|].
  split; [reflexivity|].
  split; [reflexivity|].
  split; [reflexivity|].
  split.
  - intros k Hk. rewrite !lookup_delete_ne by congruence. split; reflexivity.
  - rewrite !delete_delete_eq.
    rewrite bool_decide_eq_false_2 by (intros [? ?]; discriminate).
    reflexivity.
Qed.

(** X21: a submitted schedule can be taken back.  When a connected
    submission with a recurring description has registered its schedule
    under an id that was not in use, stopping that id answers true and
    leaves both maps of the registry exactly as they were before the
    submission.  The handle given to [clearTimeout] is the one of the timer
    armed by the submission when the first execution time was still ahead;
    when it was not, no handle was kept, so the one-second timer that was
    armed is not cleared. *)
Theorem submitted_schedule_stops (env : RunEnv) (intent : AgentIntent)
    (a : AgentExecutor) :
  connected env = true ->
  sch_type (parsedSchedule env intent) = recurring ->
  activeSchedules a !! scheduleId env = None ->
  scheduledIntents a !! scheduleId env = None ->
  exists next,
    sch_nextExecution (parsedSchedule env intent) = Some next
    /\ Registry.stopSchedule (scheduleId env)
         (Registry.schedulesOf (snd (Agent.processIntent env intent a)))
       = (true,
          if (now_arm env <? next)%Z then Some (List.length (timers a))
          else None,
          Registry.schedulesOf a)
    /\ List.length (timers (snd (Agent.processIntent env intent a)))
       = S (List.length (timers a)).
Proof.
  intros Hc Hrec Hfa Hfs.
  destruct (processIntent_registry env intent a Hc) as [Hr _].
  destruct (parsedSchedule_cases env intent) as [E | (f & n & E)];
    [rewrite E in Hrec; discriminate|].
  exists (Schedule.calculateNextExecution (now_parse env) f n).
  split; [rewrite E; reflexivity|].
  pose proof (preambleState_registered env intent a f n E) as Hreg.
  unfold registry in Hr. injection Hr as Ha Hs Ht.
  unfold registered in Hreg. rewrite <- Ha, <- Hs, <- Ht in Hreg.
  destruct Hreg as [Hsi Hreg].
  rewrite stopSchedule_spec. unfold Registry.schedulesOf. cbn [fst snd].
  rewrite Hsi, lookup_insert_eq, delete_insert_eq, (delete_id _ _ Hfs).
  destruct (now_arm env <? _)%Z; destruct Hreg as [Hact Htm];
    rewrite Hact, Htm, length_app; cbn [List.length].
  - rewrite lookup_insert_eq, delete_insert_eq, (delete_id _ _ Hfa).
    rewrite bool_decide_eq_true_2 by eauto.
    split; [reflexivity | lia].
  - rewrite Hfa, (delete_id _ _ Hfa).
    rewrite bool_decide_eq_true_2 by eauto.
    split; [reflexivity | lia].
Qed.

Lemma submitted_schedule_stops_witness :
  (exists next,
     sch_nextExecution (parsedSchedule envOk intent1) = Some next
     /\ fst (fst (Registry.stopSchedule (scheduleId envOk)
                    (Registry.schedulesOf
                       (snd (Agent.processIntent envOk intent1
                               (agentOver pm1))))))
        = true)
  /\ exists next,
       sch_nextExecution (parsedSchedule envLate intent1) = Some next
       /\ snd (fst (Registry.stopSchedule (scheduleId envLate)
                      (Registry.schedulesOf
                         (snd (Agent.processIntent envLate intent1
                                 (agentOver pm1))))))
          = None.
Proof.
  split.
  - destruct (submitted_schedule_stops envOk intent1 (agentOver pm1)
                eq_refl eq_refl eq_refl eq_refl) as (next & Hn & Hs & _).
    exists next. split; [exact Hn|]. rewrite Hs. reflexivity.
  - destruct (submitted_schedule_stops envLate intent1 (agentOver pm1)
                eq_refl eq_refl eq_refl eq_refl) as (next & Hn & Hs & _).
    exists next. split; [exact Hn|]. rewrite Hs. cbn [fst snd].
    vm_compute in Hn. injection Hn as <-. reflexivity.
Defined.

(** X22: nothing is left after [stopAllSchedules].  The handles it clears
    are exactly the handles registered in [activeSchedules]; afterwards
    [stopSchedule] answers false and clears nothing for every id; the
    execution history, the permission manager and the call log are kept.
    [emergencyCleanup] clears the same handles, leaves the registry equally
    empty and also empties the execution history, so [getExecution] finds
    no record afterwards. *)
Theorem nothing_left_after_stopAll (a : AgentExecutor) (id : string) :
  let r := Registry.stopAllSchedules a in
  let e := Registry.emergencyCleanup a in
  (forall h, h ∈ fst r <-> exists k, activeSchedules a !! k = Some h)
  /\ Registry.stopSchedule id (Registry.schedulesOf (snd r))
     = (false, None, Registry.schedulesOf (snd r))
  /\ executions (snd r) = executions a
  /\ core (snd r) = core a
  /\ fst e = fst r
  /\ Registry.schedulesOf (snd e) = Registry.schedulesOf (snd r)
  /\ core (snd e) = core a
  /\ Registry.getExecution id (snd e) = None.
Proof.
  cbv zeta. unfold Registry.emergencyCleanup, Registry.stopAllSchedules,
    Registry.getExecution, Registry.schedulesOf, core. cbn.
  split.
  - intros h. rewrite list_elem_of_fmap. split.
    + intros ([k h'] & -> & Hin). exists k.
      apply elem_of_map_to_list in Hin. exact Hin.
    + intros (k & Hk). exists (k, h). split; [reflexivity|].
      apply elem_of_map_to_list. exact Hk.
  - rewrite stopSchedule_spec. cbn. rewrite !lookup_empty, !delete_empty.
    rewrite bool_decide_eq_false_2 by (intros [? ?]; discriminate).
    repeat split; reflexivity.
Qed.

(** ** The decision without an answer of the provider *)

Lemma fallback_approves (intent : AgentIntent) (mc : MarketContext) :
  shouldExecute (fallbackDecisionMaking intent mc) = true
  <-> JS.gt (JS.parseFloat (gasPrice mc)) (JS.ofZ 50) = false
      /\ networkCongestion mc <> high.
Proof.
  unfold fallbackDecisionMaking.
  destruct (JS.gt (JS.parseFloat (gasPrice mc)) (JS.ofZ 50));
    destruct (JS.gt (JS.parseFloat (amount intent)) (JS.ofZ 100));
    destruct (networkCongestion mc); cbn; intuition congruence.
Qed.

Lemma fallback_confidence (intent : AgentIntent) (mc : MarketContext) :
  In (confidence (fallbackDecisionMaking intent mc))
     [JS.ofZ 60; JS.ofZ 70; JS.ofZ 80; JS.ofZ 85; JS.ofZ 90].
Proof.
  unfold fallbackDecisionMaking.
  destruct (JS.gt (JS.parseFloat (gasPrice mc)) (JS.ofZ 50));
    destruct (JS.gt (JS.parseFloat (amount intent)) (JS.ofZ 100));
    destruct (networkCongestion mc); cbn; tauto.
Qed.

(** X23: the decision without the provider.  When no endpoint or no key is
    configured, or the request to the provider fails, [queryGaiaLLM]
    returns the rule-based decision instead of raising.  That decision
    approves exactly when the gas price is not above 50 and the network
    congestion is not high, whatever the amount; its confidence is one of
    60, 70, 80, 85 and 90.  Without configuration the permission manager
    is not even read; in every case the ledgers are untouched. *)
Theorem queryGaiaLLM_falls_back (env : RunEnv) (intent : AgentIntent)
    (mc : MarketContext) (a : AgentExecutor) :
  noAnswer env a ->
  fst (Agent.queryGaiaLLM env intent mc a) = fallbackDecisionMaking intent mc
  /\ (shouldExecute (fst (Agent.queryGaiaLLM env intent mc a)) = true
      <-> JS.gt (JS.parseFloat (gasPrice mc)) (JS.ofZ 50) = false
          /\ networkCongestion mc <> high)
  /\ In (confidence (fst (Agent.queryGaiaLLM env intent mc a)))
        [JS.ofZ 60; JS.ofZ 70; JS.ofZ 80; JS.ofZ 85; JS.ofZ 90]
  /\ (gaiaEndpoint a = "" \/ gaiaApiKey a = "" ->
      permissionManager (snd (Agent.queryGaiaLLM env intent mc a))
      = permissionManager a)
  /\ spendTracking (permissionManager (snd (Agent.queryGaiaLLM env intent mc a)))
     = spendTracking (permissionManager a)
  /\ calls (snd (Agent.queryGaiaLLM env intent mc a))
     = (calls a ++ [CallQueryGaiaLLM])%list.
Proof.
  intros Hn.
  assert (Hd : fst (Agent.queryGaiaLLM env intent mc a)
               = fallbackDecisionMaking intent mc).
  { unfold Agent.queryGaiaLLM. cbn [gaiaEndpoint gaiaApiKey logCall].
    destruct (String.eqb_spec (gaiaEndpoint a) ""); cbn [orb]; [reflexivity|].
    destruct (String.eqb_spec (gaiaApiKey a) ""); cbn [orb]; [reflexivity|].
    destruct Hn as [? | [? | [e He]]]; try contradiction.
    destruct (PM.getPermission _ _ _). rewrite He. reflexivity. }
  rewrite Hd.
  split; [reflexivity|].
  split; [apply fallback_approves|].
  split; [apply fallback_confidence|].
  rewrite queryGaiaLLM_snd.
  split; [|split].
  - intros Hcfg. unfold afterQuery. cbn [gaiaEndpoint gaiaApiKey logCall].
    destruct a as [pm ep key ? ? ? ? ?]. cbn in *.
    destruct Hcfg as [-> | ->]; cbn; [reflexivity|].
    rewrite orb_true_r. reflexivity.
  - destruct (afterQuery_spendTracking env intent a) as [Hs _].
    destruct a. exact Hs.
  - destruct a. reflexivity.
Qed.

Lemma queryGaiaLLM_falls_back_witness :
  shouldExecute
    (fst (Agent.queryGaiaLLM envOk intent1 calmMarket (agentOver pm1))) = true.
Proof.
  destruct (queryGaiaLLM_falls_back envOk intent1 calmMarket (agentOver pm1))
    as (_ & H & _).
  - left. reflexivity.
  - apply H. split; [vm_compute; reflexivity | discriminate].
Defined.

(** ** The shape of a parsed schedule *)

Lemma digitVal_nonneg (c : ascii) : JS.isDigit c = true -> (0 <= JS.digitVal c)%Z.
Proof.
  unfold JS.isDigit, JS.digitVal. cbv zeta.
  rewrite andb_true_iff, !Nat.leb_le. lia.
Qed.

Lemma digitsFrom_nonneg (s : string) (acc : Z) (cnt : nat) :
  (0 <= acc)%Z -> (0 <= fst (fst (JS.digitsFrom acc cnt s)))%Z.
Proof.
  revert acc cnt. induction s as [|c s IH]; intros acc cnt Ha; cbn; [exact Ha|].
  destruct (JS.isDigit c) eqn:Hc; cbn; [|exact Ha].
  apply IH. pose proof (digitVal_nonneg c Hc). lia.
Qed.

Lemma parseInt_nonneg (s : string) : (0 <= JS.parseInt s)%Z.
Proof. apply digitsFrom_nonneg. lia. Qed.

Lemma parseSchedule_cases (now : Z) (d : string) :
  Schedule.parseScheduleFromDescription now d = Schedule.onceSchedule
  \/ exists f n,
       Schedule.parseScheduleFromDescription now d
       = Schedule.recurringSchedule now f n
       /\ (0 <= n)%Z.
Proof.
  unfold Schedule.parseScheduleFromDescription.
  repeat case_match; eauto using parseInt_nonneg;
    right; eexists _, 1%Z; (split; [reflexivity | lia]).
Qed.

(** X24: the shape of a parsed schedule.  [parseScheduleFromDescription]
    does not see the letter case of the description.  Its result is either
    the inactive one-time schedule without frequency, interval and next
    execution, or an active recurring schedule with a frequency, an
    interval that is not negative, and a next execution time computed from
    the time of parsing; for the frequencies of fixed length that time is
    the time of parsing plus interval times the length, so it is never in
    the past, and it is the time of parsing itself when the interval is 0. *)
Theorem parseSchedule_shape (now : Z) (d : string) :
  Schedule.parseScheduleFromDescription now (JS.toLowerCase d)
  = Schedule.parseScheduleFromDescription now d
  /\ (Schedule.parseScheduleFromDescription now d
      = mkSchedule once None None None false
      \/ exists f n,
           Schedule.parseScheduleFromDescription now d
           = mkSchedule recurring (Some f) (Some n)
               (Some (Schedule.calculateNextExecution now f n)) true
           /\ (0 <= n)%Z
           /\ forall ms, periodMs f = Some ms ->
                Schedule.calculateNextExecution now f n = (now + n * ms)%Z
                /\ (now <= Schedule.calculateNextExecution now f n)%Z).
Proof.
  split.
  - unfold Schedule.parseScheduleFromDescription.
    rewrite toLowerCase_idempotent. reflexivity.
  - destruct (parseSchedule_cases now d) as [E | (f & n & E & Hn)];
      [left; exact E | right].
    exists f, n. split; [exact E | split; [exact Hn|]].
    intros ms Hms. destruct f; cbn in Hms; try discriminate;
      injection Hms as <-; cbn; lia.
Qed.

(** ** Schedules and the permissions they run on *)

Lemma readsOrRecords_missing (op : Op) (pm : PermissionManager) (k : string) :
  wellFormed pm -> readsOrRecords op ->
  permissions pm !! k = None ->
  permissions (applyOp op pm) !! k = None.
Proof.
  intros Hwf Hop Hk.
  destruct op as [env request|c id|now id|now status
                 |now1 now2 pid token amt contract|now pid amt hash];
    cbn [applyOp readsOrRecords] in *; try contradiction.
  - rewrite (getPermission_wellFormed now id pm Hwf).
    destruct (permissions pm !! id) eqn:Hid; [|exact Hk].
    cbn. rewrite lookup_insert_ne; [exact Hk|]. intros ->. congruence.
  - rewrite (getPermissions_spec now status pm (wellFormed_ids pm Hwf)).
    cbn. rewrite lookup_fmap, Hk. reflexivity.
  - rewrite validateAction_snd, (getPermission_wellFormed now1 pid pm Hwf).
    destruct (permissions pm !! pid) eqn:Hid; [|exact Hk].
    cbn. rewrite lookup_insert_ne; [exact Hk|]. intros ->. congruence.
  - unfold PM.recordSpend. destruct (spendTracking pm !! pid); exact Hk.
Qed.

Lemma byOperations_notActiveIn (pm pm' : PermissionManager) (k : string) :
  byOperations pm pm' -> wellFormed pm ->
  notActiveIn pm k -> notActiveIn pm' k.
Proof.
  intros (ops & -> & Hops). revert pm.
  induction ops as [|op ops IH]; intros pm Hwf Hn; [exact Hn|].
  inversion Hops as [|? ? Hop Hrest]; subst.
  cbn [applyOps fold_left]. fold (applyOps ops (applyOp op pm)).
  apply (IH Hrest); [apply applyOp_wellFormed, Hwf|].
  intros p1 Hp1.
  destruct (permissions pm !! k) as [p|] eqn:Hp.
  - destruct (readsOrRecords_status op pm k p Hwf Hop Hp) as (s' & Hs & L).
    rewrite Hs in Hp1. injection Hp1 as <-. cbn.
    pose proof (Hn p Hp) as Hna.
    destruct L as [-> | [Ha _]]; [exact Hna | contradiction].
  - rewrite (readsOrRecords_missing op pm k Hwf Hop Hp) in Hp1. discriminate.
Qed.

Lemma lazyStatus_active_iff (now : Z) (p : ERC7715Permission) :
  lazyStatus now p = active
  <-> perm_status p = active /\ (now <= perm_endTime p)%Z.
Proof.
  unfold lazyStatus.
  destruct (perm_status p); destruct (Z.ltb_spec (perm_endTime p) now);
    (split; [intros Hq | intros [Hq1 Hq2]]);
    first [discriminate | lia | split; [reflexivity | lia] | reflexivity].
Qed.

Lemma found_active (t : Z) (k : string) (pm : PermissionManager) :
  Registry.notActive (fst (PM.getPermission t k pm)) = false
  <-> activeUntil pm k t.
Proof.
  rewrite getPermission_fst. unfold activeUntil, Registry.notActive.
  destruct (permissions pm !! k) as [p|]; cbn.
  - rewrite negb_false_iff, PermissionStatus_eqb_eq, lazyStatus_active_iff.
    split; [intros H; exists p; tauto | intros (p0 & [= <-] & H); exact H].
  - split; [discriminate | intros (p0 & H & _); discriminate].
Qed.

Lemma found_dropped (t : Z) (k : string) (pm : PermissionManager) :
  Registry.notActive (fst (PM.getPermission t k pm)) = true ->
  notActiveIn (snd (PM.getPermission t k pm)) k.
Proof.
  intros H p Hp. rewrite getPermission_stored in Hp. rewrite Hp in H.
  cbn in H. intros Ha. rewrite Ha in H. discriminate.
Qed.

Lemma read_activeUntil_back (t : Z) (k0 k : string) (pm : PermissionManager)
    (u : Z) :
  wellFormed pm ->
  activeUntil (snd (PM.getPermission t k0 pm)) k u -> activeUntil pm k u.
Proof.
  intros Hwf (p1 & Hp1 & Hs & Hu).
  rewrite (getPermission_wellFormed t k0 pm Hwf) in Hp1.
  destruct (permissions pm !! k0) as [p0|] eqn:H0;
    [|exists p1; split; [exact Hp1 | split; assumption]].
  cbn in Hp1. destruct (decide (k = k0)) as [->|Hne].
  - rewrite lookup_insert_eq in Hp1. injection Hp1 as <-.
    cbn in Hs, Hu. apply lazyStatus_active_iff in Hs as [Hs _].
    exists p0. split; [exact H0 | split; assumption].
  - rewrite lookup_insert_ne in Hp1 by congruence.
    exists p1. split; [exact Hp1 | split; assumption].
Qed.

Lemma read_activeUntil (t : Z) (k0 k : string) (pm : PermissionManager)
    (T : Z) :
  wellFormed pm -> (t <= T)%Z ->
  activeUntil pm k T -> activeUntil (snd (PM.getPermission t k0 pm)) k T.
Proof.
  intros Hwf Ht (p & Hp & Hs & HT).
  rewrite (getPermission_wellFormed t k0 pm Hwf).
  destruct (permissions pm !! k0) as [p0|] eqn:H0;
    [|exists p; split; [exact Hp | split; assumption]].
  unfold activeUntil. cbn [permissions].
  destruct (decide (k = k0)) as [->|Hne].
  - rewrite Hp in H0. injection H0 as <-.
    exists (lazily t p). rewrite lookup_insert_eq.
    split; [reflexivity|]. cbn. split; [|exact HT].
    apply lazyStatus_active_iff. split; [exact Hs | lia].
  - exists p. rewrite lookup_insert_ne by congruence.
    split; [exact Hp | split; assumption].
Qed.

Lemma activeUntil_earlier (pm : PermissionManager) (k : string) (t T : Z) :
  (t <= T)%Z -> activeUntil pm k T -> activeUntil pm k t.
Proof.
  intros Ht (p & Hp & Hs & HT). exists p.
  split; [exact Hp | split; [exact Hs | lia]].
Qed.

Lemma activeUntil_notActiveIn (pm : PermissionManager) (k : string) (t : Z) :
  activeUntil pm k t -> notActiveIn pm k -> False.
Proof. intros (p & Hp & Hs & _) Hn. exact (Hn p Hp Hs). Qed.

Lemma entry_id (id : string) (intent : AgentIntent)
    (l : list (string * AgentIntent)) :
  (id, intent) ∈ l -> id ∈ l.*1.
Proof.
  intros H. apply list_elem_of_fmap. exists (id, intent).
  split; [reflexivity | exact H].
Qed.

Lemma examine_examined (pre : AgentIntent -> bool) (clock : string -> Z)
    (entries : list (string * AgentIntent)) :
  forall pm,
    wellFormed pm -> NoDup entries.*1 ->
    examined pre clock entries pm
      (fst (fst (examine pre clock entries pm)))
      (snd (fst (examine pre clock entries pm)))
      (snd (examine pre clock entries pm)).
Proof.
  induction entries as [|[id intent] rest IH]; intros pm Hwf Hnd.
  - cbn. unfold examined.
    split; [apply byOperations_refl|]. split; [reflexivity|].
    split; [intros ? ? H; apply elem_of_nil in H; contradiction|].
    split; [intros ? H; apply elem_of_nil in H; contradiction|].
    intros ? ? H; apply elem_of_nil in H; contradiction.
  - cbn [fmap list_fmap fst] in Hnd. apply NoDup_cons in Hnd as [Hnotin Hnd].
    cbn [examine]. destruct (pre intent) eqn:Hpre; cbn [negb].
    + set (t := clock id). set (k0 := permissionId intent).
      assert (Hwf1 : wellFormed (snd (PM.getPermission t k0 pm)))
        by (apply (applyOp_wellFormed (OpGet t k0) pm Hwf)).
      assert (Hby1 : byOperations pm (snd (PM.getPermission t k0 pm)))
        by (apply (byOperations_one (OpGet t k0) pm); exact I).
      specialize (IH (snd (PM.getPermission t k0 pm)) Hwf1 Hnd).
      destruct (examine pre clock rest (snd (PM.getPermission t k0 pm)))
        as [[kept dropped] pm'].
      cbn [fst snd] in IH. destruct IH as (Hby & Hsp & Hk & Hd & He).
      assert (Hdrop : forall i, i ∈ dropped -> i ∈ rest.*1).
      { intros i Hi. destruct (Hd i Hi) as (x & Hx & _).
        exact (entry_id _ _ _ Hx). }
      destruct (Registry.notActive (fst (PM.getPermission t k0 pm)))
        eqn:Hfound; cbn [fst snd]; unfold examined.
      * split; [exact (byOperations_trans _ _ _ Hby1 Hby)|].
        split; [rewrite Hsp; apply getPermission_spendTracking|].
        split; [|split].
        -- intros i x Hi. destruct (Hk i x Hi) as (Hin & Hp & Hnd' & Ha).
           split; [apply elem_of_cons; right; exact Hin|].
           split; [exact Hp|].
           split; [|exact (read_activeUntil_back _ _ _ _ _ Hwf Ha)].
           apply not_elem_of_cons. split; [|exact Hnd'].
           intros ->. apply Hnotin. exact (entry_id _ _ _ Hin).
        -- intros i Hi. apply elem_of_cons in Hi as [-> | Hi].
           ++ exists intent. split; [apply elem_of_cons; left; reflexivity|].
              split; [exact Hpre|].
              apply (byOperations_notActiveIn _ _ _ Hby Hwf1).
              apply found_dropped. exact Hfound.
           ++ destruct (Hd i Hi) as (x & Hx & Hp & Hn). exists x.
              split; [apply elem_of_cons; right; exact Hx|].
              split; assumption.
        -- intros i x Hi Hp. apply elem_of_cons in Hi as [[= -> ->] | Hi].
           ++ split; [right; apply elem_of_cons; left; reflexivity|].
              split; [intros _; apply elem_of_cons; left; reflexivity|].
              intros T Ha Hc. exfalso.
              assert (Hc0 : (t <= T)%Z)
                by (apply (Hc (id, intent)); apply elem_of_cons; left;
                    reflexivity).
              apply (activeUntil_earlier _ _ _ _ Hc0) in Ha.
              apply found_active in Ha. fold k0 in Ha. congruence.
           ++ destruct (He i x Hi Hp) as (Hor & Hn & Ha).
              split; [destruct Hor as [Hor|Hor];
                      [left; exact Hor
                      |right; apply elem_of_cons; right; exact Hor]|].
              split.
              ** intros Hna. apply elem_of_cons. right. apply Hn.
                 exact (byOperations_notActiveIn _ _ _ Hby1 Hwf Hna).
              ** intros T HaT Hc. apply (Ha T).
                 --- apply (read_activeUntil _ _ _ _ _ Hwf); [|exact HaT].
                     apply (Hc (id, intent)). apply elem_of_cons. left.
                     reflexivity.
                 --- intros e He'. apply Hc. apply elem_of_cons. right.
                     exact He'.
      * apply found_active in Hfound.
        split; [exact (byOperations_trans _ _ _ Hby1 Hby)|].
        split; [rewrite Hsp; apply getPermission_spendTracking|].
        split; [|split].
        -- intros i x Hi. apply elem_of_cons in Hi as [[= -> ->] | Hi].
           ++ split; [apply elem_of_cons; left; reflexivity|].
              split; [exact Hpre|].
              split; [intros Hi; apply Hnotin, Hdrop, Hi | exact Hfound].
           ++ destruct (Hk i x Hi) as (Hin & Hp & Hnd' & Ha).
              split; [apply elem_of_cons; right; exact Hin|].
              split; [exact Hp|].
              split; [exact Hnd'
                     |exact (read_activeUntil_back _ _ _ _ _ Hwf Ha)].
        -- intros i Hi. destruct (Hd i Hi) as (x & Hx & Hp & Hn). exists x.
           split; [apply elem_of_cons; right; exact Hx|].
           split; assumption.
        -- intros i x Hi Hp. apply elem_of_cons in Hi as [[= -> ->] | Hi].
           ++ split; [left; apply elem_of_cons; left; reflexivity|].
              split; [intros Hna; exfalso;
                      exact (activeUntil_notActiveIn _ _ _ Hfound Hna)|].
              intros T _ _. apply elem_of_cons. left. reflexivity.
           ++ destruct (He i x Hi Hp) as (Hor & Hn & Ha).
              split; [destruct Hor as [Hor|Hor];
                      [left; apply elem_of_cons; right; exact Hor
                      |right; exact Hor]|].
              split.
              ** intros Hna. apply Hn.
                 exact (byOperations_notActiveIn _ _ _ Hby1 Hwf Hna).
              ** intros T HaT Hc. apply elem_of_cons. right. apply (Ha T).
                 --- apply (read_activeUntil _ _ _ _ _ Hwf); [|exact HaT].
                     apply (Hc (id, intent)). apply elem_of_cons. left.
                     reflexivity.
                 --- intros e He'. apply Hc. apply elem_of_cons. right.
                     exact He'.
    + specialize (IH pm Hwf Hnd).
      destruct (examine pre clock rest pm) as [[kept dropped] pm'].
      cbn [fst snd] in IH |- *. destruct IH as (Hby & Hsp & Hk & Hd & He).
      unfold examined.
      split; [exact Hby|]. split; [exact Hsp|].
      split; [|split].
      * intros i x Hi. destruct (Hk i x Hi) as (Hin & Hp & Hnd' & Ha).
        split; [apply elem_of_cons; right; exact Hin|].
        split; [exact Hp | split; assumption].
      * intros i Hi. destruct (Hd i Hi) as (x & Hx & Hp & Hn). exists x.
        split; [apply elem_of_cons; right; exact Hx|].
        split; assumption.
      * intros i x Hi Hp. apply elem_of_cons in Hi as [[= -> ->] | Hi];
          [congruence|].
        destruct (He i x Hi Hp) as (Hor & Hn & Ha).
        split; [exact Hor|]. split; [exact Hn|].
        intros T HaT Hc. apply (Ha T HaT).
        intros e He'. apply Hc. apply elem_of_cons. right. exact He'.
Qed.

Lemma stopSchedule_snd (id : string) (s : Registry.schedules) :
  snd (Registry.stopSchedule id s) = (delete id (fst s), delete id (snd s)).
Proof. rewrite stopSchedule_spec. reflexivity. Qed.

Lemma stopEach_lookup (ids : list string) (k : string) :
  forall s,
    (k ∈ ids ->
     fst (Registry.stopEach ids s) !! k = None
     /\ snd (Registry.stopEach ids s) !! k = None)
    /\ (k ∉ ids ->
        fst (Registry.stopEach ids s) !! k = fst s !! k
        /\ snd (Registry.stopEach ids s) !! k = snd s !! k).
Proof.
  induction ids as [|id ids IH]; intros s.
  - split; [intros H; apply elem_of_nil in H; contradiction|].
    intros _. split; reflexivity.
  - change (Registry.stopEach (id :: ids) s)
      with (Registry.stopEach ids (snd (Registry.stopSchedule id s))).
    rewrite stopSchedule_snd.
    destruct (IH (delete id (fst s), delete id (snd s))) as [Hin Hout].
    cbn [fst snd] in Hin, Hout. split.
    + intros Hk. destruct (decide (k ∈ ids)) as [Hi|Hi]; [exact (Hin Hi)|].
      apply elem_of_cons in Hk as [-> | Hk]; [|contradiction].
      destruct (Hout Hi) as [-> ->]. rewrite !lookup_delete_eq.
      split; reflexivity.
    + intros Hk. apply not_elem_of_cons in Hk as [Hne Hk].
      destruct (Hout Hk) as [-> ->].
      rewrite !lookup_delete_ne by congruence. split; reflexivity.
Qed.

Lemma filterActive_examine (clock : string -> Z)
    (entries : list (string * AgentIntent)) :
  forall pm s,
    Registry.filterActive clock entries pm s
    = (fst (fst (examine Registry.isActiveFlag clock entries pm)),
       snd (examine Registry.isActiveFlag clock entries pm),
       Registry.stopEach
         (snd (fst (examine Registry.isActiveFlag clock entries pm))) s).
Proof.
  induction entries as [|[id intent] rest IH]; intros pm s; [reflexivity|].
  cbn [Registry.filterActive examine].
  destruct (Registry.isActiveFlag intent); cbn [negb]; [|apply IH].
  destruct (PM.getPermission (clock id) (permissionId intent) pm)
    as [found pm1]. cbn [fst snd].
  destruct (Registry.notActive found).
  - rewrite IH. destruct (examine _ _ rest pm1) as [[kept dropped] pm'].
    reflexivity.
  - rewrite IH. destruct (examine _ _ rest pm1) as [[kept dropped] pm'].
    reflexivity.
Qed.

Lemma markInvalid_examine (clock : string -> Z)
    (entries : list (string * AgentIntent)) :
  forall pm,
    Registry.markInvalid clock entries pm
    = (snd (fst (examine (fun _ => true) clock entries pm)),
       snd (examine (fun _ => true) clock entries pm)).
Proof.
  induction entries as [|[id intent] rest IH]; intros pm; [reflexivity|].
  cbn [Registry.markInvalid examine negb].
  destruct (PM.getPermission (clock id) (permissionId intent) pm)
    as [found pm1]. cbn [fst snd].
  rewrite IH. destruct (examine _ _ rest pm1) as [[kept dropped] pm'].
  destruct (Registry.notActive found); reflexivity.
Qed.

Lemma snapshot_lookup (entries : list (string * AgentIntent))
    (m : gmap string AgentIntent) (id : string) (intent : AgentIntent) :
  snapshot entries m -> ((id, intent) ∈ entries <-> m !! id = Some intent).
Proof. intros [Hnd ->]. apply elem_of_list_to_map. exact Hnd. Qed.

Lemma snapshot_missing (entries : list (string * AgentIntent))
    (m : gmap string AgentIntent) (id : string) :
  snapshot entries m -> m !! id = None -> id ∉ entries.*1.
Proof. intros [Hnd ->]. apply not_elem_of_list_to_map_2. Qed.

(** The ids the walk drops are ids of the snapshot, and the intent under
    a dropped id is the one the snapshot holds. *)
Lemma dropped_entry (pre : AgentIntent -> bool) (clock : string -> Z)
    (entries : list (string * AgentIntent)) (m : gmap string AgentIntent)
    (pm pm' : PermissionManager) (kept : list (string * AgentIntent))
    (dropped : list string) (id : string) (intent : AgentIntent) :
  snapshot entries m ->
  examined pre clock entries pm kept dropped pm' ->
  m !! id = Some intent ->
  id ∈ dropped ->
  pre intent = true /\ notActiveIn pm' (permissionId intent).
Proof.
  intros Hsn (_ & _ & _ & Hd & _) Hm Hi.
  destruct (Hd id Hi) as (x & Hx & Hp & Hn).
  apply (snapshot_lookup _ _ _ _ Hsn) in Hx. rewrite Hm in Hx.
  injection Hx as <-. split; assumption.
Qed.

(** X25: the listing of active schedules.  On a well-formed manager
    [getActiveSchedules] lists a registered schedule only if its flag is
    set and its permission was stored active and had not ended when it was
    read; such a schedule stays registered.  A schedule whose flag is not
    set is not listed and stays registered.  A schedule whose flag is set
    but whose permission is missing, revoked, expired or past its end at
    the read is not listed and is stopped: it leaves both maps of the
    registry, and its permission is not active in the manager afterwards.
    A schedule whose flag is set and whose permission is stored active
    until after every read of the walk is listed, with its next execution
    time.  The manager changes only by the lazy expiry of the reads, and
    no ledger changes. *)
Theorem getActiveSchedules_lists (clock : string -> Z) (now : Z)
    (entries : list (string * AgentIntent)) (a : AgentExecutor) :
  wellFormed (permissionManager a) ->
  snapshot entries (scheduledIntents a) ->
  let r := Registry.getActiveSchedules clock now entries a in
  let pm := permissionManager a in
  let listed := fst (fst r) in
  let pm' := snd (fst r) in
  let s' := snd r in
  byOperations pm pm' /\ wellFormed pm'
  /\ spendTracking pm' = spendTracking pm
  /\ (forall id intent next, (id, intent, next) ∈ listed ->
        scheduledIntents a !! id = Some intent
        /\ Registry.isActiveFlag intent = true
        /\ next = Registry.nextExecutionOr now intent
        /\ activeUntil pm (permissionId intent) (clock id)
        /\ snd s' !! id = Some intent
        /\ fst s' !! id = activeSchedules a !! id)
  /\ (forall id intent, scheduledIntents a !! id = Some intent ->
        (Registry.isActiveFlag intent = false ->
         (forall next, (id, intent, next) ∉ listed)
         /\ snd s' !! id = Some intent)
        /\ (Registry.isActiveFlag intent = true ->
            ~ activeUntil pm (permissionId intent) (clock id) ->
            (forall next, (id, intent, next) ∉ listed)
            /\ snd s' !! id = None /\ fst s' !! id = None
            /\ notActiveIn pm' (permissionId intent))
        /\ (Registry.isActiveFlag intent = true ->
            forall T,
              activeUntil pm (permissionId intent) T ->
              (forall e, e ∈ entries -> (clock (fst e) <= T)%Z) ->
              (id, intent, Registry.nextExecutionOr now intent) ∈ listed)).
Proof.
  intros Hwf Hsn. cbv zeta. unfold Registry.getActiveSchedules.
  rewrite filterActive_examine.
  pose proof (examine_examined Registry.isActiveFlag clock entries
                (permissionManager a) Hwf (proj1 Hsn)) as Hex.
  destruct (examine Registry.isActiveFlag clock entries (permissionManager a))
    as [[kept dropped] pm'].
  cbn [fst snd] in *.
  pose proof Hex as (Hby & Hsp & Hk & Hd & He).
  assert (Hlisted : forall id intent next,
            (id, intent, next)
              ∈ List.map (fun e => (fst e, snd e,
                                    Registry.nextExecutionOr now (snd e))) kept ->
            (id, intent) ∈ kept
            /\ next = Registry.nextExecutionOr now intent).
  { intros id intent next Hin. apply list_elem_of_In, in_map_iff in Hin.
    destruct Hin as ([i x] & [= <- <- <-] & Hin).
    apply list_elem_of_In in Hin. split; [exact Hin | reflexivity]. }
  split; [exact Hby|].
  split; [apply (byOperations_keeps _ _ Hby Hwf)|].
  split; [exact Hsp|].
  split.
  - intros id intent next Hin. apply Hlisted in Hin as [Hin ->].
    destruct (Hk id intent Hin) as (He1 & Hp & Hnd & Ha).
    destruct (stopEach_lookup dropped id (Registry.schedulesOf a))
      as [_ Hout].
    destruct (Hout Hnd) as [H1 H2]. cbn [fst snd Registry.schedulesOf] in *.
    apply (snapshot_lookup _ _ _ _ Hsn) in He1.
    split; [exact He1|]. split; [exact Hp|]. split; [reflexivity|].
    split; [exact Ha|]. split; [rewrite H2; exact He1 | exact H1].
  - intros id intent Hm.
    pose proof (proj2 (snapshot_lookup _ _ _ _ Hsn) Hm) as Hin.
    destruct (stopEach_lookup dropped id (Registry.schedulesOf a))
      as [Hdel Hout]. cbn [fst snd Registry.schedulesOf] in *.
    split; [|split].
    + intros Hflag. split.
      * intros next Hl. apply Hlisted in Hl as [Hl _].
        destruct (Hk id intent Hl) as (_ & Hp & _). congruence.
      * assert (Hnd : id ∉ dropped).
        { intros Hi.
          destruct (dropped_entry _ _ _ _ _ _ _ _ _ _ Hsn Hex Hm Hi)
            as [Hp _]. congruence. }
        destruct (Hout Hnd) as [_ H2]. rewrite H2. exact Hm.
    + intros Hflag Hna.
      destruct (He id intent Hin Hflag) as ([Hkept | Hdrop] & _).
      { destruct (Hk id intent Hkept) as (_ & _ & _ & Ha). contradiction. }
      split.
      * intros next Hl. apply Hlisted in Hl as [Hl _].
        destruct (Hk id intent Hl) as (_ & _ & Hnd & _). contradiction.
      * destruct (Hdel Hdrop) as [H1 H2].
        split; [exact H2|]. split; [exact H1|].
        apply (dropped_entry _ _ _ _ _ _ _ _ _ _ Hsn Hex Hm Hdrop).
    + intros Hflag T Ha Hc.
      destruct (He id intent Hin Hflag) as (_ & _ & Hkeep).
      apply list_elem_of_In, in_map_iff. exists (id, intent).
      split; [reflexivity|]. apply list_elem_of_In. exact (Hkeep T Ha Hc).
Qed.

(** X26: the clean-up of schedules.  On a well-formed manager
    [cleanupInvalidSchedules] leaves every registered schedule either
    untouched, and then its permission was stored active and had not
    ended when it was read, or removed from both maps of the registry, and
    then its permission is not active in the manager afterwards.  A
    schedule whose permission is missing, revoked, expired or past its end
    at the read is removed; one whose permission is stored active until
    after every read of the walk is kept.  Ids that are not registered
    stay unregistered and keep their timer handle.  The manager changes
    only by the lazy expiry of the reads, and no ledger changes. *)
Theorem cleanupInvalidSchedules_removes (clock : string -> Z)
    (entries : list (string * AgentIntent)) (a : AgentExecutor) :
  wellFormed (permissionManager a) ->
  snapshot entries (scheduledIntents a) ->
  let r := Registry.cleanupInvalidSchedules clock entries a in
  let pm := permissionManager a in
  let pm' := fst r in
  let s' := snd r in
  byOperations pm pm' /\ wellFormed pm'
  /\ spendTracking pm' = spendTracking pm
  /\ (forall id, scheduledIntents a !! id = None ->
        snd s' !! id = None /\ fst s' !! id = activeSchedules a !! id)
  /\ (forall id intent, scheduledIntents a !! id = Some intent ->
        ((snd s' !! id = Some intent
          /\ fst s' !! id = activeSchedules a !! id
          /\ activeUntil pm (permissionId intent) (clock id))
         \/ (snd s' !! id = None /\ fst s' !! id = None
             /\ notActiveIn pm' (permissionId intent)))
        /\ (~ activeUntil pm (permissionId intent) (clock id) ->
            snd s' !! id = None)
        /\ (forall T,
              activeUntil pm (permissionId intent) T ->
              (forall e, e ∈ entries -> (clock (fst e) <= T)%Z) ->
              snd s' !! id = Some intent)).
Proof.
  intros Hwf Hsn. cbv zeta. unfold Registry.cleanupInvalidSchedules.
  rewrite markInvalid_examine.
  pose proof (examine_examined (fun _ => true) clock entries
                (permissionManager a) Hwf (proj1 Hsn)) as Hex.
  destruct (examine (fun _ => true) clock entries (permissionManager a))
    as [[kept dropped] pm'].
  cbn [fst snd] in *.
  pose proof Hex as (Hby & Hsp & Hk & Hd & He).
  split; [exact Hby|].
  split; [apply (byOperations_keeps _ _ Hby Hwf)|].
  split; [exact Hsp|].
  split.
  - intros id Hm.
    destruct (stopEach_lookup dropped id (Registry.schedulesOf a))
      as [_ Hout]. cbn [fst snd Registry.schedulesOf] in *.
    assert (Hnd : id ∉ dropped).
    { intros Hi. destruct (Hd id Hi) as (x & Hx & _).
      apply (snapshot_lookup _ _ _ _ Hsn) in Hx. congruence. }
    destruct (Hout Hnd) as [H1 H2]. rewrite H2. split; [exact Hm | exact H1].
  - intros id intent Hm.
    pose proof (proj2 (snapshot_lookup _ _ _ _ Hsn) Hm) as Hin.
    destruct (stopEach_lookup dropped id (Registry.schedulesOf a))
      as [Hdel Hout]. cbn [fst snd Registry.schedulesOf] in *.
    destruct (He id intent Hin eq_refl) as (Hor & _ & Hkeep).
    assert (Hkept : (id, intent) ∈ kept ->
              snd (Registry.stopEach dropped (Registry.schedulesOf a)) !! id
              = Some intent
              /\ fst (Registry.stopEach dropped (Registry.schedulesOf a)) !! id
                 = activeSchedules a !! id
              /\ activeUntil (permissionManager a) (permissionId intent)
                   (clock id)).
    { intros Hi. destruct (Hk id intent Hi) as (_ & _ & Hnd & Ha).
      destruct (Hout Hnd) as [H1 H2]. rewrite H2.
      split; [exact Hm | split; [exact H1 | exact Ha]]. }
    split; [|split].
    + destruct Hor as [Hi | Hi]; [left; exact (Hkept Hi) | right].
      destruct (Hdel Hi) as [H1 H2].
      split; [exact H2 | split; [exact H1|]].
      apply (dropped_entry _ _ _ _ _ _ _ _ _ _ Hsn Hex Hm Hi).
    + intros Hna. destruct Hor as [Hi | Hi].
      * destruct (Hkept Hi) as (_ & _ & Ha). contradiction.
      * apply (Hdel Hi).
    + intros T Ha Hc. apply Hkept. exact (Hkeep T Ha Hc).
Qed.

Lemma agentRevoked_wellFormed : wellFormed (permissionManager agentRevoked).
Proof.
  apply (applyOps_wellFormed
           [OpCreate grantOk (request100 tokenA); OpRevoke true "perm_1"]
           emptyPM).
  apply wellFormed_empty.
Qed.

Lemma agentRevoked_snapshot :
  snapshot [("schedule_1", scheduledIntent1)] (scheduledIntents agentRevoked).
Proof.
  split; [repeat constructor; intros H; apply elem_of_nil in H; exact H|].
  reflexivity.
Qed.

Lemma agentRevoked_not_active (t : Z) :
  ~ activeUntil (permissionManager agentRevoked) "perm_1" t.
Proof.
  intros (p & Hp & Hs & _). unfold agentRevoked in Hp.
  cbn [permissionManager] in Hp.
  rewrite (revokePermission_stored_active "perm_1" perm1 pm1
             (lookup_insert_eq _ _ _) eq_refl) in Hp.
  cbn [snd permissions] in Hp. rewrite lookup_insert_eq in Hp.
  injection Hp as <-. discriminate.
Qed.

Lemma getActiveSchedules_lists_witness :
  snd (snd (Registry.getActiveSchedules (fun _ => 500%Z) 500
              [("schedule_1", scheduledIntent1)] agentRevoked))
    !! "schedule_1" = None.
Proof.
  pose proof (getActiveSchedules_lists (fun _ => 500%Z) 500
                [("schedule_1", scheduledIntent1)] agentRevoked
                agentRevoked_wellFormed agentRevoked_snapshot) as H.
  cbv zeta in H. destruct H as (_ & _ & _ & _ & H).
  destruct (H "schedule_1" scheduledIntent1) as (_ & Hd & _).
  - apply (snapshot_lookup _ _ _ _ agentRevoked_snapshot).
    apply elem_of_cons. left. reflexivity.
  - apply (Hd eq_refl (agentRevoked_not_active 500)).
Defined.

Lemma cleanupInvalidSchedules_removes_witness :
  snd (snd (Registry.cleanupInvalidSchedules (fun _ => 500%Z)
              [("schedule_1", scheduledIntent1)] agentRevoked))
    !! "schedule_1" = None.
Proof.
  pose proof (cleanupInvalidSchedules_removes (fun _ => 500%Z)
                [("schedule_1", scheduledIntent1)] agentRevoked
                agentRevoked_wellFormed agentRevoked_snapshot) as H.
  cbv zeta in H. destruct H as (_ & _ & _ & _ & H).
  destruct (H "schedule_1" scheduledIntent1) as (_ & Hd & _).
  - apply (snapshot_lookup _ _ _ _ agentRevoked_snapshot).
    apply elem_of_cons. left. reflexivity.
  - apply Hd. apply agentRevoked_not_active.
Defined.
